(** * bridge-console: the authentication core ([pkg/auth])

    A shallow embedding of [pkg/auth/auth.go] and
    [pkg/auth/auth_openshift.go] together with the properties the
    specification states about them.

    Conventions.
    - Go's [error] results are sums: [inl v] is [(v, nil)], [inr e] is
      [(_, e)].  A function that only returns [error] yields
      [option error], [None] being [nil].
    - Objects reached through pointers ([*Config], [*http.Client],
      [*oauth2.Config], the process-wide [sync.Map]s) live in explicit
      stores that are passed in and returned.
    - What the package calls in the Go standard library and in other
      packages is either modelled here under the name it has in Go
      (net/url, strings, net/http cookies) or taken as a [Section]
      variable, so that the theorems hold for every behaviour of it. *)

From Stdlib Require Import ZArith String Ascii List Bool Lia.
From stdpp Require Import base option gmap strings list.

Open Scope string_scope.
Open Scope Z_scope.

(** ** Bytes and Go's [strings] package *)

Module GoStrings.

Definition bytes := list ascii.

Definition code (c : ascii) : N := N_of_ascii c.

Definition between (lo hi c : ascii) : bool :=
  (code lo <=? code c)%N && (code c <=? code hi)%N.

Definition isLower (c : ascii) : bool := between "a" "z" c.
Definition isUpper (c : ascii) : bool := between "A" "Z" c.
Definition isDigit (c : ascii) : bool := between "0" "9" c.
Definition isAlnum (c : ascii) : bool := isLower c || isUpper c || isDigit c.

Definition memb (c : ascii) (s : string) : bool :=
  existsb (Ascii.eqb c) (list_ascii_of_string s).

(** [strings.HasPrefix(s, prefix)] *)
Definition HasPrefix (s prefix : string) : bool := String.prefix prefix s.

Fixpoint prefixb (p s : bytes) : bool :=
  match p, s with
  | [], _ => true
  | a :: p', b :: s' => Ascii.eqb a b && prefixb p' s'
  | _ :: _, [] => false
  end.

(** [strings.HasSuffix(s, suffix)] *)
Definition HasSuffix (s suffix : string) : bool :=
  prefixb (rev (list_ascii_of_string suffix)) (rev (list_ascii_of_string s)).

(** [strings.TrimSuffix(s, suffix)] *)
Definition TrimSuffix (s suffix : string) : string :=
  if HasSuffix s suffix
  then substring 0 (String.length s - String.length suffix) s
  else s.

(** [strings.ToLower], on ASCII letters. *)
Definition lowerByte (c : ascii) : ascii :=
  if isUpper c then ascii_of_N (code c + 32) else c.

Definition ToLower (s : bytes) : bytes := map lowerByte s.

(** [strings.Cut(s, sep)] for a one-byte separator: the text before the
    first [sep], the text after it, and whether [sep] was found. *)
Fixpoint Cut (s : bytes) (sep : ascii) : bytes * bytes * bool :=
  match s with
  | [] => ([], [], false)
  | c :: s' =>
      if Ascii.eqb c sep then ([], s', true)
      else let '(b, a, f) := Cut s' sep in (c :: b, a, f)
  end.

(** Split at the LAST occurrence of [sep] ([strings.LastIndex]):
    [Some (before, after)], or [None] when [sep] does not occur. *)
Definition CutLast (s : bytes) (sep : ascii) : option (bytes * bytes) :=
  let '(a, b, f) := Cut (rev s) sep in
  if f then Some (rev b, rev a) else None.

(** Split before the first occurrence of [sep], which stays with the
    second part ([s[:i], s[i:]] for [i := strings.Index(s, sep)]). *)
Definition SplitAt (s : bytes) (sep : ascii) : bytes * bytes :=
  let '(b, a, f) := Cut s sep in
  if f then (b, sep :: a) else (s, []).

Definition Count (s : bytes) (sep : ascii) : nat :=
  length (filter (fun c => Ascii.eqb c sep = true) s).

(** Index of the first occurrence of the byte sequence [pat]. *)
Fixpoint Index (s pat : bytes) : option nat :=
  if prefixb pat s then Some 0%nat
  else match s with
       | [] => None
       | _ :: s' => option_map S (Index s' pat)
       end.

End GoStrings.

(** ** Go's [net/url] package

    The repository calls [url.Parse], [URL.Hostname], [URL.Port] and
    [URL.String].  The model below follows the Go 1.17 sources of
    [net/url] (the toolchain the repository was built with).  The theorems
    about the repository's own functions are stated for an arbitrary
    parser; this model serves to run them on concrete header values. *)

Module url.

Import GoStrings.
Local Open Scope list_scope.

Record URL := mkURL {
  Scheme : string;
  Opaque : string;
  User : option (string * option string);
  Host : string;
  Path : string;
  RawPath : string;
  ForceQuery : bool;
  RawQuery : string;
  Fragment : string;
  RawFragment : string
}.

Definition empty : URL :=
  mkURL "" "" None "" "" "" false "" "" "".

Inductive error :=
| EscapeError (s : string)
| InvalidHostError (s : string)
| ErrControlCharacter
| ErrMissingProtocolScheme
| ErrFirstSegmentColon
| ErrInvalidPort (s : string)
| ErrMissingBracket
| ErrInvalidUserinfo.

Definition str (b : bytes) : string := string_of_list_ascii b.
Definition unstr (s : string) : bytes := list_ascii_of_string s.

Inductive encoding :=
| encodePath | encodePathSegment | encodeHost | encodeZone
| encodeUserPassword | encodeQueryComponent | encodeFragment.

Definition encoding_eqb (a b : encoding) : bool :=
  match a, b with
  | encodePath, encodePath | encodePathSegment, encodePathSegment
  | encodeHost, encodeHost | encodeZone, encodeZone
  | encodeUserPassword, encodeUserPassword
  | encodeQueryComponent, encodeQueryComponent
  | encodeFragment, encodeFragment => true
  | _, _ => false
  end.

(** [shouldEscape(c, mode)] *)
Definition shouldEscape (c : ascii) (mode : encoding) : bool :=
  if isAlnum c then false
  else if (encoding_eqb mode encodeHost || encoding_eqb mode encodeZone)
          && (memb c "!$&'()*+,;=:[]<>" || (code c =? 34)%N)
  then false
  else if memb c "-_.~" then false
  else if memb c "$&+,/:;=?@" then
    match mode with
    | encodePath => Ascii.eqb c "?"
    | encodePathSegment => memb c "/;,?"
    | encodeUserPassword => memb c "@/?:"
    | encodeQueryComponent => true
    | encodeFragment => false
    | _ => true
    end
  else if encoding_eqb mode encodeFragment && memb c "!()*" then false
  else true.

Definition ishex (c : ascii) : bool :=
  isDigit c || between "a" "f" c || between "A" "F" c.

Definition unhex (c : ascii) : N :=
  if isDigit c then code c - code "0"
  else if between "a" "f" c then code c - code "a" + 10
  else if between "A" "F" c then code c - code "A" + 10
  else 0.

Definition take3 (s : bytes) : string := str (firstn 3 s).

(** [unescape(s, mode)]: Go validates in a first pass and decodes in a
    second one; one pass yields the same result, the first error met
    from the left being the one reported. *)
Fixpoint unescape (s : bytes) (mode : encoding) : bytes + error :=
  match s with
  | [] => inl []
  | c :: rest =>
      if Ascii.eqb c "%" then
        match rest with
        | a :: b :: rest' =>
            if negb (ishex a && ishex b) then inr (EscapeError (take3 s))
            else if encoding_eqb mode encodeHost && (unhex a <? 8)%N
                    && negb (String.eqb (take3 s) "%25")
            then inr (EscapeError (take3 s))
            else
              let v := ascii_of_N (unhex a * 16 + unhex b) in
              if encoding_eqb mode encodeZone
                 && negb (String.eqb (take3 s) "%25")
                 && negb (Ascii.eqb v " ")
                 && shouldEscape v encodeHost
              then inr (EscapeError (take3 s))
              else
                match unescape rest' mode with
                | inl r => inl (v :: r)
                | inr e => inr e
                end
        | _ => inr (EscapeError (take3 s))
        end
      else if (encoding_eqb mode encodeHost || encoding_eqb mode encodeZone)
              && (code c <? 128)%N && shouldEscape c encodeHost
      then inr (InvalidHostError (str [c]))
      else
        match unescape rest mode with
        | inl r =>
            inl ((if encoding_eqb mode encodeQueryComponent && Ascii.eqb c "+"
                  then " "%char else c) :: r)
        | inr e => inr e
        end
  end.

Definition upperhex (n : N) : ascii :=
  nth (N.to_nat n) (unstr "0123456789ABCDEF") "0"%char.

(** [escape(s, mode)] *)
Definition escape (s : bytes) (mode : encoding) : bytes :=
  flat_map
    (fun c =>
       if shouldEscape c mode then
         if Ascii.eqb c " " && encoding_eqb mode encodeQueryComponent
         then ["+"%char]
         else ["%"%char; upperhex (code c / 16); upperhex (code c mod 16)]
       else [c])
    s.

(** [QueryEscape(s)] *)
Definition QueryEscape (s : string) : string :=
  str (escape (unstr s) encodeQueryComponent).

(** [getScheme(rawURL)]: [first] tells whether the byte looked at is
    [rawURL[0]], [acc] holds the bytes passed so far, reversed. *)
Fixpoint getScheme_from (first : bool) (acc s raw : bytes)
  : (bytes * bytes) + error :=
  match s with
  | [] => inl ([], raw)
  | c :: s' =>
      if isLower c || isUpper c then getScheme_from false (c :: acc) s' raw
      else if isDigit c || memb c "+-." then
        if first then inl ([], raw)
        else getScheme_from false (c :: acc) s' raw
      else if Ascii.eqb c ":" then
        if first then inr ErrMissingProtocolScheme
        else inl (rev acc, s')
      else inl ([], raw)
  end.

Definition getScheme (rawURL : bytes) : (bytes * bytes) + error :=
  getScheme_from true [] rawURL rawURL.

(** [stringContainsCTLByte(s)] *)
Definition stringContainsCTLByte (s : bytes) : bool :=
  existsb (fun b => (code b <? 32)%N || (code b =? 127)%N) s.

(** [validOptionalPort(port)] *)
Definition validOptionalPort (port : bytes) : bool :=
  match port with
  | [] => true
  | c :: ds => Ascii.eqb c ":" && forallb isDigit ds
  end.

(** [validUserinfo(s)] *)
Definition validUserinfo (s : bytes) : bool :=
  forallb (fun r => isAlnum r || memb r "-._:~!$&'()*+,;=%@") s.

Definition isNil {A} (l : list A) : bool :=
  match l with [] => true | _ => false end.

(** [parseHost(host)] *)
Definition parseHost (host : bytes) : bytes + error :=
  let plain := unescape host encodeHost in
  if prefixb ["["%char] host then
    match CutLast host "]" with
    | None => inr ErrMissingBracket
    | Some (inside, colonPort) =>
        if negb (validOptionalPort colonPort)
        then inr (ErrInvalidPort (str colonPort))
        else
          match Index inside (unstr "%25") with
          | Some zone =>
              match unescape (firstn zone host) encodeHost with
              | inr e => inr e
              | inl host1 =>
                  match unescape (skipn zone inside) encodeZone with
                  | inr e => inr e
                  | inl host2 =>
                      match unescape ("]"%char :: colonPort) encodeHost with
                      | inr e => inr e
                      | inl host3 => inl (host1 ++ host2 ++ host3)
                      end
                  end
              end
          | None => plain
          end
    end
  else
    match CutLast host ":" with
    | Some (_, p) =>
        if negb (validOptionalPort (":"%char :: p))
        then inr (ErrInvalidPort (str (":"%char :: p)))
        else plain
    | None => plain
    end.

(** [parseAuthority(authority)] *)
Definition parseAuthority (authority : bytes)
  : (option (string * option string) * bytes) + error :=
  match CutLast authority "@" with
  | None =>
      match parseHost authority with
      | inr e => inr e
      | inl host => inl (None, host)
      end
  | Some (userinfo, hostpart) =>
      match parseHost hostpart with
      | inr e => inr e
      | inl host =>
          if negb (validUserinfo userinfo) then inr ErrInvalidUserinfo
          else
            let '(username, password, hasColon) := Cut userinfo ":" in
            if hasColon then
              match unescape username encodeUserPassword,
                    unescape password encodeUserPassword with
              | inr e, _ => inr e
              | inl _, inr e => inr e
              | inl u, inl p => inl (Some (str u, Some (str p)), host)
              end
            else
              match unescape userinfo encodeUserPassword with
              | inr e => inr e
              | inl u => inl (Some (str u, None), host)
              end
      end
  end.

Definition bytes_eqb (a b : bytes) : bool := String.eqb (str a) (str b).

(** [URL.setPath(p)] *)
Definition setPath (u : URL) (p : bytes) : URL + error :=
  match unescape p encodePath with
  | inr e => inr e
  | inl path =>
      let escp := escape path encodePath in
      let raw := if bytes_eqb p escp then [] else p in
      inl (mkURL (Scheme u) (Opaque u) (User u) (Host u) (str path) (str raw)
                 (ForceQuery u) (RawQuery u) (Fragment u) (RawFragment u))
  end.

(** [URL.setFragment(f)] *)
Definition setFragment (u : URL) (f : bytes) : URL + error :=
  match unescape f encodeFragment with
  | inr e => inr e
  | inl frag =>
      let escf := escape frag encodeFragment in
      let raw := if bytes_eqb f escf then [] else f in
      inl (mkURL (Scheme u) (Opaque u) (User u) (Host u) (Path u) (RawPath u)
                 (ForceQuery u) (RawQuery u) (str frag) (str raw))
  end.

(** [parse(rawURL, viaRequest = false)] *)
Definition parse (rawURL : bytes) : URL + error :=
  if stringContainsCTLByte rawURL then inr ErrControlCharacter
  else if bytes_eqb rawURL ["*"%char] then
    inl (mkURL "" "" None "" "*" "" false "" "" "")
  else
    match getScheme rawURL with
    | inr e => inr e
    | inl (scheme0, rest0) =>
        let scheme := ToLower scheme0 in
        let '(rest, rawQuery, forceQuery) :=
          if prefixb ["?"%char] (rev rest0) && (Count rest0 "?" =? 1)%nat
          then (removelast rest0, [], true)
          else let '(b, a, _) := Cut rest0 "?" in (b, a, false) in
        let u0 := mkURL (str scheme) "" None "" "" "" forceQuery
                        (str rawQuery) "" "" in
        if negb (prefixb ["/"%char] rest) && negb (isNil scheme) then
          inl (mkURL (str scheme) (str rest) None "" "" "" forceQuery
                     (str rawQuery) "" "")
        else if negb (prefixb ["/"%char] rest)
                && existsb (Ascii.eqb ":") (fst (fst (Cut rest "/")))
        then inr ErrFirstSegmentColon
        else if (negb (isNil scheme) || negb (prefixb (unstr "///") rest))
                && prefixb (unstr "//") rest
        then
          let '(authority, rest') := SplitAt (skipn 2 rest) "/" in
          match parseAuthority authority with
          | inr e => inr e
          | inl (user, host) =>
              setPath (mkURL (str scheme) "" user (str host) "" ""
                             forceQuery (str rawQuery) "" "") rest'
          end
        else setPath u0 rest
    end.

(** [url.Parse(rawURL)] *)
Definition Parse (rawURL : string) : URL + error :=
  let '(u, frag, _) := Cut (unstr rawURL) "#" in
  match parse u with
  | inr e => inr e
  | inl url =>
      if isNil frag then inl url else setFragment url frag
  end.

(** [splitHostPort(hostPort)] *)
Definition splitHostPort (hostPort : bytes) : bytes * bytes :=
  let '(host, port) :=
    match CutLast hostPort ":" with
    | Some (h, p) =>
        if validOptionalPort (":"%char :: p) then (h, p) else (hostPort, [])
    | None => (hostPort, [])
    end in
  if prefixb ["["%char] host && prefixb ["]"%char] (rev host)
  then (removelast (tl host), port)
  else (host, port).

(** [URL.Hostname()] *)
Definition Hostname (u : URL) : string :=
  str (fst (splitHostPort (unstr (Host u)))).

(** [URL.Port()] *)
Definition Port (u : URL) : string :=
  str (snd (splitHostPort (unstr (Host u)))).

(** [validEncoded(s, mode)] *)
Definition validEncoded (s : bytes) (mode : encoding) : bool :=
  forallb (fun c => memb c "!$&'()*+,;=:@[]%" || negb (shouldEscape c mode)) s.

(** [URL.EscapedPath()] *)
Definition EscapedPath (u : URL) : bytes :=
  let viaRaw :=
    if negb (String.eqb (RawPath u) "")
       && validEncoded (unstr (RawPath u)) encodePath
    then match unescape (unstr (RawPath u)) encodePath with
         | inl p => String.eqb (str p) (Path u)
         | inr _ => false
         end
    else false in
  if viaRaw then unstr (RawPath u)
  else if String.eqb (Path u) "*" then ["*"%char]
  else escape (unstr (Path u)) encodePath.

(** [URL.EscapedFragment()] *)
Definition EscapedFragment (u : URL) : bytes :=
  let viaRaw :=
    if negb (String.eqb (RawFragment u) "")
       && validEncoded (unstr (RawFragment u)) encodeFragment
    then match unescape (unstr (RawFragment u)) encodeFragment with
         | inl f => String.eqb (str f) (Fragment u)
         | inr _ => false
         end
    else false in
  if viaRaw then unstr (RawFragment u)
  else escape (unstr (Fragment u)) encodeFragment.

(** [Userinfo.String()] *)
Definition Userinfo_String (ui : string * option string) : bytes :=
  escape (unstr (fst ui)) encodeUserPassword
    ++ match snd ui with
       | Some p => ":"%char :: escape (unstr p) encodeUserPassword
       | None => []
       end.

(** [URL.String()] *)
Definition String (u : URL) : string :=
  let head := if String.eqb (Scheme u) "" then []
              else unstr (Scheme u) ++ [":"%char] in
  let hasHost := negb (String.eqb (Host u) "") in
  let hasUser := match User u with Some _ => true | None => false end in
  let body :=
    if negb (String.eqb (Opaque u) "") then head ++ unstr (Opaque u)
    else
      let auth :=
        if negb (String.eqb (Scheme u) "") || hasHost || hasUser then
          (if hasHost || negb (String.eqb (Path u) "") || hasUser
           then unstr "//" else [])
            ++ match User u with
               | Some ui => Userinfo_String ui ++ ["@"%char]
               | None => []
               end
            ++ (if hasHost then escape (unstr (Host u)) encodeHost else [])
        else [] in
      let path := EscapedPath u in
      let sep :=
        if negb (isNil path) && negb (prefixb ["/"%char] path) && hasHost
        then ["/"%char] else [] in
      let buf := head ++ auth ++ sep in
      let dot :=
        if isNil buf then
          let '(seg, _, found) := Cut path ":" in
          if found && negb (existsb (Ascii.eqb "/") seg)
          then unstr "./" else []
        else [] in
      buf ++ dot ++ path in
  let query :=
    if ForceQuery u || negb (String.eqb (RawQuery u) "")
    then "?"%char :: unstr (RawQuery u) else [] in
  let frag :=
    if negb (String.eqb (Fragment u) "")
    then "#"%char :: EscapedFragment u else [] in
  str (body ++ query ++ frag).

(** The assignment [u.RawQuery = q]. *)
Definition with_RawQuery (u : URL) (q : string) : URL :=
  mkURL (Scheme u) (Opaque u) (User u) (Host u) (Path u) (RawPath u)
        (ForceQuery u) q (Fragment u) (RawFragment u).

(** The literal [url.URL{Path: p}]. *)
Definition of_Path (p : string) : URL :=
  mkURL "" "" None "" p "" false "" "" "".

End url.

(** ** Go's [net/http] package: headers, cookies, requests, responses *)

Module http.

Import GoStrings.

Definition StatusNoContent : Z := 204.
Definition StatusSeeOther : Z := 303.

(** [http.Header] and [url.Values]: a map from a (canonical) key to the
    list of its values. *)
Definition Header_Get (h : gmap string (list string)) (key : string)
  : string :=
  match h !! key with
  | Some (v :: _) => v
  | _ => ""
  end.

Definition Header_Set (h : gmap string (list string)) (key value : string)
  : gmap string (list string) :=
  <[key := [value]]> h.

Definition Values_Add (m : gmap string (list string)) (key value : string)
  : gmap string (list string) :=
  <[key := (default [] (m !! key) ++ [value])%list]> m.

Inductive SameSite :=
| SameSiteUnset | SameSiteDefaultMode | SameSiteLaxMode
| SameSiteStrictMode | SameSiteNoneMode.

(** [http.Cookie].  [Expires] and [Raw] are never set by the package
    and are left out. *)
Record Cookie := mkCookie {
  Name : string;
  Value : string;
  Path : string;
  Domain : string;
  MaxAge : Z;
  Secure : bool;
  HttpOnly : bool;
  SameSite_ : SameSite
}.

(** The [http.Cookie] literal with every field at its zero value. *)
Definition Cookie_zero : Cookie :=
  mkCookie "" "" "" "" 0 false false SameSiteUnset.

Definition Cookie_with_Domain (c : Cookie) (d : string) : Cookie :=
  mkCookie (Name c) (Value c) (Path c) d (MaxAge c) (Secure c) (HttpOnly c)
           (SameSite_ c).

(** [http.Request]: the method, the parsed request URL, the header, the
    cookies of its [Cookie] header in the order [r.Cookies()] yields
    them. *)
Record Request := mkRequest {
  Method : string;
  URL : url.URL;
  Header : gmap string (list string);
  Cookies : list (string * string)
}.

(** [r.Cookie(name)]: the first cookie of that name, or [ErrNoCookie]
    ([None]). *)
Fixpoint lookupCookie (cs : list (string * string)) (name : string)
  : option string :=
  match cs with
  | [] => None
  | (n, v) :: cs' => if String.eqb n name then Some v else lookupCookie cs' name
  end.

Definition Request_Cookie (r : Request) (name : string) : option string :=
  lookupCookie (Cookies r) name.

(** [r.Referer()] *)
Definition Referer (r : Request) : string := Header_Get (Header r) "Referer".

(** Pieces of [s] between occurrences of [sep]; [cur] holds the piece
    being read, reversed. *)
Fixpoint splitOn (sep : ascii) (s cur : bytes) : list bytes :=
  match s with
  | [] => [rev cur]
  | c :: s' =>
      if Ascii.eqb c sep then rev cur :: splitOn sep s' []
      else splitOn sep s' (c :: cur)
  end.

(** One step of [parseQuery]: a piece [key=value] is unescaped and
    appended; a piece that is empty, holds a semicolon or does not
    unescape is skipped. *)
Definition parseQuery_piece (m : gmap string (list string)) (piece : bytes)
  : gmap string (list string) :=
  if existsb (Ascii.eqb ";") piece then m
  else if url.isNil piece then m
  else
    let '(k, v, _) := Cut piece "=" in
    match url.unescape k url.encodeQueryComponent,
          url.unescape v url.encodeQueryComponent with
    | inl k', inl v' => Values_Add m (url.str k') (url.str v')
    | _, _ => m
    end.

(** [u.Query()], that is [ParseQuery(u.RawQuery)] with its error
    dropped. *)
Definition URL_Query (u : url.URL) : gmap string (list string) :=
  fold_left parseQuery_piece (splitOn "&" (url.unstr (url.RawQuery u)) []) ∅.

(** [sort.Strings] on the keys, by insertion. *)
Fixpoint insertKey (k : string) (ks : list string) : list string :=
  match ks with
  | [] => [k]
  | k' :: ks' =>
      if String.leb k k' then k :: ks else k' :: insertKey k ks'
  end.

Definition sortKeys (ks : list string) : list string :=
  fold_right insertKey [] ks.

Fixpoint joinWith (sep : string) (l : list string) : string :=
  match l with
  | [] => ""
  | [x] => x
  | x :: l' => x +:+ sep +:+ joinWith sep l'
  end.

(** [url.Values.Encode()]: the keys in increasing order, every value
    of a key as [QueryEscape(key)=QueryEscape(value)], joined by [&]. *)
Definition Values_Encode (v : gmap string (list string)) : string :=
  joinWith "&"
    (flat_map
       (fun k =>
          map (fun x => url.QueryEscape k +:+ "=" +:+ url.QueryEscape x)
              (default [] (v !! k)))
       (sortKeys (map fst (map_to_list v)))).

(** [http.ResponseWriter]: the response header, the [Set-Cookie] lines
    added to it (kept as cookie values, in order), and the status code
    once [WriteHeader] has been called.  Bodies are not modelled. *)
Record ResponseWriter := mkRW {
  rwHeader : gmap string (list string);
  rwSetCookie : list Cookie;
  rwStatus : option Z
}.

Definition newRecorder : ResponseWriter := mkRW ∅ [] None.

(** [w.Header().Set(key, value)] *)
Definition SetHeader (w : ResponseWriter) (key value : string)
  : ResponseWriter :=
  mkRW (Header_Set (rwHeader w) key value) (rwSetCookie w) (rwStatus w).

(** [w.WriteHeader(code)]: the first call fixes the status. *)
Definition WriteHeader (w : ResponseWriter) (code : Z) : ResponseWriter :=
  mkRW (rwHeader w) (rwSetCookie w)
       (match rwStatus w with None => Some code | Some c => Some c end).

(** [http.SetCookie(w, cookie)], for a cookie whose name is a valid
    token. *)
Definition SetCookie (w : ResponseWriter) (c : Cookie) : ResponseWriter :=
  mkRW (rwHeader w) (rwSetCookie w ++ [c])%list (rwStatus w).

(** The [Max-Age] attribute [Cookie.String()] writes for a cookie:
    none for [MaxAge = 0], [Max-Age=0] for a negative [MaxAge]. *)
Definition MaxAge_attribute (c : Cookie) : option Z :=
  if MaxAge c >? 0 then Some (MaxAge c)
  else if MaxAge c <? 0 then Some 0
  else None.

End http.

(** ** Go's [time] package *)

Module time.

(** [time.Duration]: nanoseconds in an [int64]. *)
Definition Nanosecond : Z := 1.
Definition Second : Z := 1000000000.
Definition Hour : Z := 3600 * Second.
Definition minDuration : Z := - 2 ^ 63.
Definition maxDuration : Z := 2 ^ 63 - 1.

(** [time.Time] as the nanoseconds elapsed since the zero time. *)
Definition IsZero (t : Z) : bool := t =? 0.

(** [t.Sub(u)] saturates at the ends of [Duration]. *)
Definition Sub (t u : Z) : Z :=
  Z.max minDuration (Z.min maxDuration (t - u)).

(** [int(d.Seconds())]: [Seconds] is the [float64]
    [d/Second + (d%Second)/1e9] and the conversion truncates towards
    zero, which gives the whole seconds of [d] (durations of more than
    2^22 seconds, where [float64] rounding may reach the next second,
    set aside). *)
Definition Seconds_int (d : Z) : Z := Z.quot d Second.

End time.

(** ** [golang.org/x/oauth2] *)

Module oauth2.

Record Endpoint := mkEndpoint {
  AuthURL : string;
  TokenURL : string
}.

Definition Endpoint_zero : Endpoint := mkEndpoint "" "".

Record Config := mkConfig {
  ClientID : string;
  ClientSecret : string;
  Endpoint_ : Endpoint;
  RedirectURL : string;
  Scopes : list string
}.

Record Token := mkToken {
  AccessToken : string;
  Expiry : Z
}.

End oauth2.

(** ** Package [auth]: types *)

(** [pkg/auth/auth.go], the constants. *)
Definition CSRFCookieName : string := "csrf-token".
Definition CSRFHeader : string := "X-CSRFToken".
Definition stateCookieName : string := "login-state".
Definition errorOAuth : string := "oauth_error".
Definition errorLoginState : string := "login_state_error".
Definition errorCookie : string := "cookie_error".
Definition errorInternal : string := "internal_error".
Definition errorMissingCode : string := "missing_code".
Definition errorMissingState : string := "missing_state".
Definition errorInvalidCode : string := "invalid_code".
Definition errorInvalidState : string := "invalid_state".

(** The errors the package creates ([fmt.Errorf]) or passes on.
    [ErrExternal] stands for an error handed back by a call that leaves
    the package (HTTP round trip, token exchange, OIDC provider). *)
Inductive error :=
| ErrLoadIssuerCA (issuerCA : string)
| ErrNoCAData (issuerCA : string)
| ErrParse (e : url.error)
| ErrNoOriginOrReferer
| ErrInvalidOrigin (source : string) (expected : url.URL)
| ErrExternal (msg : string)
| ErrDiscoveryStatus (wellKnownURL status : string)
| ErrDiscoveryDecode (wellKnownURL : string)
| ErrNotAbsolute (u : url.URL)
| ErrIssuerRequest (tokenURL msg : string)
| ErrNoAccessToken (t : oauth2.Token)
| ErrNoCookie
| ErrUnauthenticated (cookieName : string).

Record SpecialAuthURLs := mkSpecialAuthURLs {
  RequestToken : string;
  KubeAdminLogout : string
}.

(** [AuthSource] is an [int]. *)
Definition AuthSourceTectonic : Z := 0.
Definition AuthSourceOpenShift : Z := 1.

Record Config := mkConfig {
  AuthSource : Z;
  IssuerURL : string;
  IssuerCA : string;
  RedirectURL : string;
  ClientID : string;
  ClientSecret : string;
  Scope : list string;
  K8sCA : string;
  SuccessURL : string;
  ErrorURL : string;
  RefererPath : string;
  CookiePath : string;
  SecureCookies : bool;
  ClusterName : string;
  CookieDomain : string
}.

(** The assignment [c.CookiePath = v] through the [*Config] pointer. *)
Definition Config_set_CookiePath (c : Config) (v : string) : Config :=
  mkConfig (AuthSource c) (IssuerURL c) (IssuerCA c) (RedirectURL c)
           (ClientID c) (ClientSecret c) (Scope c) (K8sCA c) (SuccessURL c)
           (ErrorURL c) (RefererPath c) v (SecureCookies c) (ClusterName c)
           (CookieDomain c).

Record User := mkUser {
  ID : string;
  Username : string;
  Token : string
}.

(** Modelled from the spec: the [loginState] struct, declared in a file
    of the package that is not part of the sources.  It holds the raw
    bearer token and the identity claims (name, email) that only the
    OIDC variant derives. *)
Record loginState := mkLoginState {
  ls_name : string;
  ls_email : string;
  rawToken : string
}.

(** [pkg/auth/auth_openshift.go] *)
Record openShiftAuth := mkOpenShiftAuth {
  o_cookiePath : string;
  o_secureCookies : bool;
  o_specialURLs : SpecialAuthURLs;
  o_clusterName : string;
  o_cookieDomain : string
}.

(** A [*http.Client]: the shared [http.DefaultClient] or a client the
    package allocated, named by its address. *)
Inductive clientRef :=
| DefaultClient
| ClientAt (addr : nat).

Record openShiftConfig := mkOpenShiftConfig {
  k8sClient : clientRef;
  oauthClient : clientRef;
  oc_issuerURL : string;
  oc_cookiePath : string;
  oc_secureCookies : bool;
  oc_clusterName : string;
  oc_cookieDomain : string
}.

Record oidcConfig := mkOidcConfig {
  od_client : clientRef;
  od_issuerURL : string;
  od_clientID : string;
  od_cookiePath : string;
  od_secureCookies : bool;
  od_cookieDomain : string
}.

(** The anonymous struct the discovery document is decoded into. *)
Record metadata := mkMetadata {
  Issuer : string;
  Auth : string;
  Token_ : string
}.

(** [x509.CertPool]: whether it started from the system roots, and the
    PEM blocks appended to it. *)
Record CertPool := mkCertPool {
  systemRoots : bool;
  appended : list string
}.

(** The [http.Client] values [newHTTPClient] builds: the transport's
    root CAs and the timeout. *)
Record Client := mkClient {
  RootCAs : CertPool;
  Timeout : Z
}.

(** An [http.Response]: the status, and the body as [json.Decoder]
    decodes it into the metadata struct ([None] when decoding fails). *)
Record Response := mkResponse {
  StatusCode : Z;
  Status : string;
  Body : option metadata
}.

(** The state of the process: the two package-level [sync.Map]s, the
    [http.Client]s and the [oauth2.Config]s allocated so far (an address
    is an index into the list). *)
Record Proc := mkProc {
  httpClientCache : gmap string nat;
  httpClientCacheSystemRoots : gmap string nat;
  clients : list Client;
  oauth2Configs : list oauth2.Config
}.

Definition Proc_init : Proc := mkProc ∅ ∅ [] [].

(** What the package uses from outside itself and does not depend on the
    state of the world. *)
Class Externals := {
  (** [url.Parse] *)
  url_Parse : string -> url.URL + url.error;
  (** the [Location] value [http.Redirect] computes for a target, which
      is the target made absolute against the request path *)
  redirectTarget : http.Request -> string -> string;
  (** [x509.CertPool.AppendCertsFromPEM]: whether the data holds at least
      one certificate *)
  AppendCertsFromPEM : string -> bool;
  (** [GetCookieName], declared in a file that is not part of the
      sources: the session cookie's name for a cluster *)
  GetCookieName : string -> string;
  (** [serverutils.GetCluster] *)
  GetCluster : http.Request -> string;
  (** [proxy.SingleJoiningSlash] *)
  SingleJoiningSlash : string -> string -> string;
  (** the OIDC login method ([*oidcAuth]) and the JSON handed to the
      callback's continuation *)
  oidcAuth : Type;
  LoginJSON : Type;
  toLoginJSON : loginState -> LoginJSON
}.

Section Auth.

Context {ext : Externals}.

(** The login method: the interface [loginMethod] has the two
    implementations [*openShiftAuth] and [*oidcAuth]. *)
Inductive loginMethod :=
| LMOpenShift (o : openShiftAuth)
| LMOIDC (o : oidcAuth).

(** The state of the world at the time of a call: the file system, the
    system trust store, the network, the clock, and the OIDC provider
    behind [auth_oidc.go] (a file that is not part of the sources). *)
Record World := mkWorld {
  (** [ioutil.ReadFile]; [None] is an error *)
  ReadFile : string -> option string;
  (** whether [x509.SystemCertPool] succeeds *)
  SystemCertPool : bool;
  (** [client.Do] of a request with this method and URL *)
  Do : clientRef -> string -> string -> Response + string;
  (** [oauthConfig.Exchange(ctx, code)], [ctx] carrying the client *)
  Exchange : oauth2.Config -> clientRef -> string -> oauth2.Token + string;
  (** [time.Now()] *)
  Now : Z;
  (** [newOIDCAuth], and the methods of [*oidcAuth] *)
  newOIDCAuth : oidcConfig -> (oauth2.Endpoint * oidcAuth) + string;
  oidc_login : oidcAuth -> http.ResponseWriter -> oauth2.Token
               -> http.ResponseWriter * (loginState + error);
  oidc_logout : oidcAuth -> http.ResponseWriter -> http.Request
                -> http.ResponseWriter;
  oidc_getSpecialURLs : oidcAuth -> SpecialAuthURLs;
  oidc_authenticate : oidcAuth -> http.Request -> User + error
}.

(** *** [newHTTPClient] *)

Definition Proc_alloc_client (p : Proc) (cl : Client) : nat * Proc :=
  (length (clients p),
   mkProc (httpClientCache p) (httpClientCacheSystemRoots p)
          (clients p ++ [cl]) (oauth2Configs p)).

Definition Proc_alloc_oauth2Config (p : Proc) (cfg : oauth2.Config)
  : nat * Proc :=
  (length (oauth2Configs p),
   mkProc (httpClientCache p) (httpClientCacheSystemRoots p)
          (clients p) (oauth2Configs p ++ [cfg])).

(** [httpClientCache.Store] and [httpClientCacheSystemRoots.Store] *)
Definition Store_httpClientCache (p : Proc) (caKey : string) (a : nat)
  : Proc :=
  mkProc (<[caKey := a]> (httpClientCache p)) (httpClientCacheSystemRoots p)
         (clients p) (oauth2Configs p).

Definition Store_httpClientCacheSystemRoots (p : Proc) (caKey : string)
  (a : nat) : Proc :=
  mkProc (httpClientCache p) (<[caKey := a]> (httpClientCacheSystemRoots p))
         (clients p) (oauth2Configs p).

Definition NewCertPool : CertPool := mkCertPool false [].

Definition newHTTPClient (w : World) (issuerCA : string)
  (includeSystemRoots : bool) (p : Proc) : (clientRef + error) * Proc :=
  if String.eqb issuerCA "" then (inl DefaultClient, p)
  else
    match ReadFile w issuerCA with
    | None => (inr (ErrLoadIssuerCA issuerCA), p)
    | Some data =>
        let caKey := data in
        let lookup :=
          if includeSystemRoots
          then
            match httpClientCacheSystemRoots p !! caKey with
            | Some httpClient => inl httpClient
            | None =>
                inr (if SystemCertPool w then mkCertPool true []
                     else NewCertPool)
            end
          else
            match httpClientCache p !! caKey with
            | Some httpClient => inl httpClient
            | None => inr NewCertPool
            end in
        match lookup with
        | inl httpClient => (inl (ClientAt httpClient), p)
        | inr certPool =>
            if negb (AppendCertsFromPEM data)
            then (inr (ErrNoCAData issuerCA), p)
            else
              let '(httpClient, p1) :=
                Proc_alloc_client p
                  (mkClient (mkCertPool (systemRoots certPool)
                                        (appended certPool ++ [data]))
                            (time.Second * 5)) in
              let p2 :=
                if includeSystemRoots
                then Store_httpClientCacheSystemRoots p1 caKey httpClient
                else Store_httpClientCache p1 caKey httpClient in
              (inl (ClientAt httpClient), p2)
        end
    end.

(** *** The OpenShift login method ([auth_openshift.go]) *)

Definition validateAbsURL (value : string) : option error :=
  match url_Parse value with
  | inr err => Some (ErrParse err)
  | inl ur =>
      if String.eqb (url.String ur) "" || String.eqb (url.Scheme ur) ""
         || String.eqb (url.Host ur) ""
      then Some (ErrNotAbsolute ur)
      else None
  end.

(** [http.NewRequest(method, url, nil)] fails when the URL does not
    parse. *)
Definition NewRequest (method target : string) : option error :=
  match url_Parse target with
  | inr err => Some (ErrParse err)
  | inl _ => None
  end.

Definition wellKnownURL (issuerURL : string) : string :=
  GoStrings.TrimSuffix issuerURL "/"
    +:+ "/.well-known/oauth-authorization-server".

Definition newOpenShiftAuth (w : World) (c : openShiftConfig)
  : (oauth2.Endpoint * openShiftAuth) + error :=
  let wellKnownURL := wellKnownURL (oc_issuerURL c) in
  match NewRequest "GET" wellKnownURL with
  | Some err => inr err
  | None =>
  match Do w (k8sClient c) "GET" wellKnownURL with
  | inr err => inr (ErrExternal err)
  | inl resp =>
  if negb (Z.quot (StatusCode resp) 100 =? 2)
  then inr (ErrDiscoveryStatus wellKnownURL (Status resp))
  else
  match Body resp with
  | None => inr (ErrDiscoveryDecode wellKnownURL)
  | Some metadata =>
  match validateAbsURL (Issuer metadata) with
  | Some err => inr err
  | None =>
  match validateAbsURL (Auth metadata) with
  | Some err => inr err
  | None =>
  match validateAbsURL (Token_ metadata) with
  | Some err => inr err
  | None =>
  match NewRequest "HEAD" (Issuer metadata) with
  | Some err => inr err
  | None =>
  match Do w (oauthClient c) "HEAD" (Issuer metadata) with
  | inr err => inr (ErrIssuerRequest (Token_ metadata) err)
  | inl _ =>
      let requestTokenURL := SingleJoiningSlash (Token_ metadata) "/request" in
      let kubeAdminLogoutURL := SingleJoiningSlash (Issuer metadata) "/logout" in
      inl (oauth2.mkEndpoint (Auth metadata) (Token_ metadata),
           mkOpenShiftAuth (oc_cookiePath c) (oc_secureCookies c)
             (mkSpecialAuthURLs requestTokenURL kubeAdminLogoutURL)
             (oc_clusterName c) (oc_cookieDomain c))
  end end end end end end end end.

(** [(o *openShiftAuth) login] *)
Definition openShiftAuth_login (w : World) (o : openShiftAuth)
  (rw : http.ResponseWriter) (token : oauth2.Token)
  : http.ResponseWriter * (loginState + error) :=
  if String.eqb (oauth2.AccessToken token) ""
  then (rw, inr (ErrNoAccessToken token))
  else
    let ls := mkLoginState "" "" (oauth2.AccessToken token) in
    let expiresIn :=
      if negb (time.IsZero (oauth2.Expiry token))
      then time.Seconds_int (time.Sub (oauth2.Expiry token) (Now w))
      else time.Seconds_int (time.Hour * 24) in
    let cookie :=
      http.mkCookie (GetCookieName (o_clusterName o)) (rawToken ls)
                    (o_cookiePath o) "" expiresIn (o_secureCookies o) true
                    http.SameSiteLaxMode in
    let cookie :=
      if negb (String.eqb (o_cookieDomain o) "")
      then http.Cookie_with_Domain cookie (o_cookieDomain o)
      else cookie in
    (http.SetCookie rw cookie, inl ls).

(** [(o *openShiftAuth) logout] *)
Definition openShiftAuth_logout (o : openShiftAuth)
  (rw : http.ResponseWriter) (r : http.Request) : http.ResponseWriter :=
  let cookie :=
    http.mkCookie (GetCookieName (o_clusterName o)) "" (o_cookiePath o) ""
                  0 (o_secureCookies o) true http.SameSiteUnset in
  let cookie :=
    if negb (String.eqb (o_cookieDomain o) "")
    then http.Cookie_with_Domain cookie (o_cookieDomain o)
    else cookie in
  http.WriteHeader (http.SetCookie rw cookie) http.StatusNoContent.

Definition getOpenShiftUser (r : http.Request) : User + error :=
  let cluster := GetCluster r in
  let cookieName := GetCookieName cluster in
  match http.Request_Cookie r cookieName with
  | None => inr ErrNoCookie
  | Some value =>
      if String.eqb value "" then inr (ErrUnauthenticated cookieName)
      else inl (mkUser "" "" value)
  end.

(** *** The interface [loginMethod] *)

Definition login (w : World) (lm : loginMethod) (rw : http.ResponseWriter)
  (token : oauth2.Token) : http.ResponseWriter * (loginState + error) :=
  match lm with
  | LMOpenShift o => openShiftAuth_login w o rw token
  | LMOIDC o => oidc_login w o rw token
  end.

Definition logout (w : World) (lm : loginMethod) (rw : http.ResponseWriter)
  (r : http.Request) : http.ResponseWriter :=
  match lm with
  | LMOpenShift o => openShiftAuth_logout o rw r
  | LMOIDC o => oidc_logout w o rw r
  end.

Definition getSpecialURLs (w : World) (lm : loginMethod) : SpecialAuthURLs :=
  match lm with
  | LMOpenShift o => o_specialURLs o
  | LMOIDC o => oidc_getSpecialURLs w o
  end.

(** *** [Authenticator] ([auth.go])

    The three function fields are closures over the [*Config] and over
    values captured at construction.  They are run in the world of the
    call, on the current content of the [Config] and on the process
    state.  [authFunc] and [userFunc] are [nil] ([None]) until
    [NewAuthenticator] sets them; [authFunc] yields the address of the
    [oauth2.Config] it allocated. *)
Record Authenticator := mkAuthenticator {
  authFunc : option (World -> Config -> Proc -> (nat * loginMethod) * Proc);
  clientFunc : World -> Config -> Proc -> clientRef * Proc;
  userFunc : option (World -> http.Request -> User + error);
  errorURL : string;
  successURL : string;
  cookiePath : string;
  refererURL : url.URL;
  secureCookies : bool;
  cookieDomain : string
}.

Definition newUnstartedAuthenticator (w : World) (c : Config) (p : Proc)
  : (Authenticator + error) * Config * Proc :=
  match newHTTPClient w (IssuerCA c) true p with
  | (inr err, p1) => (inr err, c, p1)
  | (inl fallbackClient, p1) =>
      let clientFunc := fun (w : World) (c : Config) (p : Proc) =>
        match newHTTPClient w (IssuerCA c) true p with
        | (inr err, p') => (fallbackClient, p')
        | (inl currentClient, p') => (currentClient, p')
        end in
      let errURL := if negb (String.eqb (ErrorURL c) "")
                    then ErrorURL c else "/" in
      let sucURL := if negb (String.eqb (SuccessURL c) "")
                    then SuccessURL c else "/" in
      let c := if String.eqb (CookiePath c) ""
               then Config_set_CookiePath c "/" else c in
      match url_Parse (RefererPath c) with
      | inr err => (inr (ErrParse err), c, p1)
      | inl refUrl =>
          (inl (mkAuthenticator None clientFunc None errURL sucURL
                  (CookiePath c) refUrl (SecureCookies c) (CookieDomain c)),
           c, p1)
      end
  end.

Definition backoff : Z := time.Second * 10.
Definition maxSteps : Z := 30.

(** The two ways [NewAuthenticator] builds [authSourceFunc]. *)
Definition authSourceFunc_OpenShift (a : Authenticator)
  : World -> Config -> Proc
    -> ((oauth2.Endpoint * loginMethod) + error) * Proc :=
  fun w c p =>
    match newHTTPClient w (K8sCA c) true p with
    | (inr errK8Client, p1) => (inr errK8Client, p1)
    | (inl k8sClient, p1) =>
        let '(oauthClient, p2) := clientFunc a w c p1 in
        match newOpenShiftAuth w
                (mkOpenShiftConfig k8sClient oauthClient (IssuerURL c)
                   (CookiePath c) (SecureCookies c) (ClusterName c)
                   (CookieDomain c)) with
        | inr err => (inr err, p2)
        | inl (endpoint, o) => (inl (endpoint, LMOpenShift o), p2)
        end
    end.

Definition authSourceFunc_OIDC
  (captured : (oauth2.Endpoint * oidcAuth) + string)
  : World -> Config -> Proc
    -> ((oauth2.Endpoint * loginMethod) + error) * Proc :=
  fun _ _ p =>
    match captured with
    | inr err => (inr (ErrExternal err), p)
    | inl (endpoint, oidcAuthSource) =>
        (inl (endpoint, LMOIDC oidcAuthSource), p)
    end.

(** The closure [NewAuthenticator] assigns to [a.authFunc]. *)
Definition mk_authFunc
  (authSourceFunc : World -> Config -> Proc
                    -> ((oauth2.Endpoint * loginMethod) + error) * Proc)
  (fallbackEndpoint : oauth2.Endpoint) (fallbackLoginMethod : loginMethod)
  : World -> Config -> Proc -> (nat * loginMethod) * Proc :=
  fun w c p =>
    let baseOAuth2Config :=
      oauth2.mkConfig (ClientID c) (ClientSecret c) fallbackEndpoint
                      (RedirectURL c) (Scope c) in
    match authSourceFunc w c p with
    | (inr errAuthSource, p1) =>
        let '(addr, p2) := Proc_alloc_oauth2Config p1 baseOAuth2Config in
        ((addr, fallbackLoginMethod), p2)
    | (inl (currentEndpoint, currentLoginMethod), p1) =>
        let '(addr, p2) :=
          Proc_alloc_oauth2Config p1
            (oauth2.mkConfig (ClientID c) (ClientSecret c) currentEndpoint
                             (RedirectURL c) (Scope c)) in
        ((addr, currentLoginMethod), p2)
    end.

Definition with_userFunc (a : Authenticator)
  (f : World -> http.Request -> User + error) : Authenticator :=
  mkAuthenticator (authFunc a) (clientFunc a) (Some f) (errorURL a)
    (successURL a) (cookiePath a) (refererURL a) (secureCookies a)
    (cookieDomain a).

Definition with_authFunc (a : Authenticator)
  (f : World -> Config -> Proc -> (nat * loginMethod) * Proc)
  : Authenticator :=
  mkAuthenticator (Some f) (clientFunc a) (userFunc a) (errorURL a)
    (successURL a) (cookiePath a) (refererURL a) (secureCookies a)
    (cookieDomain a).

(** What a run of [NewAuthenticator] leaves behind: its result, the
    [Config] behind the pointer, the process state, the durations it
    slept, the errors [authSourceFunc] returned (in order), and how many
    times it ran [authSourceFunc]. *)
Record Constructed := mkConstructed {
  result : Authenticator + error;
  config : Config;
  proc : Proc;
  slept : list Z;
  failures : list error;
  attempts : nat
}.

(** One pass of the [for] loop from the [switch] to the first call of
    [authSourceFunc]: the authenticator with its [userFunc] set, the
    closure [authSourceFunc], and what its first call returned. *)
Record Discovery := mkDiscovery {
  d_authenticator : Authenticator;
  d_authSourceFunc : World -> Config -> Proc
                     -> ((oauth2.Endpoint * loginMethod) + error) * Proc;
  d_result : (oauth2.Endpoint * loginMethod) + error
}.

Definition discover (w : World) (c : Config) (a : Authenticator) (p : Proc)
  : Discovery * Proc :=
  let '(a, authSourceFunc, p2) :=
    if AuthSource c =? AuthSourceOpenShift
    then (with_userFunc a (fun _ r => getOpenShiftUser r),
          authSourceFunc_OpenShift a, p)
    else
      let '(client, p2) := clientFunc a w c p in
      let captured :=
        newOIDCAuth w
          (mkOidcConfig client (IssuerURL c) (ClientID c) (CookiePath c)
                        (SecureCookies c) (CookieDomain c)) in
      (with_userFunc a
         (fun w' r =>
            match captured with
            | inl (_, oidcAuthSource) => oidc_authenticate w' oidcAuthSource r
            | inr _ => inr (ErrExternal "OIDC auth source is not intialized")
            end),
       authSourceFunc_OIDC captured, p2) in
  let '(res, p3) := authSourceFunc w c p2 in
  (mkDiscovery a authSourceFunc res, p3).

(** [NewAuthenticator]: the [for] loop.  [worlds n] is the world during
    iteration [n]; [fuel] bounds the iterations and [None] means that
    the fuel ran out. *)
Fixpoint NewAuthenticator_loop (fuel : nat) (worlds : nat -> World)
  (n : nat) (steps : Z) (c : Config) (p : Proc) (slept : list Z)
  (failures : list error) : option Constructed :=
  match fuel with
  | O => None
  | S fuel' =>
      let w := worlds n in
      match newUnstartedAuthenticator w c p with
      | (inr err, c1, p1) =>
          Some (mkConstructed (inr err) c1 p1 slept failures n)
      | (inl a, c1, p1) =>
          let '(d, p3) := discover w c1 a p1 in
          match d_result d with
          | inr err =>
              let steps := steps + 1 in
              if steps >? maxSteps
              then Some (mkConstructed (inr err) c1 p3 slept
                                       (failures ++ [err]) (S n))
              else NewAuthenticator_loop fuel' worlds (S n) steps c1 p3
                     (slept ++ [backoff]) (failures ++ [err])
          | inl (fallbackEndpoint, fallbackLoginMethod) =>
              Some (mkConstructed
                      (inl (with_authFunc (d_authenticator d)
                              (mk_authFunc (d_authSourceFunc d)
                                           fallbackEndpoint
                                           fallbackLoginMethod)))
                      c1 p3 slept failures (S n))
          end
      end
  end.

(** [NewAuthenticator(ctx, c)], run from an empty step count. *)
Definition NewAuthenticator (fuel : nat) (worlds : nat -> World)
  (c : Config) (p : Proc) : option Constructed :=
  NewAuthenticator_loop fuel worlds 0 0 c p [] [].

(** *** The request handlers *)

Definition Authenticate (a : Authenticator) (w : World) (r : http.Request)
  : option (User + error) :=
  match userFunc a with
  | None => None
  | Some userFunc => Some (userFunc w r)
  end.

(** [http.Redirect(w, r, url, code)]: the [Location] header, the
    [Content-Type] header for a GET or HEAD request that has none yet,
    the status. *)
Definition http_Redirect (rw : http.ResponseWriter) (r : http.Request)
  (target : string) (code : Z) : http.ResponseWriter :=
  let hadCT := match http.rwHeader rw !! "Content-Type" with
               | Some _ => true
               | None => false
               end in
  let rw := http.SetHeader rw "Location" (redirectTarget r target) in
  let rw :=
    if negb hadCT
       && (String.eqb (http.Method r) "GET"
           || String.eqb (http.Method r) "HEAD")
    then http.SetHeader rw "Content-Type" "text/html; charset=utf-8"
    else rw in
  http.WriteHeader rw code.

Definition redirectAuthError (a : Authenticator) (rw : http.ResponseWriter)
  (authErr : string) : http.ResponseWriter :=
  let u := match url_Parse (errorURL a) with
           | inr err => url.of_Path (errorURL a)
           | inl up => up
           end in
  let q : gmap string (list string) := ∅ in
  let q := http.Header_Set q "error" authErr in
  let q := http.Header_Set q "error_type" "auth" in
  let u := url.with_RawQuery u (http.Values_Encode q) in
  let rw := http.SetHeader rw "Location" (url.String u) in
  http.WriteHeader rw http.StatusSeeOther.

(** The calls a handler makes beyond the response writer, in order. *)
Inductive call :=
| CallExchange (oauthConfig : oauth2.Config) (client : clientRef)
               (code : string)
| CallLogin (lm : loginMethod) (token : oauth2.Token)
| CallContinuation (loginInfo : LoginJSON) (successURL : string).

(** [CallbackFunc(fn)] applied to a response writer and a request.
    [None] is the panic of calling the [nil] [authFunc] or of
    dereferencing an address that was never allocated. *)
Definition CallbackFunc (a : Authenticator)
  (fn : LoginJSON -> string -> http.ResponseWriter -> http.ResponseWriter)
  (w : World) (c : Config) (rw : http.ResponseWriter) (r : http.Request)
  (p : Proc) : option (http.ResponseWriter * Proc * list call) :=
  let q := http.URL_Query (http.URL r) in
  let qErr := http.Header_Get q "error" in
  let code := http.Header_Get q "code" in
  let urlState := http.Header_Get q "state" in
  match http.Request_Cookie r stateCookieName with
  | None => Some (redirectAuthError a rw errorMissingState, p, [])
  | Some cookieState =>
      if String.eqb qErr "" && String.eqb code ""
      then Some (http_Redirect rw r (errorURL a) http.StatusSeeOther, p, [])
      else if String.eqb code ""
      then Some (redirectAuthError a rw errorMissingCode, p, [])
      else if negb (String.eqb urlState cookieState)
      then Some (redirectAuthError a rw errorInvalidState, p, [])
      else
        let '(client, p1) := clientFunc a w c p in
        match authFunc a with
        | None => None
        | Some authFunc =>
            let '((addr, lm), p2) := authFunc w c p1 in
            match oauth2Configs p2 !! addr with
            | None => None
            | Some oauthConfig =>
                match Exchange w oauthConfig client code with
                | inr err =>
                    Some (redirectAuthError a rw errorInvalidCode, p2,
                          [CallExchange oauthConfig client code])
                | inl token =>
                    match login w lm rw token with
                    | (rw1, inr err) =>
                        Some (redirectAuthError a rw1 errorInternal, p2,
                              [CallExchange oauthConfig client code;
                               CallLogin lm token])
                    | (rw1, inl ls) =>
                        Some (fn (toLoginJSON ls) (successURL a) rw1, p2,
                              [CallExchange oauthConfig client code;
                               CallLogin lm token;
                               CallContinuation (toLoginJSON ls)
                                                (successURL a)])
                    end
                end
            end
        end
  end.

(** [LogoutFunc]: [a.getLoginMethod().logout(w, r)]. *)
Definition LogoutFunc (a : Authenticator) (w : World) (c : Config)
  (rw : http.ResponseWriter) (r : http.Request) (p : Proc)
  : option (http.ResponseWriter * Proc) :=
  match authFunc a with
  | None => None
  | Some authFunc =>
      let '((_, lm), p1) := authFunc w c p in
      Some (logout w lm rw r, p1)
  end.

Definition getSourceOrigin (a : Authenticator) (r : http.Request) : string :=
  let origin := http.Header_Get (http.Header r) "Origin" in
  if negb (String.length origin =? 0)%nat then origin
  else http.Referer r.

Definition VerifySourceOrigin (a : Authenticator) (r : http.Request)
  : option error :=
  let source := getSourceOrigin a r in
  if (String.length source =? 0)%nat then Some ErrNoOriginOrReferer
  else
    match url_Parse source with
    | inr err => Some (ErrParse err)
    | inl u =>
        let isValid :=
          String.eqb (url.Hostname (refererURL a)) (url.Hostname u)
          && String.eqb (url.Port (refererURL a)) (url.Port u)
          && String.eqb (url.Scheme (refererURL a)) (url.Scheme u)
          && (String.eqb (url.Path u) ""
              || GoStrings.HasPrefix (url.Path u) (url.Path (refererURL a))) in
        if negb isValid
        then Some (ErrInvalidOrigin source (refererURL a))
        else None
    end.

Definition GetCookiePath (a : Authenticator) : string := cookiePath a.

End Auth.

(** ** A user agent's cookie store

    The cookies a client keeps between requests (RFC 6265, 5.3): a cookie
    is identified by its name, domain and path; a [Set-Cookie] line whose
    [Max-Age] attribute is zero removes the stored cookie, any other line
    replaces it. *)

Module Jar.

Definition same (a b : http.Cookie) : bool :=
  String.eqb (http.Name a) (http.Name b)
  && String.eqb (http.Domain a) (http.Domain b)
  && String.eqb (http.Path a) (http.Path b).

Definition set (jar : list http.Cookie) (c : http.Cookie)
  : list http.Cookie :=
  let others := List.filter (fun x => negb (same x c)) jar in
  match http.MaxAge_attribute c with
  | Some 0 => others
  | _ => (others ++ [c])%list
  end.

(** The store after a response. *)
Definition receive (jar : list http.Cookie) (rw : http.ResponseWriter)
  : list http.Cookie :=
  fold_left set (http.rwSetCookie rw) jar.

(** The [Cookie] header a request may carry: name and value of stored
    cookies. *)
Definition pairs (jar : list http.Cookie) : list (string * string) :=
  map (fun c => (http.Name c, http.Value c)) jar.

End Jar.

(** ** A concrete environment, to run the package on examples *)

(** Modelled from the spec: [proxy.SingleJoiningSlash], declared in a
    package that is not part of the sources; it joins two URL parts with
    exactly one slash between them. *)
Definition SingleJoiningSlash_model (a b : string) : string :=
  let aslash := GoStrings.HasSuffix a "/" in
  let bslash := GoStrings.HasPrefix b "/" in
  if aslash && bslash then a +:+ substring 1 (String.length b - 1) b
  else if negb aslash && negb bslash then a +:+ "/" +:+ b
  else a +:+ b.

(** Modelled from the spec: [GetCookieName], declared in a file that is
    not part of the sources; the local cluster uses a fixed base name,
    other clusters append their name to it. *)
Definition GetCookieName_model (clusterName : string) : string :=
  if String.eqb clusterName "local-cluster" then "openshift-session-token"
  else "openshift-session-token-" +:+ clusterName.

(** Modelled from the spec: [serverutils.GetCluster], declared in a
    package that is not part of the sources; the cluster name is taken
    from a request header, the local cluster being the default. *)
Definition GetCluster_model (r : http.Request) : string :=
  let cluster := http.Header_Get (http.Header r) "X-Cluster" in
  if String.eqb cluster "" then "local-cluster" else cluster.

(** [url.Parse] as modelled above; [http.Redirect] keeps a target that is
    an absolute URL or a clean absolute path as it is; PEM data counts as
    holding a certificate when it has a certificate block header. *)
Definition ExampleExternals : Externals := {|
  url_Parse := url.Parse;
  redirectTarget := fun _ target => target;
  AppendCertsFromPEM := fun data =>
    match GoStrings.Index (url.unstr data)
            (url.unstr "-----BEGIN CERTIFICATE-----") with
    | Some _ => true
    | None => false
    end;
  GetCookieName := GetCookieName_model;
  GetCluster := GetCluster_model;
  SingleJoiningSlash := SingleJoiningSlash_model;
  oidcAuth := unit;
  LoginJSON := loginState;
  toLoginJSON := fun ls => ls
|}.

(** ** Vocabulary of the statements *)

(** The origin a URL names agrees with the configured one. *)
Definition sameOrigin (ref u : url.URL) : Prop :=
  url.Hostname ref = url.Hostname u
  /\ url.Port ref = url.Port u
  /\ url.Scheme ref = url.Scheme u.

(** One of the two [sync.Map]s, by the [includeSystemRoots] flag. *)
Definition cache_of (includeSystemRoots : bool) (p : Proc) : gmap string nat :=
  if includeSystemRoots then httpClientCacheSystemRoots p
  else httpClientCache p.

(** A call of [newHTTPClient]: the world it runs in and its arguments. *)
Record ClientCall {ext : Externals} := mkClientCall {
  cc_world : World;
  cc_issuerCA : string;
  cc_includeSystemRoots : bool
}.

(** Calls of [newHTTPClient] one after the other: what each returned, and
    the process state at the end. *)
Fixpoint run_newHTTPClient {ext : Externals} (calls : list ClientCall)
  (p : Proc) : list (ClientCall * (clientRef + error)) * Proc :=
  match calls with
  | [] => ([], p)
  | k :: calls' =>
      let '(r, p1) :=
        newHTTPClient (cc_world k) (cc_issuerCA k) (cc_includeSystemRoots k) p in
      let '(log, p2) := run_newHTTPClient calls' p1 in
      ((k, r) :: log, p2)
  end.

(** The client at an address was built for the CA data [data]: its
    trust store holds [data] (on top of the system roots or alone) and
    its timeout is five seconds. *)
Definition client_for {ext : Externals} (p : Proc) (a : nat) (data : string)
  : Prop :=
  exists cl, clients p !! a = Some cl
             /\ appended (RootCAs cl) = [data]
             /\ Timeout cl = time.Second * 5
             /\ AppendCertsFromPEM data = true.

(** Every cache entry names a client built for the entry's key. *)
Definition cache_sound {ext : Externals} (p : Proc) : Prop :=
  forall m k a, cache_of m p !! k = Some a -> client_for p a k.

(** A string parses as a URL that has a scheme and a host. *)
Definition absoluteURL {ext : Externals} (value : string) : Prop :=
  exists u, url_Parse value = inl u
            /\ url.Scheme u <> "" /\ url.Host u <> "".

(** The session cookie [login] sets for a token. *)
Definition sessionCookie {ext : Externals} (w : World) (o : openShiftAuth)
  (token : oauth2.Token) : http.Cookie :=
  http.mkCookie (GetCookieName (o_clusterName o)) (oauth2.AccessToken token)
    (o_cookiePath o) (o_cookieDomain o)
    (if time.IsZero (oauth2.Expiry token) then 86400
     else time.Seconds_int (time.Sub (oauth2.Expiry token) (Now w)))
    (o_secureCookies o) true http.SameSiteLaxMode.

(** The cookie [logout] sets. *)
Definition clearingCookie {ext : Externals} (o : openShiftAuth) : http.Cookie :=
  http.mkCookie (GetCookieName (o_clusterName o)) "" (o_cookiePath o)
    (o_cookieDomain o) 0 (o_secureCookies o) true http.SameSiteUnset.

(** The [Location] of the redirect for an error category: the error URL
    (as a path when it does not parse) with the query
    [error=<category>&error_type=auth]. *)
Definition errorLocation {ext : Externals} (a : Authenticator)
  (category : string) : string :=
  url.String
    (url.with_RawQuery
       (match url_Parse (errorURL a) with
        | inr _ => url.of_Path (errorURL a)
        | inl up => up
        end)
       ("error=" +:+ category +:+ "&error_type=auth")).

(** A response was turned into the redirect for an error category: the
    [Location] is set, the status is 303 unless a status had been written
    before, the cookies set so far are kept. *)
Definition redirectsWithError {ext : Externals} (a : Authenticator)
  (category : string) (before after : http.ResponseWriter) : Prop :=
  http.Header_Get (http.rwHeader after) "Location" = errorLocation a category
  /\ http.rwStatus after
     = Some (match http.rwStatus before with
             | None => http.StatusSeeOther
             | Some code => code
             end)
  /\ http.rwSetCookie after = http.rwSetCookie before.

(** The categories [CallbackFunc] reports. *)
Definition callbackCategories : list string :=
  [errorMissingState; errorMissingCode; errorInvalidState; errorInvalidCode;
   errorInternal].

(** No token exchange among the calls a handler made. *)
Definition noExchange {ext : Externals} (calls : list call) : Prop :=
  forall cfg client code, ~ In (CallExchange cfg client code) calls.

(** The [Config] once [newUnstartedAuthenticator] has been through it:
    an empty cookie path has become [/]. *)
Definition Config_started (c : Config) : Config :=
  if String.eqb (CookiePath c) "" then Config_set_CookiePath c "/" else c.

(** In a world, for a configuration: [newUnstartedAuthenticator]
    succeeds; discovery fails; discovery succeeds (whatever the state of
    the process). *)
Definition unstartedSucceeds {ext : Externals} (w : World) (c : Config)
  : Prop :=
  forall p, exists a p',
    newUnstartedAuthenticator w c p = (inl a, Config_started c, p').

Definition discoveryFails {ext : Externals} (w : World) (c : Config) : Prop :=
  forall a p, exists e, d_result (fst (discover w c a p)) = inr e.

Definition discoverySucceeds {ext : Externals} (w : World) (c : Config)
  : Prop :=
  forall a p, exists v, d_result (fst (discover w c a p)) = inl v.

(** The provider cannot be reached during the iterations before
    [upto]. *)
Definition unreachable {ext : Externals} (worlds : nat -> World) (c : Config)
  (upto : nat) : Prop :=
  forall n, (n < upto)%nat ->
            unstartedSucceeds (worlds n) c
            /\ unstartedSucceeds (worlds n) (Config_started c)
            /\ discoveryFails (worlds n) (Config_started c).

(** The sum of the durations slept. *)
Definition total (durations : list Z) : Z := fold_right Z.add 0 durations.

(** The last error of a log. *)
Definition lastError (log : list error) : option error := last log.

(** What the logs of a run say: every sleep lasts [backoff]; a run that
    returns an authenticator slept once for every failed discovery; a
    run that returns an error either gave up after [maxSteps + 1] failed
    discoveries and [maxSteps] sleeps, returning the last discovery
    error, or stopped in [newUnstartedAuthenticator]. *)
Definition well_logged {ext : Externals} (r : Constructed) : Prop :=
  slept r = repeat backoff (length (slept r))
  /\ (length (slept r) <= 30)%nat
  /\ (attempts r <= 31)%nat
  /\ total (slept r) <= 300 * time.Second
  /\ match result r with
     | inl _ =>
         attempts r = S (length (failures r))
         /\ length (slept r) = length (failures r)
     | inr e =>
         (attempts r = 31%nat /\ length (failures r) = 31%nat
          /\ length (slept r) = 30%nat /\ lastError (failures r) = Some e)
         \/ (attempts r = length (failures r)
             /\ length (slept r) = length (failures r))
     end.

(** The invariant of the loop at the head of iteration [n]: [steps] is
    [n], and there has been one sleep and one failed discovery per
    iteration. *)
Definition at_iteration (n : nat) (slept : list Z) (failures : list error)
  : Prop :=
  (n <= 30)%nat /\ slept = repeat backoff n /\ length failures = n.

Section Closures.

Context {ext : Externals}.

(** The [clientFunc] of an authenticator keeps the [oauth2.Config]s
    allocated so far. *)
Definition clientFunc_keeps (a : Authenticator) : Prop :=
  forall w c p, oauth2Configs (snd (clientFunc a w c p)) = oauth2Configs p.

(** The pair an authenticator falls back to, and the closure it
    re-discovers with: [authFunc] is [mk_authFunc] of them. *)
Definition built_with (a : Authenticator)
  (asf : World -> Config -> Proc
         -> ((oauth2.Endpoint * loginMethod) + error) * Proc)
  (E0 : oauth2.Endpoint) (L0 : loginMethod) : Prop :=
  authFunc a = Some (mk_authFunc asf E0 L0)
  /\ (forall w c p, oauth2Configs (snd (asf w c p)) = oauth2Configs p).

End Closures.

(** ** Example inputs *)

(** A world in which nothing outside the process answers. *)
Definition silent_world {ext : Externals} : World :=
  mkWorld (fun _ => None) true
          (fun _ _ _ => inr "connection refused")
          (fun _ _ _ => inr "connection refused")
          0
          (fun _ => inr "connection refused")
          (fun _ rw _ => (rw, inr (ErrExternal "no provider")))
          (fun _ rw _ => rw)
          (fun _ => mkSpecialAuthURLs "" "")
          (fun _ _ => inr (ErrExternal "no provider")).

(** The console's configuration for a base address, as [main] builds
    it: no issuer CA file, the base address as referer path. *)
Definition config_for (authSource : Z) (baseAddress cookiePath : string)
  : Config :=
  mkConfig authSource "https://oauth.example" ""
           (baseAddress +:+ "/auth/callback") "console" "secret"
           ["user:full"] "" (baseAddress +:+ "/") (baseAddress +:+ "/error")
           baseAddress cookiePath true "local-cluster" "".

(** The authenticator [newUnstartedAuthenticator] builds for a base
    address. *)
Definition authenticator_for (baseAddress : string) : option Authenticator :=
  match newUnstartedAuthenticator (ext := ExampleExternals) silent_world
          (config_for AuthSourceOpenShift baseAddress "/api/") Proc_init with
  | (inl a, _, _) => Some a
  | (inr _, _, _) => None
  end.

(** A request that carries one header. *)
Definition request_with_header (key value : string) : http.Request :=
  http.mkRequest "POST" (url.of_Path "/api/kubernetes/api/v1/pods")
                 {[ key := [value] ]} [].

(** A PEM text with one certificate block. *)
Definition example_pem : string :=
  "-----BEGIN CERTIFICATE-----" +:+ "MIIBszCCAVmgAwIBAgIU"
    +:+ "-----END CERTIFICATE-----".

(** The silent world with files in it. *)
Definition world_with_files (files : list (string * string)) : World :=
  mkWorld (ext := ExampleExternals)
          (fun path => http.lookupCookie files path) true
          (fun _ _ _ => inr "connection refused")
          (fun _ _ _ => inr "connection refused")
          0
          (fun _ => inr "connection refused")
          (fun _ rw _ => (rw, inr (ErrExternal "no provider")))
          (fun _ rw _ => rw)
          (fun _ => mkSpecialAuthURLs "" "")
          (fun _ _ => inr (ErrExternal "no provider")).

(** The discovery document of the OAuth server at [https://oauth.example]. *)
Definition example_metadata : metadata :=
  mkMetadata "https://oauth.example" "https://oauth.example/authorize"
             "https://oauth.example/token".

(** A world in which the API server serves a discovery document and the
    issuer answers. *)
Definition discovery_world (status : Z) (doc : option metadata) : World :=
  mkWorld (ext := ExampleExternals)
          (fun _ => None) true
          (fun _ method target =>
             if String.eqb method "GET"
             then inl (mkResponse status "" doc)
             else inl (mkResponse 200 "200 OK" None))
          (fun _ _ _ => inr "connection refused")
          0
          (fun _ => inr "connection refused")
          (fun _ rw _ => (rw, inr (ErrExternal "no provider")))
          (fun _ rw _ => rw)
          (fun _ => mkSpecialAuthURLs "" "")
          (fun _ _ => inr (ErrExternal "no provider")).

Definition example_openShiftConfig : openShiftConfig :=
  mkOpenShiftConfig DefaultClient DefaultClient "https://oauth.example"
                    "/api/" true "local-cluster" "".

Definition example_openShiftAuth : openShiftAuth :=
  mkOpenShiftAuth "/api/" true
    (mkSpecialAuthURLs "https://oauth.example/token/request"
                       "https://oauth.example/logout")
    "local-cluster" "".

(** The authenticator [NewAuthenticator] returns for the console at
    [https://console.example] when discovery works. *)
Definition constructed_example : option Constructed :=
  NewAuthenticator (ext := ExampleExternals) 31
    (fun _ => discovery_world 200 (Some example_metadata))
    (config_for AuthSourceOpenShift "https://console.example" "/api/")
    Proc_init.

Definition example_authenticator : option Authenticator :=
  match constructed_example with
  | Some r => match result r with
              | inl a => Some a
              | inr _ => None
              end
  | None => None
  end.

(** A request that carries cookies. *)
Definition request_with_cookies (cookies : list (string * string))
  : http.Request :=
  http.mkRequest "GET" (url.of_Path "/api/kubernetes/api/v1/pods") ∅ cookies.

(** A callback request: the query of its URL and the value of its state
    cookie, if it has one. *)
Definition callback_request (rawQuery : string) (state : option string)
  : http.Request :=
  http.mkRequest "GET"
    (url.with_RawQuery (url.of_Path "/auth/callback") rawQuery) ∅
    (match state with
     | Some v => [(stateCookieName, v)]
     | None => []
     end).

(** The console's configuration at [https://console.example]. *)
Definition example_config : Config :=
  config_for AuthSourceOpenShift "https://console.example" "/api/".

(** The provider answers from iteration [k] on. *)
Definition reachable_from (k : nat) (n : nat) : World :=
  if (n <? k)%nat then silent_world (ext := ExampleExternals)
  else discovery_world 200 (Some example_metadata).

(** The discovery document after the OAuth server has moved to
    [https://login.example]. *)
Definition moved_metadata : metadata :=
  mkMetadata "https://login.example" "https://login.example/authorize"
             "https://login.example/token".

(** The endpoint [authFunc] yields in a world, the special URLs of the
    login method it yields, and the process state it leaves. *)
Definition authFunc_yields (a : Authenticator)
  (w : @World ExampleExternals) (c : Config) (p : Proc)
  : option (oauth2.Endpoint * SpecialAuthURLs * Proc) :=
  match authFunc a with
  | None => None
  | Some f =>
      let '((addr, lm), p') := f w c p in
      match oauth2Configs p' !! addr with
      | Some cfg => Some (oauth2.Endpoint_ cfg, getSpecialURLs w lm, p')
      | None => None
      end
  end.

(** ** The rest of [auth.go]: login, CSRF protection, accessors *)

Module textproto.

Import GoStrings.

(** [validHeaderFieldByte]: the bytes of an HTTP token. *)
Definition validHeaderFieldByte (c : ascii) : bool :=
  isAlnum c || memb c "!#$%&'*+-.^_`|~".

(** The second loop of [canonicalMIMEHeaderKey]: upper case at the start
    and after a dash, lower case elsewhere. *)
Fixpoint canonicalize (upper : bool) (a : bytes) : bytes :=
  match a with
  | [] => []
  | c :: a' =>
      let c' := if upper && isLower c then ascii_of_N (code c - 32)
                else if negb upper && isUpper c then ascii_of_N (code c + 32)
                else c in
      c' :: canonicalize (Ascii.eqb c' "-") a'
  end.

(** [textproto.CanonicalMIMEHeaderKey]: a key that is not a token is
    returned as it is. *)
Definition CanonicalMIMEHeaderKey (s : string) : string :=
  if forallb validHeaderFieldByte (url.unstr s)
  then url.str (canonicalize true (url.unstr s))
  else s.

End textproto.

Module subtle.

Import GoStrings.

(** The loop [v |= x[i] ^ y[i]] of [subtle.ConstantTimeCompare]. *)
Fixpoint accumulate (v : N) (x y : bytes) : N :=
  match x, y with
  | a :: x', b :: y' => accumulate (N.lor v (N.lxor (code a) (code b))) x' y'
  | _, _ => v
  end.

(** [subtle.ConstantTimeCompare(x, y)]: 1 when the slices are equal, 0
    otherwise. *)
Definition ConstantTimeCompare (x y : bytes) : Z :=
  if negb (length x =? length y)%nat then 0
  else if (accumulate 0 x y =? 0)%N then 1 else 0.

End subtle.

Module hex.

Import GoStrings.

Definition hextable : bytes := url.unstr "0123456789abcdef".

Definition digit (n : N) : ascii := nth (N.to_nat n) hextable "0"%char.

(** [hex.EncodeToString(src)] *)
Definition EncodeToString (src : bytes) : string :=
  url.str (flat_map (fun b => [digit (code b / 16); digit (code b mod 16)]) src).

End hex.

(** The errors of [VerifyCSRFToken]. *)
Inductive csrfError :=
| ErrNoCSRFCookie
| ErrCSRFMismatch.

Section Handlers.

Context {ext : Externals}.

(** [r.Header.Get(key)]: the key is put in canonical form first. *)
Definition Request_Header_Get (r : http.Request) (key : string) : string :=
  http.Header_Get (http.Header r) (textproto.CanonicalMIMEHeaderKey key).

(** [LoginFunc].  [randData] is what [io.ReadFull(rand.Reader, ...)] put
    into the four bytes, [None] when it failed (the handler panics then,
    as it does on a [nil] [authFunc]); [AuthCodeURL] is the method of
    [oauth2.Config]. *)
Definition LoginFunc (AuthCodeURL : oauth2.Config -> string -> string)
  (a : Authenticator) (w : World) (c : Config) (rw : http.ResponseWriter)
  (r : http.Request) (p : Proc)
  (randData : option (ascii * ascii * ascii * ascii))
  : option (http.ResponseWriter * Proc) :=
  match randData with
  | None => None
  | Some (b0, b1, b2, b3) =>
      let state := hex.EncodeToString [b0; b1; b2; b3] in
      let cookie :=
        http.mkCookie stateCookieName state "/" "" 0 (secureCookies a) true
                      http.SameSiteUnset in
      let cookie :=
        if negb (String.eqb (cookieDomain a) "")
        then http.Cookie_with_Domain cookie (cookieDomain a)
        else cookie in
      let rw := http.SetCookie rw cookie in
      match authFunc a with
      | None => None
      | Some authFunc =>
          let '((addr, _), p1) := authFunc w c p in
          match oauth2Configs p1 !! addr with
          | None => None
          | Some oauthConfig =>
              Some (http_Redirect rw r (AuthCodeURL oauthConfig state)
                                  http.StatusSeeOther, p1)
          end
      end
  end.

(** [GetSpecialURLs]: [a.getLoginMethod().getSpecialURLs()]. *)
Definition GetSpecialURLs (a : Authenticator) (w : World) (c : Config)
  (p : Proc) : option (SpecialAuthURLs * Proc) :=
  match authFunc a with
  | None => None
  | Some authFunc =>
      let '((_, lm), p1) := authFunc w c p in
      Some (getSpecialURLs w lm, p1)
  end.

(** [SetCSRFCookie(path, w)]; [random] is what [randomString(64)]
    returned. *)
Definition SetCSRFCookie (a : Authenticator) (path : string)
  (rw : http.ResponseWriter) (random : string) : http.ResponseWriter :=
  let cookie :=
    http.mkCookie CSRFCookieName random path "" 0 (secureCookies a) false
                  http.SameSiteLaxMode in
  let cookie :=
    if negb (String.eqb (cookieDomain a) "")
    then http.Cookie_with_Domain cookie (cookieDomain a)
    else cookie in
  http.SetCookie rw cookie.

Definition VerifyCSRFToken (a : Authenticator) (r : http.Request)
  : option csrfError :=
  let CSRFToken := Request_Header_Get r CSRFHeader in
  match http.Request_Cookie r CSRFCookieName with
  | None => Some ErrNoCSRFCookie
  | Some CRSCookie =>
      let tokenBytes := url.unstr CSRFToken in
      let cookieBytes := url.unstr CRSCookie in
      if 1 =? subtle.ConstantTimeCompare tokenBytes cookieBytes then None
      else Some ErrCSRFMismatch
  end.

End Handlers.

(** ** Vocabulary of the further properties *)

(** Every cache entry names a client that exists; the clients of the
    CA-only map do not start from the system roots; no client is the
    value of two entries. *)
Definition cache_isolated (p : Proc) : Prop :=
  forall m k a,
    cache_of m p !! k = Some a ->
    (a < length (clients p))%nat
    /\ (m = false ->
        exists cl, clients p !! a = Some cl
                   /\ systemRoots (RootCAs cl) = false)
    /\ (forall m' k', cache_of m' p !! k' = Some a -> m' = m /\ k' = k).

(** The console's configuration with an issuer CA file. *)
Definition example_config_with_CA : Config :=
  mkConfig AuthSourceOpenShift "https://oauth.example" "/etc/issuer.crt"
           "https://console.example/auth/callback" "console" "secret"
           ["user:full"] "" "https://console.example/"
           "https://console.example/error" "https://console.example" "/api/"
           true "local-cluster" "".

(** The fields [newUnstartedAuthenticator] takes from a [Config]: the two
    redirect targets with their default, the cookie path after its
    default, the parsed referer, the cookie flags. *)
Definition configured {ext : Externals} (c : Config) (a : Authenticator)
  : Prop :=
  errorURL a = (if String.eqb (ErrorURL c) "" then "/" else ErrorURL c)
  /\ successURL a = (if String.eqb (SuccessURL c) "" then "/" else SuccessURL c)
  /\ cookiePath a = (if String.eqb (CookiePath c) "" then "/" else CookiePath c)
  /\ url_Parse (RefererPath c) = inl (refererURL a)
  /\ secureCookies a = SecureCookies c
  /\ cookieDomain a = CookieDomain c.


(** The cookie fields of the login method that discovery builds from a
    [Config]; the special URLs are left empty, no cookie depends on
    them. *)
Definition cookieFields (c : Config) : openShiftAuth :=
  mkOpenShiftAuth (CookiePath c) (SecureCookies c) (mkSpecialAuthURLs "" "")
                  (ClusterName c) (CookieDomain c).

(** A world in which discovery works and every code is exchanged for the
    given token. *)
Definition token_world (token : oauth2.Token) : World :=
  mkWorld (ext := ExampleExternals)
          (fun _ => None) true
          (fun _ method target =>
             if String.eqb method "GET"
             then inl (mkResponse 200 "200 OK" (Some example_metadata))
             else inl (mkResponse 200 "200 OK" None))
          (fun _ _ _ => inl token)
          0
          (fun _ => inr "connection refused")
          (fun _ rw _ => (rw, inr (ErrExternal "no provider")))
          (fun _ rw _ => rw)
          (fun _ => mkSpecialAuthURLs "" "")
          (fun _ _ => inr (ErrExternal "no provider")).

(** A world in which the OIDC provider answers [newOIDCAuth] with the
    endpoints of [https://oidc.example], and nothing else answers. *)
Definition oidc_world : World :=
  mkWorld (ext := ExampleExternals)
          (fun _ => None) true
          (fun _ _ _ => inr "connection refused")
          (fun _ _ _ => inr "connection refused")
          0
          (fun _ =>
             inl (oauth2.mkEndpoint "https://oidc.example/authorize"
                                    "https://oidc.example/token", tt))
          (fun _ rw _ => (rw, inr (ErrExternal "no provider")))
          (fun _ rw _ => rw)
          (fun _ => mkSpecialAuthURLs "" "")
          (fun _ _ => inr (ErrExternal "no provider")).

(** A digit of lowercase hexadecimal notation. *)
Definition isLowerHex (c : ascii) : bool :=
  GoStrings.memb c "0123456789abcdef".
(** * Properties *)

(** ** [net/url]: the model on examples *)

Example url_Parse_console :
  url.Parse "https://console.example"
  = inl (url.mkURL "https" "" None "console.example" "" "" false "" "" "").
Proof. reflexivity. Qed.

Example url_Parse_port_path :
  option_map (fun u => (url.Hostname u, url.Port u, url.Path u, url.String u))
    (match url.Parse "HTTPS://Console.example:8443/a%20b/c?x=1#top" with
     | inl u => Some u | inr _ => None end)
  = Some ("Console.example", "8443", "/a b/c",
          "https://Console.example:8443/a%20b/c?x=1#top").
Proof. reflexivity. Qed.

Example url_Parse_relative :
  url.Parse "/auth/error"
  = inl (url.mkURL "" "" None "" "/auth/error" "" false "" "" "").
Proof. reflexivity. Qed.

Example url_Parse_bad_port :
  url.Parse "https://console.example:x1/" = inr (url.ErrInvalidPort ":x1").
Proof. reflexivity. Qed.

Example Values_Encode_example :
  http.Values_Encode
    (http.Header_Set (http.Header_Set ∅ "error_type" "auth") "error" "a b&c")
  = "error=a+b%26c&error_type=auth".
Proof. vm_compute. reflexivity. Qed.

Example URL_Query_example :
  let q := http.URL_Query
             (url.with_RawQuery url.empty "code=abc&state=1f%2B&x&state=2") in
  (http.Header_Get q "code", http.Header_Get q "state",
   http.Header_Get q "error", q !! "x")
  = ("abc", "1f+", "", Some [""]).
Proof. vm_compute. reflexivity. Qed.

(** ** [strings.HasPrefix] *)

Lemma append_String (a : ascii) (s t : string) :
  String a s +:+ t = String a (s +:+ t).
Proof. reflexivity. Qed.

Lemma HasPrefix_spec (s p : string) :
  GoStrings.HasPrefix s p = true <-> exists t, s = p +:+ t.
Proof.
  unfold GoStrings.HasPrefix. revert s.
  induction p as [|a p IH]; intros s.
  - split; [intros _; exists s; reflexivity | intros _; destruct s; reflexivity].
  - destruct s as [|b s]; simpl.
    + split; [discriminate | intros [t Ht]; discriminate].
    + destruct (Ascii.ascii_dec a b) as [->|Hab].
      * rewrite IH.
        split; intros [t Ht]; exists t; rewrite append_String in *; congruence.
      * split; [discriminate|].
        intros [t Ht]. rewrite append_String in Ht. congruence.
Qed.

Lemma String_eqb_true (a b : string) : String.eqb a b = true <-> a = b.
Proof. apply String.eqb_eq. Qed.

Lemma length_zero_iff (s : string) : (String.length s =? 0)%nat = true <-> s = "".
Proof.
  destruct s; simpl; split; intros; try reflexivity; discriminate.
Qed.

(** ** Source origin verification *)

Section SourceOrigin.

Context {ext : Externals}.

(** The header value [VerifySourceOrigin] looks at: [Origin] when it
    is there, [Referer] otherwise. *)
Lemma getSourceOrigin_spec (a : Authenticator) (r : http.Request) :
  getSourceOrigin a r
  = if String.eqb (http.Header_Get (http.Header r) "Origin") ""
    then http.Header_Get (http.Header r) "Referer"
    else http.Header_Get (http.Header r) "Origin".
Proof.
  unfold getSourceOrigin, http.Referer.
  destruct (http.Header_Get (http.Header r) "Origin"); reflexivity.
Qed.

Lemma VerifySourceOrigin_nil_iff (a : Authenticator) (r : http.Request) :
  VerifySourceOrigin a r = None
  <-> exists u,
        getSourceOrigin a r <> ""
        /\ url_Parse (getSourceOrigin a r) = inl u
        /\ sameOrigin (refererURL a) u
        /\ (url.Path u = ""
            \/ exists rest, url.Path u = url.Path (refererURL a) +:+ rest).
Proof.
  unfold VerifySourceOrigin, sameOrigin.
  destruct (String.length (getSourceOrigin a r) =? 0)%nat eqn:Hlen.
  - apply length_zero_iff in Hlen. split; [discriminate|].
    intros (u & Hne & _). contradiction.
  - assert (Hne : getSourceOrigin a r <> "").
    { intros E. apply length_zero_iff in E. congruence. }
    destruct (url_Parse (getSourceOrigin a r)) as [u|e].
    + destruct (String.eqb (url.Hostname (refererURL a)) (url.Hostname u))
        eqn:Hh;
      destruct (String.eqb (url.Port (refererURL a)) (url.Port u)) eqn:Hp;
      destruct (String.eqb (url.Scheme (refererURL a)) (url.Scheme u))
        eqn:Hs;
      destruct (String.eqb (url.Path u) "") eqn:He;
      destruct (GoStrings.HasPrefix (url.Path u) (url.Path (refererURL a)))
        eqn:Hpre; simpl;
      rewrite ?String.eqb_eq, ?String.eqb_neq in *;
      (split;
       [ try discriminate; intros _; exists u;
         repeat split; try assumption; try reflexivity;
         first [ left; assumption
               | right; apply HasPrefix_spec; assumption ]
       | try reflexivity;
         intros (u' & _ & Hu & (H1 & H2 & H3) & H4);
         injection Hu as <-;
         try contradiction;
         destruct H4 as [H4|H4]; try contradiction;
         apply HasPrefix_spec in H4; congruence ]).
    + split; [discriminate|]. intros (u & _ & Hu & _). discriminate.
Qed.

End SourceOrigin.

Lemma VerifySourceOrigin_no_header {ext : Externals} (a : Authenticator)
  (r : http.Request) :
  http.Header_Get (http.Header r) "Origin" = "" ->
  http.Header_Get (http.Header r) "Referer" = "" ->
  VerifySourceOrigin a r = Some ErrNoOriginOrReferer.
Proof.
  intros Ho Hr. unfold VerifySourceOrigin.
  rewrite getSourceOrigin_spec, Ho, Hr. reflexivity.
Qed.

Lemma VerifySourceOrigin_console_example (a : Authenticator) (r : http.Request) :
  url.Parse "https://console.example" = inl (refererURL a) ->
  (http.Header_Get (http.Header r) "Origin" = "https://evil.example" ->
   VerifySourceOrigin (ext := ExampleExternals) a r
   = Some (ErrInvalidOrigin "https://evil.example" (refererURL a)))
  /\ (http.Header_Get (http.Header r) "Origin" = "https://console.example" ->
      VerifySourceOrigin (ext := ExampleExternals) a r = None).
Proof.
  intros Href. rewrite url_Parse_console in Href. injection Href as Href.
  split; intros Ho; unfold VerifySourceOrigin;
    rewrite getSourceOrigin_spec, Ho, <- Href; reflexivity.
Qed.

(** C1, as the code has it.  [VerifySourceOrigin] returns [nil] exactly
    when the [Origin] header (the [Referer] header when there is no
    [Origin]) is not empty and parses as a URL whose hostname, port and
    scheme equal those of the configured referer URL and whose path is
    empty or starts with the configured referer path; with neither header
    it returns an error; with the referer [https://console.example]
    configured, [Origin: https://evil.example] gives an error and
    [Origin: https://console.example] gives [nil]. *)
Theorem VerifySourceOrigin_accepts_matching_origin :
  (forall (ext : Externals) (a : Authenticator) (r : http.Request),
      VerifySourceOrigin a r = None
      <-> exists u,
            getSourceOrigin a r <> ""
            /\ url_Parse (getSourceOrigin a r) = inl u
            /\ sameOrigin (refererURL a) u
            /\ (url.Path u = ""
                \/ exists rest, url.Path u = url.Path (refererURL a) +:+ rest))
  /\ (forall (ext : Externals) (a : Authenticator) (r : http.Request),
         getSourceOrigin a r
         = if String.eqb (http.Header_Get (http.Header r) "Origin") ""
           then http.Header_Get (http.Header r) "Referer"
           else http.Header_Get (http.Header r) "Origin")
  /\ (forall (ext : Externals) (a : Authenticator) (r : http.Request),
         http.Header_Get (http.Header r) "Origin" = "" ->
         http.Header_Get (http.Header r) "Referer" = "" ->
         VerifySourceOrigin a r = Some ErrNoOriginOrReferer)
  /\ (forall (a : Authenticator) (r : http.Request),
         url.Parse "https://console.example" = inl (refererURL a) ->
         (http.Header_Get (http.Header r) "Origin" = "https://evil.example" ->
          VerifySourceOrigin (ext := ExampleExternals) a r
          = Some (ErrInvalidOrigin "https://evil.example" (refererURL a)))
         /\ (http.Header_Get (http.Header r) "Origin"
             = "https://console.example" ->
             VerifySourceOrigin (ext := ExampleExternals) a r = None)).
Proof.
  split; [|split; [|split]].
  - intros ext a r. apply VerifySourceOrigin_nil_iff.
  - intros ext a r. apply getSourceOrigin_spec.
  - intros ext a r. apply VerifySourceOrigin_no_header.
  - apply VerifySourceOrigin_console_example.
Qed.

(** The theorem at the console of [https://console.example]: a request
    from the console itself passes, one from [https://evil.example] and
    one without headers do not. *)
Lemma VerifySourceOrigin_accepts_matching_origin_witness :
  exists a,
    authenticator_for "https://console.example" = Some a
    /\ VerifySourceOrigin (ext := ExampleExternals) a
         (request_with_header "Origin" "https://console.example") = None
    /\ VerifySourceOrigin (ext := ExampleExternals) a
         (request_with_header "Origin" "https://evil.example")
       = Some (ErrInvalidOrigin "https://evil.example" (refererURL a))
    /\ VerifySourceOrigin (ext := ExampleExternals) a
         (request_with_header "Accept" "*/*")
       = Some ErrNoOriginOrReferer.
Proof.
  eexists. split; [reflexivity|].
  destruct VerifySourceOrigin_accepts_matching_origin as (_ & _ & Hnone & Hex).
  split; [|split].
  - eapply Hex; reflexivity.
  - eapply Hex; reflexivity.
  - apply Hnone; reflexivity.
Defined.

(** C1 as it is worded fails: with the referer
    [https://console.example/app/] configured, the request whose
    [Referer] is [https://console.example/app/dashboards] is accepted,
    although its path is there and is not a prefix of the configured
    path [/app/]. *)
Lemma VerifySourceOrigin_path_not_prefix_of_referer :
  exists a u,
    authenticator_for "https://console.example/app/" = Some a
    /\ VerifySourceOrigin (ext := ExampleExternals) a
         (request_with_header "Referer" "https://console.example/app/dashboards")
       = None
    /\ url.Parse "https://console.example/app/dashboards" = inl u
    /\ url.Path u <> ""
    /\ ~ (exists rest, url.Path (refererURL a) = url.Path u +:+ rest).
Proof.
  eexists. eexists.
  split; [reflexivity|]. split; [reflexivity|]. split; [reflexivity|].
  split; [discriminate|].
  intros Hx. apply HasPrefix_spec in Hx. vm_compute in Hx. discriminate.
Qed.

(** ** The HTTP client cache *)

Section ClientCache.

Context {ext : Externals}.

Lemma issuerCA_nonempty (issuerCA : string) :
  issuerCA <> "" -> String.eqb issuerCA "" = false.
Proof. intros Hne. apply String.eqb_neq. exact Hne. Qed.

(** A hit returns the cached address and leaves the state alone. *)
Lemma newHTTPClient_hit (w : World) (issuerCA data : string) (m : bool)
  (p : Proc) (a : nat) :
  issuerCA <> "" ->
  ReadFile w issuerCA = Some data ->
  cache_of m p !! data = Some a ->
  newHTTPClient w issuerCA m p = (inl (ClientAt a), p).
Proof.
  intros Hne Hread Hhit. unfold newHTTPClient.
  rewrite (issuerCA_nonempty _ Hne), Hread.
  destruct m; simpl in Hhit; rewrite Hhit; reflexivity.
Qed.

(** The ways [newHTTPClient] can end. *)
Lemma newHTTPClient_cases (w : World) (issuerCA : string) (m : bool)
  (p : Proc) :
  (issuerCA = "" /\ newHTTPClient w issuerCA m p = (inl DefaultClient, p))
  \/ (issuerCA <> "" /\ ReadFile w issuerCA = None
      /\ newHTTPClient w issuerCA m p = (inr (ErrLoadIssuerCA issuerCA), p))
  \/ (exists data a,
         issuerCA <> "" /\ ReadFile w issuerCA = Some data
         /\ cache_of m p !! data = Some a
         /\ newHTTPClient w issuerCA m p = (inl (ClientAt a), p))
  \/ (exists data,
         issuerCA <> "" /\ ReadFile w issuerCA = Some data
         /\ cache_of m p !! data = None
         /\ AppendCertsFromPEM data = false
         /\ newHTTPClient w issuerCA m p = (inr (ErrNoCAData issuerCA), p))
  \/ (exists data cl,
         issuerCA <> "" /\ ReadFile w issuerCA = Some data
         /\ cache_of m p !! data = None
         /\ AppendCertsFromPEM data = true
         /\ appended (RootCAs cl) = [data]
         /\ Timeout cl = time.Second * 5
         /\ newHTTPClient w issuerCA m p
            = (inl (ClientAt (length (clients p))),
               if m
               then mkProc (httpClientCache p)
                      (<[data := length (clients p)]>
                         (httpClientCacheSystemRoots p))
                      (clients p ++ [cl]) (oauth2Configs p)
               else mkProc (<[data := length (clients p)]> (httpClientCache p))
                      (httpClientCacheSystemRoots p)
                      (clients p ++ [cl]) (oauth2Configs p))).
Proof.
  unfold newHTTPClient.
  destruct (String.eqb issuerCA "") eqn:He.
  { left. apply String.eqb_eq in He. auto. }
  apply String.eqb_neq in He. right.
  destruct (ReadFile w issuerCA) as [data|] eqn:Hread.
  2:{ left. auto. }
  right.
  destruct (cache_of m p !! data) as [a|] eqn:Hc.
  { left. exists data, a. repeat split; try assumption.
    destruct m; simpl in Hc; rewrite Hc; reflexivity. }
  right.
  destruct (AppendCertsFromPEM data) eqn:Hpem.
  - right.
    destruct m; simpl in Hc; rewrite Hc; simpl.
    + exists data,
        (mkClient (mkCertPool (SystemCertPool w) [data]) (time.Second * 5)).
      repeat split; try assumption.
      destruct (SystemCertPool w); reflexivity.
    + exists data, (mkClient (mkCertPool false [data]) (time.Second * 5)).
      repeat split; assumption.
  - left. exists data. repeat split; try assumption.
    destruct m; simpl in Hc; rewrite Hc; reflexivity.
Qed.

Ltac newHTTPClient_cases w issuerCA m p :=
  let data := fresh "data" in
  let a := fresh "a" in
  let cl := fresh "cl" in
  let E := fresh "E" in
  destruct (newHTTPClient_cases w issuerCA m p)
    as [ (? & E)
       | [ (? & ? & E)
         | [ (data & a & ? & ? & ? & E)
           | [ (data & ? & ? & ? & ? & E)
             | (data & cl & ? & ? & ? & ? & ? & ? & E) ] ] ] ];
  rewrite E in *; clear E.

(** A call that returns an error leaves the whole process state, both
    maps included, as it was; the error is one of the two the function
    creates. *)
Lemma newHTTPClient_error_frame (w : World) (issuerCA : string) (m : bool)
  (p p' : Proc) (e : error) :
  newHTTPClient w issuerCA m p = (inr e, p') ->
  p' = p
  /\ ((ReadFile w issuerCA = None /\ e = ErrLoadIssuerCA issuerCA)
      \/ (exists data, ReadFile w issuerCA = Some data
                       /\ AppendCertsFromPEM data = false
                       /\ e = ErrNoCAData issuerCA)).
Proof.
  intros Hcall. newHTTPClient_cases w issuerCA m p;
    inversion Hcall; subst; split; try reflexivity.
  - left. auto.
  - right. exists data. auto.
Qed.

(** The heap of clients only grows. *)
Lemma newHTTPClient_clients_grow (w : World) (issuerCA : string) (m : bool)
  (p p' : Proc) (r : clientRef + error) :
  newHTTPClient w issuerCA m p = (r, p') ->
  exists more, clients p' = (clients p ++ more)%list.
Proof.
  intros Hcall. newHTTPClient_cases w issuerCA m p;
    inversion Hcall; subst; try (exists []; rewrite app_nil_r; reflexivity).
  exists [cl]. destruct m; reflexivity.
Qed.

(** Entries are never removed nor overwritten. *)
Lemma newHTTPClient_keeps_entries (w : World) (issuerCA : string)
  (m m0 : bool) (p p' : Proc) (r : clientRef + error) (k : string)
  (a : nat) :
  cache_of m0 p !! k = Some a ->
  newHTTPClient w issuerCA m p = (r, p') ->
  cache_of m0 p' !! k = Some a.
Proof.
  intros Hk Hcall. newHTTPClient_cases w issuerCA m p;
    inversion Hcall; subst; try assumption.
  destruct m, m0; simpl in *; try assumption;
    (rewrite lookup_insert_ne; [assumption | congruence]).
Qed.

(** After a call that succeeded on a CA file, the file's content is a
    key of the map, and the returned client is its value. *)
Lemma newHTTPClient_success_cached (w : World) (issuerCA data : string)
  (m : bool) (p p' : Proc) (c : clientRef) :
  issuerCA <> "" ->
  ReadFile w issuerCA = Some data ->
  newHTTPClient w issuerCA m p = (inl c, p') ->
  exists a, c = ClientAt a /\ cache_of m p' !! data = Some a.
Proof.
  intros Hne Hread Hcall. newHTTPClient_cases w issuerCA m p;
    inversion Hcall; subst; try contradiction;
    match goal with
    | H1 : ReadFile w issuerCA = Some ?d, H2 : ReadFile w issuerCA = Some data
      |- _ => rewrite H1 in H2; injection H2 as ->
    end.
  - exists a. auto.
  - exists (length (clients p)). split; [reflexivity|].
    destruct m; simpl; apply lookup_insert_eq.
Qed.

Lemma client_for_grow (p p' : Proc) (a : nat) (k : string) (more : list Client) :
  clients p' = (clients p ++ more)%list ->
  client_for p a k -> client_for p' a k.
Proof.
  intros Hgrow (cl & Hl & Hrest). exists cl. split; [|exact Hrest].
  rewrite Hgrow. apply lookup_app_l_Some. exact Hl.
Qed.

Lemma cache_sound_init : cache_sound Proc_init.
Proof. intros m k a Hk. destruct m; simpl in Hk; discriminate. Qed.

Lemma newHTTPClient_sound (w : World) (issuerCA : string) (m : bool)
  (p p' : Proc) (r : clientRef + error) :
  cache_sound p ->
  newHTTPClient w issuerCA m p = (r, p') ->
  cache_sound p'.
Proof.
  intros Hs Hcall. newHTTPClient_cases w issuerCA m p;
    inversion Hcall; subst; try assumption.
  intros m0 k a Hk.
  assert (Hnew : forall q, clients q = (clients p ++ [cl])%list ->
                           client_for q (length (clients p)) data).
  { intros q Hq. exists cl. rewrite Hq.
    split; [|auto].
    rewrite lookup_app_r by lia. rewrite Nat.sub_diag. reflexivity. }
  destruct m, m0; simpl in Hk.
  - destruct (decide (data = k)) as [->|Hd].
    + rewrite lookup_insert_eq in Hk. injection Hk as <-. apply Hnew. reflexivity.
    + rewrite lookup_insert_ne in Hk by exact Hd.
      eapply client_for_grow; [|apply (Hs true k a Hk)]. reflexivity.
  - eapply client_for_grow; [|apply (Hs false k a Hk)]. reflexivity.
  - eapply client_for_grow; [|apply (Hs true k a Hk)]. reflexivity.
  - destruct (decide (data = k)) as [->|Hd].
    + rewrite lookup_insert_eq in Hk. injection Hk as <-. apply Hnew. reflexivity.
    + rewrite lookup_insert_ne in Hk by exact Hd.
      eapply client_for_grow; [|apply (Hs false k a Hk)]. reflexivity.
Qed.

(** *** Runs of calls *)

Lemma run_keeps_entries (calls : list ClientCall) (p : Proc) (m0 : bool)
  (k : string) (a : nat) :
  cache_of m0 p !! k = Some a ->
  cache_of m0 (snd (run_newHTTPClient calls p)) !! k = Some a.
Proof.
  revert p. induction calls as [|c calls IH]; intros p Hk; simpl.
  - exact Hk.
  - destruct (newHTTPClient (cc_world c) (cc_issuerCA c)
                (cc_includeSystemRoots c) p) as [r p1] eqn:Hcall.
    specialize (IH p1 (newHTTPClient_keeps_entries _ _ _ _ _ _ _ _ _ Hk Hcall)).
    destruct (run_newHTTPClient calls p1) as [log p2]. exact IH.
Qed.

Lemma run_sound (calls : list ClientCall) (p : Proc) :
  cache_sound p -> cache_sound (snd (run_newHTTPClient calls p)).
Proof.
  revert p. induction calls as [|c calls IH]; intros p Hs; simpl.
  - exact Hs.
  - destruct (newHTTPClient (cc_world c) (cc_issuerCA c)
                (cc_includeSystemRoots c) p) as [r p1] eqn:Hcall.
    specialize (IH p1 (newHTTPClient_sound _ _ _ _ _ _ Hs Hcall)).
    destruct (run_newHTTPClient calls p1) as [log p2]. exact IH.
Qed.

(** An entry that is there after a run was there before it, or one of
    the calls of the run read the key from its file and succeeded. *)
Lemma run_entry_origin (calls : list ClientCall) (p : Proc) (m : bool)
  (k : string) (a : nat) :
  cache_of m (snd (run_newHTTPClient calls p)) !! k = Some a ->
  cache_of m p !! k = Some a
  \/ exists c, In (c, inl (ClientAt a)) (fst (run_newHTTPClient calls p))
               /\ cc_includeSystemRoots c = m
               /\ cc_issuerCA c <> ""
               /\ ReadFile (cc_world c) (cc_issuerCA c) = Some k.
Proof.
  revert p. induction calls as [|c calls IH]; intros p Hk; simpl in *.
  - left. exact Hk.
  - destruct (newHTTPClient (cc_world c) (cc_issuerCA c)
                (cc_includeSystemRoots c) p) as [r p1] eqn:Hcall.
    specialize (IH p1).
    destruct (run_newHTTPClient calls p1) as [log p2]. simpl in *.
    destruct (IH Hk) as [Hin1 | (c' & Hin & Hrest)].
    2:{ right. exists c'. split; [right; exact Hin | exact Hrest]. }
    clear IH Hk.
    newHTTPClient_cases (cc_world c) (cc_issuerCA c)
      (cc_includeSystemRoots c) p;
      inversion Hcall; subst; auto.
    destruct (cc_includeSystemRoots c) eqn:Hm, m; simpl in Hin1; auto;
      (destruct (decide (data = k)) as [->|Hd];
       [ rewrite lookup_insert_eq in Hin1; injection Hin1 as <-;
         right; exists c; split; [left; reflexivity | auto]
       | rewrite lookup_insert_ne in Hin1 by exact Hd; auto ]).
Qed.

End ClientCache.

(** C3.  A call of [newHTTPClient] on a CA file succeeded and returned a
    client.  Then, whatever calls of [newHTTPClient] follow it, a call in
    the same [includeSystemRoots] mode on a CA file with the same bytes
    (under whatever path, in whatever world) returns that very client and
    changes nothing: no client is built.  The key is the content read. *)
Theorem newHTTPClient_same_content_same_client
  (ext : Externals) (w1 w2 : World) (path1 path2 data : string) (m : bool)
  (p p1 : Proc) (c : clientRef) (calls : list ClientCall) :
  path1 <> "" -> path2 <> "" ->
  ReadFile w1 path1 = Some data ->
  ReadFile w2 path2 = Some data ->
  newHTTPClient w1 path1 m p = (inl c, p1) ->
  newHTTPClient w2 path2 m (snd (run_newHTTPClient calls p1))
  = (inl c, snd (run_newHTTPClient calls p1)).
Proof.
  intros Hne1 Hne2 Hread1 Hread2 Hcall.
  destruct (newHTTPClient_success_cached _ _ _ _ _ _ _ Hne1 Hread1 Hcall)
    as (a & -> & Hcached).
  apply newHTTPClient_hit with (data := data); try assumption.
  apply run_keeps_entries. exact Hcached.
Qed.

(** The theorem on two paths to the same bytes, with a call on another
    file and a failing call in between. *)
Lemma newHTTPClient_same_content_same_client_witness :
  let w := world_with_files
             [("/etc/ca.crt", example_pem);
              ("/var/run/secrets/ca.crt", example_pem);
              ("/etc/other.crt", example_pem +:+ example_pem);
              ("/etc/empty.crt", "")] in
  let between := [@mkClientCall ExampleExternals w "/etc/other.crt" true;
                  @mkClientCall ExampleExternals w "/etc/empty.crt" true] in
  exists c p1,
    newHTTPClient (ext := ExampleExternals) w "/etc/ca.crt" true Proc_init
    = (inl c, p1)
    /\ newHTTPClient (ext := ExampleExternals) w "/var/run/secrets/ca.crt" true
         (snd (run_newHTTPClient between p1))
       = (inl c, snd (run_newHTTPClient between p1)).
Proof.
  intros w between. eexists. eexists. split; [vm_compute; reflexivity|].
  apply (newHTTPClient_same_content_same_client ExampleExternals w w
           "/etc/ca.crt" "/var/run/secrets/ca.crt" example_pem true Proc_init).
  - discriminate.
  - discriminate.
  - reflexivity.
  - reflexivity.
  - vm_compute. reflexivity.
Defined.

(** C10.  A call of [newHTTPClient] that returns an error (the CA file
    cannot be read, or its content holds no certificate) leaves the
    process state, both maps included, unchanged.  Starting from empty
    maps, an entry for the content [k] is there only if one of the calls
    made read [k] from its CA file and succeeded, returning the client of
    the entry.  And after any calls, failed ones included, a call on a
    readable CA file whose content holds a certificate returns a client
    built for that content. *)
Theorem newHTTPClient_failure_not_cached :
  (forall (ext : Externals) (w : World) (issuerCA : string) (m : bool)
          (p p' : Proc) (e : error),
      newHTTPClient w issuerCA m p = (inr e, p') ->
      p' = p
      /\ ((ReadFile w issuerCA = None /\ e = ErrLoadIssuerCA issuerCA)
          \/ (exists data, ReadFile w issuerCA = Some data
                           /\ AppendCertsFromPEM data = false
                           /\ e = ErrNoCAData issuerCA)))
  /\ (forall (ext : Externals) (calls : list ClientCall) (m : bool)
             (k : string) (a : nat),
         cache_of m (snd (run_newHTTPClient calls Proc_init)) !! k = Some a ->
         exists c,
           In (c, inl (ClientAt a)) (fst (run_newHTTPClient calls Proc_init))
           /\ cc_includeSystemRoots c = m
           /\ cc_issuerCA c <> ""
           /\ ReadFile (cc_world c) (cc_issuerCA c) = Some k)
  /\ (forall (ext : Externals) (calls : list ClientCall) (w : World)
             (issuerCA data : string) (m : bool),
         issuerCA <> "" ->
         ReadFile w issuerCA = Some data ->
         AppendCertsFromPEM data = true ->
         exists a p',
           newHTTPClient w issuerCA m (snd (run_newHTTPClient calls Proc_init))
           = (inl (ClientAt a), p')
           /\ client_for p' a data).
Proof.
  split; [|split].
  - intros ext w issuerCA m p p' e. apply newHTTPClient_error_frame.
  - intros ext calls m k a Hk.
    destruct (run_entry_origin calls Proc_init m k a Hk) as [Hinit|Hc].
    + destruct m; simpl in Hinit; discriminate.
    + exact Hc.
  - intros ext calls w issuerCA data m Hne Hread Hpem.
    set (p := snd (run_newHTTPClient calls Proc_init)).
    assert (Hs : cache_sound p) by (apply run_sound, cache_sound_init).
    destruct (newHTTPClient w issuerCA m p) as [[c|e] p'] eqn:Hcall.
    + destruct (newHTTPClient_success_cached _ _ _ _ _ _ _ Hne Hread Hcall)
        as (a & -> & Hcached).
      exists a, p'. split; [reflexivity|].
      apply (newHTTPClient_sound _ _ _ _ _ _ Hs Hcall m data a Hcached).
    + destruct (newHTTPClient_error_frame _ _ _ _ _ _ Hcall)
        as (_ & [(Hnone & _) | (d & Hd & Hfalse & _)]).
      * congruence.
      * rewrite Hread in Hd. injection Hd as <-. congruence.
Qed.

(** The theorem on a CA file that is first missing, then empty, then
    holds a certificate: the two failed calls change nothing, the third
    call builds a client for the corrected content. *)
Lemma newHTTPClient_failure_not_cached_witness :
  let missing := world_with_files [] in
  let garbage := world_with_files [("/etc/ca.crt", "")] in
  let fixed := world_with_files [("/etc/ca.crt", example_pem)] in
  let failed := [@mkClientCall ExampleExternals missing "/etc/ca.crt" true;
                 @mkClientCall ExampleExternals garbage "/etc/ca.crt" true] in
  run_newHTTPClient (ext := ExampleExternals) failed Proc_init
  = ([(@mkClientCall ExampleExternals missing "/etc/ca.crt" true,
       inr (ErrLoadIssuerCA "/etc/ca.crt"));
      (@mkClientCall ExampleExternals garbage "/etc/ca.crt" true,
       inr (ErrNoCAData "/etc/ca.crt"))], Proc_init)
  /\ exists a p',
       newHTTPClient (ext := ExampleExternals) fixed "/etc/ca.crt" true
         (snd (run_newHTTPClient (ext := ExampleExternals) failed Proc_init))
       = (inl (ClientAt a), p')
       /\ client_for (ext := ExampleExternals) p' a example_pem.
Proof.
  intros missing garbage fixed failed.
  destruct newHTTPClient_failure_not_cached as (_ & _ & Hrecover).
  split; [reflexivity|].
  apply (Hrecover ExampleExternals failed fixed "/etc/ca.crt" example_pem true).
  - discriminate.
  - reflexivity.
  - reflexivity.
Defined.

(** ** The OpenShift login method *)

Section OpenShift.

Context {ext : Externals}.

Lemma Cookie_with_Domain_same (c : http.Cookie) :
  (if negb (String.eqb (http.Domain c) "")
   then http.Cookie_with_Domain c (http.Domain c) else c) = c.
Proof. destruct c; simpl. destruct (String.eqb _ ""); reflexivity. Qed.

Lemma optional_Domain (n v pth d : string) (age : Z) (s h : bool)
  (ss : http.SameSite) :
  (if negb (String.eqb d "")
   then http.Cookie_with_Domain (http.mkCookie n v pth "" age s h ss) d
   else http.mkCookie n v pth "" age s h ss)
  = http.mkCookie n v pth d age s h ss.
Proof.
  destruct (String.eqb d "") eqn:E; simpl.
  - apply String.eqb_eq in E. subst. reflexivity.
  - reflexivity.
Qed.

Lemma openShiftAuth_login_no_token (w : World) (o : openShiftAuth)
  (rw : http.ResponseWriter) (token : oauth2.Token) :
  oauth2.AccessToken token = "" ->
  openShiftAuth_login w o rw token = (rw, inr (ErrNoAccessToken token)).
Proof. intros E. unfold openShiftAuth_login. rewrite E. reflexivity. Qed.

Lemma openShiftAuth_login_token (w : World) (o : openShiftAuth)
  (rw : http.ResponseWriter) (token : oauth2.Token) :
  oauth2.AccessToken token <> "" ->
  openShiftAuth_login w o rw token
  = (http.SetCookie rw (sessionCookie w o token),
     inl (mkLoginState "" "" (oauth2.AccessToken token))).
Proof.
  intros E. unfold openShiftAuth_login, sessionCookie.
  apply String.eqb_neq in E. rewrite E. cbv zeta.
  rewrite optional_Domain. simpl rawToken.
  destruct (time.IsZero (oauth2.Expiry token)); reflexivity.
Qed.

Lemma openShiftAuth_logout_eq (o : openShiftAuth) (rw : http.ResponseWriter)
  (r : http.Request) :
  openShiftAuth_logout o rw r
  = http.WriteHeader (http.SetCookie rw (clearingCookie o))
                     http.StatusNoContent.
Proof.
  unfold openShiftAuth_logout, clearingCookie. cbv zeta.
  rewrite optional_Domain. reflexivity.
Qed.

End OpenShift.

(** The whole seconds of a remaining lifetime. *)
Lemma Seconds_int_Sub_bounds (expiry now : Z) :
  now <= expiry -> expiry - now <= time.maxDuration ->
  time.Seconds_int (time.Sub expiry now) * time.Second <= expiry - now
  /\ expiry - now
     < time.Seconds_int (time.Sub expiry now) * time.Second + time.Second.
Proof.
  intros Hle Hmax. unfold time.Seconds_int, time.Sub.
  assert (Hmin : time.minDuration <= 0) by (vm_compute; discriminate).
  rewrite Z.min_r by lia. rewrite Z.max_r by lia.
  rewrite Z.quot_div_nonneg by (unfold time.Second; lia).
  unfold time.Second.
  pose proof (Z.div_mod (expiry - now) 1000000000 ltac:(lia)) as Hdm.
  pose proof (Z.mod_pos_bound (expiry - now) 1000000000 ltac:(lia)) as Hb.
  lia.
Qed.

(** C4.  [login] of the OpenShift variant.  With an empty access token
    it returns an error and the response is untouched.  Otherwise it
    adds one cookie to the response: named for the cluster, holding the
    access token, HttpOnly, SameSite=Lax, with the path, the secure flag
    and the domain of the login method, and with a max-age of 24 hours
    when the token has no expiry and of the whole seconds left until the
    expiry otherwise; the login state it returns holds the access token
    as raw token and no name or email. *)
Theorem openShiftAuth_login_sets_session_cookie :
  forall (ext : Externals) (w : World) (o : openShiftAuth)
         (rw : http.ResponseWriter) (token : oauth2.Token),
    (oauth2.AccessToken token = "" ->
     openShiftAuth_login w o rw token = (rw, inr (ErrNoAccessToken token)))
    /\ (oauth2.AccessToken token <> "" ->
        exists cookie,
          openShiftAuth_login w o rw token
          = (http.SetCookie rw cookie,
             inl (mkLoginState "" "" (oauth2.AccessToken token)))
          /\ http.rwSetCookie (http.SetCookie rw cookie)
             = (http.rwSetCookie rw ++ [cookie])%list
          /\ http.Name cookie = GetCookieName (o_clusterName o)
          /\ http.Value cookie = oauth2.AccessToken token
          /\ http.HttpOnly cookie = true
          /\ http.SameSite_ cookie = http.SameSiteLaxMode
          /\ http.Path cookie = o_cookiePath o
          /\ http.Secure cookie = o_secureCookies o
          /\ http.Domain cookie = o_cookieDomain o
          /\ (time.IsZero (oauth2.Expiry token) = true ->
              http.MaxAge cookie = 24 * 3600)
          /\ (time.IsZero (oauth2.Expiry token) = false ->
              http.MaxAge cookie
              = time.Seconds_int (time.Sub (oauth2.Expiry token) (Now w))
              /\ (Now w <= oauth2.Expiry token ->
                  oauth2.Expiry token - Now w <= time.maxDuration ->
                  http.MaxAge cookie * time.Second
                  <= oauth2.Expiry token - Now w
                  < http.MaxAge cookie * time.Second + time.Second))).
Proof.
  intros ext w o rw token. split.
  - apply openShiftAuth_login_no_token.
  - intros Hne. exists (sessionCookie w o token).
    split; [apply openShiftAuth_login_token; exact Hne|].
    unfold sessionCookie; simpl.
    do 8 (split; [reflexivity|]).
    split.
    + intros ->. reflexivity.
    + intros ->. split; [reflexivity|].
      intros Hle Hmax. apply Seconds_int_Sub_bounds; assumption.
Qed.

(** The theorem on a token that expires in an hour and a half second,
    and on a token response without access token. *)
Lemma openShiftAuth_login_sets_session_cookie_witness :
  let w := discovery_world 200 (Some example_metadata) in
  openShiftAuth_login (ext := ExampleExternals) w example_openShiftAuth
    http.newRecorder (oauth2.mkToken "" 0)
  = (http.newRecorder, inr (ErrNoAccessToken (oauth2.mkToken "" 0)))
  /\ exists cookie,
       openShiftAuth_login (ext := ExampleExternals) w example_openShiftAuth
         http.newRecorder (oauth2.mkToken "sha256~abc" 3600500000000)
       = (http.SetCookie http.newRecorder cookie,
          inl (mkLoginState "" "" "sha256~abc"))
       /\ http.Name cookie = "openshift-session-token"
       /\ http.MaxAge cookie = 3600.
Proof.
  intros w.
  destruct (openShiftAuth_login_sets_session_cookie ExampleExternals w
              example_openShiftAuth http.newRecorder (oauth2.mkToken "" 0))
    as [Hempty _].
  destruct (openShiftAuth_login_sets_session_cookie ExampleExternals w
              example_openShiftAuth http.newRecorder
              (oauth2.mkToken "sha256~abc" 3600500000000))
    as [_ Hset].
  split; [apply Hempty; reflexivity|].
  destruct (Hset ltac:(discriminate))
    as (cookie & Hlogin & _ & Hname & _ & _ & _ & _ & _ & _ & _ & Hage).
  exists cookie. split; [exact Hlogin|]. split; [exact Hname|].
  destruct (Hage eq_refl) as [-> _]. reflexivity.
Defined.

(** *** Logging out *)

Section Logout.

Context {ext : Externals}.

Lemma Jar_set_clearing (jar : list http.Cookie) (o : openShiftAuth) :
  Jar.set jar (clearingCookie o)
  = (List.filter (fun x => negb (Jar.same x (clearingCookie o))) jar
       ++ [clearingCookie o])%list.
Proof. reflexivity. Qed.

(** In the store left by a logout, the session cookie's name is borne by
    empty cookies only, provided it was borne by the session cookie only
    before. *)
Lemma Jar_after_logout (jar : list http.Cookie) (o : openShiftAuth)
  (x : http.Cookie) :
  (forall c, In c jar -> http.Name c = GetCookieName (o_clusterName o) ->
             Jar.same c (clearingCookie o) = true) ->
  In x (Jar.set jar (clearingCookie o)) ->
  http.Name x = GetCookieName (o_clusterName o) ->
  http.Value x = "".
Proof.
  intros Honly Hin Hname. rewrite Jar_set_clearing in Hin.
  apply in_app_or in Hin. destruct Hin as [Hin|Hin].
  - apply filter_In in Hin. destruct Hin as [Hin Hdiff].
    rewrite (Honly x Hin Hname) in Hdiff. discriminate.
  - destruct Hin as [<-|[]]. reflexivity.
Qed.

Lemma lookupCookie_from_jar (jar : list http.Cookie) (cs : list (string * string))
  (n : string) :
  (forall x, In x jar -> http.Name x = n -> http.Value x = "") ->
  (forall nv, In nv cs -> In nv (Jar.pairs jar)) ->
  http.lookupCookie cs n = None \/ http.lookupCookie cs n = Some "".
Proof.
  intros Hempty. induction cs as [|[n' v] cs IH]; intros Hsub; simpl.
  - left. reflexivity.
  - destruct (String.eqb n' n) eqn:E.
    + right. apply String.eqb_eq in E. subst n'.
      specialize (Hsub (n, v) (or_introl eq_refl)).
      unfold Jar.pairs in Hsub. apply in_map_iff in Hsub.
      destruct Hsub as (x & Hx & Hin). injection Hx as Hn Hv.
      rewrite <- Hv. f_equal. apply Hempty; assumption.
    + apply IH. intros nv Hnv. apply Hsub. right. exact Hnv.
Qed.

Lemma getOpenShiftUser_after_logout (o : openShiftAuth) (r0 r : http.Request)
  (jar : list http.Cookie) :
  (forall c, In c jar -> http.Name c = GetCookieName (o_clusterName o) ->
             Jar.same c (clearingCookie o) = true) ->
  GetCluster r = o_clusterName o ->
  (forall nv, In nv (http.Cookies r) ->
              In nv (Jar.pairs
                       (Jar.receive jar
                          (openShiftAuth_logout o http.newRecorder r0)))) ->
  getOpenShiftUser r = inr ErrNoCookie
  \/ getOpenShiftUser r
     = inr (ErrUnauthenticated (GetCookieName (o_clusterName o))).
Proof.
  intros Honly Hcluster Hsub.
  rewrite openShiftAuth_logout_eq in Hsub.
  unfold Jar.receive in Hsub. simpl in Hsub.
  unfold getOpenShiftUser, http.Request_Cookie. rewrite Hcluster.
  destruct (lookupCookie_from_jar _ (http.Cookies r)
              (GetCookieName (o_clusterName o))
              (fun x Hin Hn => Jar_after_logout jar o x Honly Hin Hn) Hsub)
    as [-> | ->].
  - left. reflexivity.
  - right. reflexivity.
Qed.

End Logout.

(** What [logout] of the OpenShift variant does achieve.  It adds one
    cookie to the response and then writes the status 204.  The cookie
    has an empty value and the field [MaxAge] 0, and the name, path,
    domain and secure flag of the cookie [login] sets.  A client whose
    store holds the session cookie as the only cookie of that name, and
    which has received the logout response, sends requests on which
    [getOpenShiftUser] (and so [Authenticate]) fails: there is no session
    cookie, or its value is empty. *)
Theorem openShiftAuth_logout_clears_session :
  forall (ext : Externals) (o : openShiftAuth) (rw : http.ResponseWriter)
         (r0 : http.Request),
  exists cookie,
    openShiftAuth_logout o rw r0
    = http.WriteHeader (http.SetCookie rw cookie) http.StatusNoContent
    /\ http.Value cookie = ""
    /\ http.MaxAge cookie = 0
    /\ (forall (w : World) (token : oauth2.Token) (rw1 : http.ResponseWriter),
           oauth2.AccessToken token <> "" ->
           exists set ls,
             openShiftAuth_login w o rw1 token = (http.SetCookie rw1 set, inl ls)
             /\ http.Name cookie = http.Name set
             /\ http.Path cookie = http.Path set
             /\ http.Domain cookie = http.Domain set
             /\ http.Secure cookie = http.Secure set)
    /\ (http.rwStatus rw = None ->
        http.rwStatus (openShiftAuth_logout o rw r0) = Some 204)
    /\ (forall (jar : list http.Cookie) (w : World) (a : Authenticator)
               (r : http.Request),
           (forall c, In c jar -> http.Name c = http.Name cookie ->
                      Jar.same c cookie = true) ->
           GetCluster r = o_clusterName o ->
           (forall nv, In nv (http.Cookies r) ->
                       In nv (Jar.pairs
                                (Jar.receive jar
                                   (openShiftAuth_logout o http.newRecorder r0)))) ->
           userFunc a = Some (fun _ r => getOpenShiftUser r) ->
           exists e, Authenticate a w r = Some (inr e)
                     /\ getOpenShiftUser r = inr e
                     /\ (e = ErrNoCookie
                         \/ e = ErrUnauthenticated
                                  (GetCookieName (o_clusterName o)))).
Proof.
  intros ext o rw r0. exists (clearingCookie o).
  split; [apply openShiftAuth_logout_eq|].
  split; [reflexivity|]. split; [reflexivity|].
  split; [|split].
  - intros w token rw1 Hne. eexists. eexists.
    split; [apply openShiftAuth_login_token; exact Hne|].
    repeat split; reflexivity.
  - intros Hfresh. rewrite openShiftAuth_logout_eq. simpl.
    rewrite Hfresh. reflexivity.
  - intros jar w a r Honly Hcluster Hsub Huser.
    unfold Authenticate. rewrite Huser.
    destruct (getOpenShiftUser_after_logout o r0 r jar Honly Hcluster Hsub)
      as [E|E]; rewrite E; eexists; split; try reflexivity; split;
      try reflexivity; auto.
Qed.

(** *** Discovery *)

Lemma quot_100_is_2 (status : Z) :
  Z.quot status 100 = 2 <-> 200 <= status <= 299.
Proof.
  split.
  - intros Hq.
    pose proof (Z.quot_rem' status 100) as Hqr. rewrite Hq in Hqr.
    pose proof (Z.rem_bound_abs status 100 ltac:(lia)) as Hb.
    assert (Hpos : 0 <= status) by lia.
    pose proof (Z.rem_nonneg status 100 ltac:(lia) Hpos) as Hr.
    lia.
  - intros Hs. rewrite Z.quot_div_nonneg by lia.
    symmetry. apply (Z.div_unique status 100 2 (status - 200)); lia.
Qed.

Section Discovery.

Context {ext : Externals}.

Lemma validateAbsURL_nil (value : string) :
  validateAbsURL value = None -> absoluteURL value.
Proof.
  unfold validateAbsURL, absoluteURL.
  destruct (url_Parse value) as [ur|e]; [|discriminate].
  destruct (String.eqb (url.String ur) ""); [discriminate|].
  destruct (String.eqb (url.Scheme ur) "") eqn:Hs; [discriminate|].
  destruct (String.eqb (url.Host ur) "") eqn:Hh; [discriminate|].
  intros _. exists ur. apply String.eqb_neq in Hs, Hh. auto.
Qed.

(** A URL without scheme or host is refused, and so is a string that
    does not parse. *)
Lemma validateAbsURL_error (value : string) :
  (forall u, url_Parse value = inl u ->
             url.Scheme u = "" \/ url.Host u = "") ->
  exists e, validateAbsURL value = Some e.
Proof.
  intros Hrel. unfold validateAbsURL.
  destruct (url_Parse value) as [ur|e]; [|eauto].
  destruct (Hrel ur eq_refl) as [E|E]; rewrite E; simpl;
    rewrite ?orb_true_r; eauto.
Qed.

Lemma newOpenShiftAuth_success (w : World) (c : openShiftConfig)
  (endpoint : oauth2.Endpoint) (o : openShiftAuth) :
  newOpenShiftAuth w c = inl (endpoint, o) ->
  exists resp md,
    Do w (k8sClient c) "GET" (wellKnownURL (oc_issuerURL c)) = inl resp
    /\ 200 <= StatusCode resp <= 299
    /\ Body resp = Some md
    /\ absoluteURL (Issuer md)
    /\ absoluteURL (Auth md)
    /\ absoluteURL (Token_ md)
    /\ endpoint = oauth2.mkEndpoint (Auth md) (Token_ md)
    /\ o_specialURLs o
       = mkSpecialAuthURLs (SingleJoiningSlash (Token_ md) "/request")
                           (SingleJoiningSlash (Issuer md) "/logout")
    /\ o = mkOpenShiftAuth (oc_cookiePath c) (oc_secureCookies c)
             (o_specialURLs o) (oc_clusterName c) (oc_cookieDomain c).
Proof.
  unfold newOpenShiftAuth.
  destruct (NewRequest "GET" _); [discriminate|].
  destruct (Do w (k8sClient c) "GET" _) as [resp|e]; [|discriminate].
  destruct (Z.quot (StatusCode resp) 100 =? 2) eqn:Hstatus; [|discriminate].
  simpl.
  destruct (Body resp) as [md|] eqn:Hbody; [|discriminate].
  destruct (validateAbsURL (Issuer md)) eqn:Hi; [discriminate|].
  destruct (validateAbsURL (Auth md)) eqn:Ha; [discriminate|].
  destruct (validateAbsURL (Token_ md)) eqn:Ht; [discriminate|].
  destruct (NewRequest "HEAD" _); [discriminate|].
  destruct (Do w (oauthClient c) "HEAD" _); [|discriminate].
  intros Heq. injection Heq as <- <-.
  exists resp, md.
  split; [reflexivity|].
  split; [apply quot_100_is_2, Z.eqb_eq; exact Hstatus|].
  split; [exact Hbody|].
  repeat split; auto using validateAbsURL_nil.
Qed.

End Discovery.

Lemma newOpenShiftAuth_oauth_example (w : @World ExampleExternals)
  (c : openShiftConfig) (resp head : Response) :
  oc_issuerURL c = "https://oauth.example" ->
  Do w (k8sClient c) "GET"
     "https://oauth.example/.well-known/oauth-authorization-server"
  = inl resp ->
  200 <= StatusCode resp <= 299 ->
  Body resp = Some example_metadata ->
  Do w (oauthClient c) "HEAD" "https://oauth.example" = inl head ->
  exists o,
    newOpenShiftAuth (ext := ExampleExternals) w c
    = inl (oauth2.mkEndpoint "https://oauth.example/authorize"
                             "https://oauth.example/token", o)
    /\ o_specialURLs o
       = mkSpecialAuthURLs "https://oauth.example/token/request"
                           "https://oauth.example/logout".
Proof.
  intros Hissuer Hget Hstatus Hbody Hhead.
  unfold newOpenShiftAuth. rewrite Hissuer.
  change (wellKnownURL "https://oauth.example")
    with "https://oauth.example/.well-known/oauth-authorization-server".
  change (NewRequest (ext := ExampleExternals) "GET"
            "https://oauth.example/.well-known/oauth-authorization-server")
    with (@None error).
  cbv iota. rewrite Hget.
  apply quot_100_is_2 in Hstatus. rewrite Hstatus. simpl negb. cbv iota.
  rewrite Hbody.
  change (validateAbsURL (ext := ExampleExternals) (Issuer example_metadata))
    with (@None error).
  change (validateAbsURL (ext := ExampleExternals) (Auth example_metadata))
    with (@None error).
  change (validateAbsURL (ext := ExampleExternals) (Token_ example_metadata))
    with (@None error).
  change (NewRequest (ext := ExampleExternals) "HEAD" (Issuer example_metadata))
    with (@None error).
  cbv iota. change (Issuer example_metadata) with "https://oauth.example".
  rewrite Hhead. eexists. split; reflexivity.
Qed.

(** C6.  When [newOpenShiftAuth] returns without error, the well-known
    endpoint answered with a 2xx status, its body decoded, and each of
    issuer, authorization endpoint and token endpoint parses as a URL
    with a scheme and a host (a value that does not, makes
    [validateAbsURL] return an error); the endpoint returned holds the
    authorization and token URLs, and the special URLs are the token
    endpoint joined with [/request] and the issuer joined with [/logout].
    For the discovery document of [https://oauth.example] the special
    URLs are [https://oauth.example/token/request] and
    [https://oauth.example/logout]. *)
Theorem newOpenShiftAuth_discovers_special_urls :
  (forall (ext : Externals) (w : World) (c : openShiftConfig)
          (endpoint : oauth2.Endpoint) (o : openShiftAuth),
      newOpenShiftAuth w c = inl (endpoint, o) ->
      exists resp md,
        Do w (k8sClient c) "GET" (wellKnownURL (oc_issuerURL c)) = inl resp
        /\ 200 <= StatusCode resp <= 299
        /\ Body resp = Some md
        /\ absoluteURL (Issuer md)
        /\ absoluteURL (Auth md)
        /\ absoluteURL (Token_ md)
        /\ endpoint = oauth2.mkEndpoint (Auth md) (Token_ md)
        /\ o_specialURLs o
           = mkSpecialAuthURLs (SingleJoiningSlash (Token_ md) "/request")
                               (SingleJoiningSlash (Issuer md) "/logout"))
  /\ (forall (ext : Externals) (value : string),
         (forall u, url_Parse value = inl u ->
                    url.Scheme u = "" \/ url.Host u = "") ->
         exists e, validateAbsURL value = Some e)
  /\ (forall (w : @World ExampleExternals) (c : openShiftConfig)
             (resp head : Response),
         oc_issuerURL c = "https://oauth.example" ->
         Do w (k8sClient c) "GET"
            "https://oauth.example/.well-known/oauth-authorization-server"
         = inl resp ->
         200 <= StatusCode resp <= 299 ->
         Body resp = Some example_metadata ->
         Do w (oauthClient c) "HEAD" "https://oauth.example" = inl head ->
         exists o,
           newOpenShiftAuth (ext := ExampleExternals) w c
           = inl (oauth2.mkEndpoint "https://oauth.example/authorize"
                                    "https://oauth.example/token", o)
           /\ o_specialURLs o
              = mkSpecialAuthURLs "https://oauth.example/token/request"
                                  "https://oauth.example/logout").
Proof.
  split; [|split].
  - intros ext w c endpoint o Hok.
    destruct (newOpenShiftAuth_success w c endpoint o Hok)
      as (resp & md & H1 & H2 & H3 & H4 & H5 & H6 & H7 & H8 & _).
    exists resp, md. auto 10.
  - intros ext value. apply validateAbsURL_error.
  - apply newOpenShiftAuth_oauth_example.
Qed.

(** The theorem in the world where the API server serves the discovery
    document of [https://oauth.example]; with a 503 answer, or with a
    document whose issuer has no scheme, discovery fails. *)
Lemma newOpenShiftAuth_discovers_special_urls_witness :
  (exists o,
      newOpenShiftAuth (ext := ExampleExternals)
        (discovery_world 200 (Some example_metadata)) example_openShiftConfig
      = inl (oauth2.mkEndpoint "https://oauth.example/authorize"
                               "https://oauth.example/token", o)
      /\ o_specialURLs o
         = mkSpecialAuthURLs "https://oauth.example/token/request"
                             "https://oauth.example/logout")
  /\ newOpenShiftAuth (ext := ExampleExternals)
       (discovery_world 503 (Some example_metadata)) example_openShiftConfig
     = inr (ErrDiscoveryStatus
              "https://oauth.example/.well-known/oauth-authorization-server" "")
  /\ exists e,
       newOpenShiftAuth (ext := ExampleExternals)
         (discovery_world 200
            (Some (mkMetadata "oauth.example" "https://oauth.example/authorize"
                              "https://oauth.example/token")))
         example_openShiftConfig
       = inr e.
Proof.
  destruct newOpenShiftAuth_discovers_special_urls as (_ & _ & Hexample).
  split; [|split].
  - apply (Hexample (discovery_world 200 (Some example_metadata))
             example_openShiftConfig
             (mkResponse 200 "" (Some example_metadata))
             (mkResponse 200 "200 OK" None)).
    + reflexivity.
    + reflexivity.
    + simpl. lia.
    + reflexivity.
    + reflexivity.
  - vm_compute. reflexivity.
  - eexists. vm_compute. reflexivity.
Defined.

(** The example authenticator exists; its fields are read off by
    computation. *)
Lemma example_authenticator_some :
  exists a, example_authenticator = Some a.
Proof.
  assert (H : option_map (fun _ => tt) example_authenticator = Some tt)
    by (vm_compute; reflexivity).
  destruct example_authenticator as [a|]; [eauto | discriminate].
Qed.

(** ** The OAuth2 callback *)

Section Callback.

Context {ext : Externals}.

Lemma Values_Encode_error (category : string) :
  In category callbackCategories ->
  http.Values_Encode
    (http.Header_Set (http.Header_Set ∅ "error" category) "error_type" "auth")
  = "error=" +:+ category +:+ "&error_type=auth".
Proof.
  intros Hin. simpl in Hin.
  repeat (destruct Hin as [<-|Hin]; [vm_compute; reflexivity|]).
  destruct Hin.
Qed.

Lemma redirectAuthError_spec (a : Authenticator) (rw : http.ResponseWriter)
  (category : string) :
  In category callbackCategories ->
  redirectsWithError a category rw (redirectAuthError a rw category).
Proof.
  intros Hin. unfold redirectsWithError, redirectAuthError, errorLocation.
  cbv zeta. rewrite (Values_Encode_error category Hin).
  split; [|split].
  - unfold http.WriteHeader, http.SetHeader, http.Header_Get, http.Header_Set.
    simpl. rewrite lookup_insert_eq. reflexivity.
  - simpl. destruct (http.rwStatus rw); reflexivity.
  - reflexivity.
Qed.

Lemma http_Redirect_spec (rw : http.ResponseWriter) (r : http.Request)
  (target : string) (code : Z) :
  http.Header_Get (http.rwHeader (http_Redirect rw r target code)) "Location"
  = redirectTarget r target
  /\ http.rwStatus (http_Redirect rw r target code)
     = Some (match http.rwStatus rw with None => code | Some c => c end)
  /\ http.rwSetCookie (http_Redirect rw r target code) = http.rwSetCookie rw.
Proof.
  unfold http_Redirect. cbv zeta.
  destruct (negb _ && _); unfold http.WriteHeader, http.SetHeader,
    http.Header_Get, http.Header_Set; simpl;
    (split; [|split; [destruct (http.rwStatus rw); reflexivity | reflexivity]]).
  - rewrite lookup_insert_ne by discriminate.
    rewrite lookup_insert_eq. reflexivity.
  - rewrite lookup_insert_eq. reflexivity.
Qed.

Variable a : Authenticator.
Variable fn : LoginJSON -> string -> http.ResponseWriter -> http.ResponseWriter.
Variable w : World.
Variable c : Config.
Variable rw : http.ResponseWriter.
Variable r : http.Request.
Variable p : Proc.

Let q := http.URL_Query (http.URL r).
Let qErr := http.Header_Get q "error".
Let code := http.Header_Get q "code".
Let urlState := http.Header_Get q "state".

Lemma CallbackFunc_missing_state :
  http.Request_Cookie r stateCookieName = None ->
  CallbackFunc a fn w c rw r p
  = Some (redirectAuthError a rw errorMissingState, p, []).
Proof. intros Hc. unfold CallbackFunc. rewrite Hc. reflexivity. Qed.

Lemma CallbackFunc_no_params (cookieState : string) :
  http.Request_Cookie r stateCookieName = Some cookieState ->
  qErr = "" -> code = "" ->
  CallbackFunc a fn w c rw r p
  = Some (http_Redirect rw r (errorURL a) http.StatusSeeOther, p, []).
Proof.
  intros Hc He Hcode. unfold CallbackFunc. rewrite Hc.
  fold q. fold qErr. fold code. rewrite He, Hcode. reflexivity.
Qed.

Lemma CallbackFunc_missing_code (cookieState : string) :
  http.Request_Cookie r stateCookieName = Some cookieState ->
  qErr <> "" -> code = "" ->
  CallbackFunc a fn w c rw r p
  = Some (redirectAuthError a rw errorMissingCode, p, []).
Proof.
  intros Hc He Hcode. unfold CallbackFunc. rewrite Hc.
  fold q. fold qErr. fold code. rewrite Hcode.
  apply String.eqb_neq in He. rewrite He. reflexivity.
Qed.

Lemma CallbackFunc_invalid_state (cookieState : string) :
  http.Request_Cookie r stateCookieName = Some cookieState ->
  code <> "" -> urlState <> cookieState ->
  CallbackFunc a fn w c rw r p
  = Some (redirectAuthError a rw errorInvalidState, p, []).
Proof.
  intros Hc Hcode Hs. unfold CallbackFunc. rewrite Hc.
  fold q. fold qErr. fold code. fold urlState.
  apply String.eqb_neq in Hcode, Hs. rewrite Hcode, Hs.
  rewrite andb_false_r. reflexivity.
Qed.

(** Past the checks: the client and the OAuth2 configuration are
    obtained and the code is exchanged. *)
Lemma CallbackFunc_exchange (cookieState : string)
  (f : World -> Config -> Proc -> (nat * loginMethod) * Proc)
  (client : clientRef) (p1 p2 : Proc) (addr : nat) (lm : loginMethod)
  (oauthConfig : oauth2.Config) :
  http.Request_Cookie r stateCookieName = Some cookieState ->
  code <> "" -> urlState = cookieState ->
  authFunc a = Some f ->
  clientFunc a w c p = (client, p1) ->
  f w c p1 = ((addr, lm), p2) ->
  oauth2Configs p2 !! addr = Some oauthConfig ->
  CallbackFunc a fn w c rw r p
  = match Exchange w oauthConfig client code with
    | inr err =>
        Some (redirectAuthError a rw errorInvalidCode, p2,
              [CallExchange oauthConfig client code])
    | inl token =>
        match login w lm rw token with
        | (rw1, inr err) =>
            Some (redirectAuthError a rw1 errorInternal, p2,
                  [CallExchange oauthConfig client code; CallLogin lm token])
        | (rw1, inl ls) =>
            Some (fn (toLoginJSON ls) (successURL a) rw1, p2,
                  [CallExchange oauthConfig client code; CallLogin lm token;
                   CallContinuation (toLoginJSON ls) (successURL a)])
        end
    end.
Proof.
  intros Hc Hcode Hs Hf Hclient Hauth Hcfg. unfold CallbackFunc. rewrite Hc.
  fold q. fold qErr. fold code. fold urlState.
  apply String.eqb_neq in Hcode. rewrite Hcode, andb_false_r.
  apply String.eqb_eq in Hs. rewrite Hs. simpl negb. cbv iota.
  rewrite Hclient, Hf, Hauth, Hcfg. reflexivity.
Qed.

End Callback.

(** C2, as the code has it.  The handler [CallbackFunc] returns
    checks the request in the order below, and every failure is the redirect to the
    error URL with the query [error=<category>&error_type=auth] and the
    status 303 (when no status was written before):
    - no state cookie: [missing_state];
    - [error] and [code] both empty or absent: plain redirect to the
      error URL, status 303, no query added;
    - [code] empty or absent, [error] not empty: [missing_code];
    - [code] not empty and [state] different from the state cookie:
      [invalid_state], and the handler makes no call at all, so no token
      exchange, and leaves the process state alone;
    - [code] not empty and [state] equal to the cookie: the code is
      exchanged; a failed exchange gives [invalid_code], a failed login
      gives [internal_error]. *)
Theorem CallbackFunc_failures_redirect :
  forall (ext : Externals) (a : Authenticator)
         (fn : LoginJSON -> string -> http.ResponseWriter -> http.ResponseWriter)
         (w : World) (c : Config) (rw : http.ResponseWriter) (r : http.Request)
         (p : Proc),
    let q := http.URL_Query (http.URL r) in
    let qErr := http.Header_Get q "error" in
    let code := http.Header_Get q "code" in
    let urlState := http.Header_Get q "state" in
    (http.Request_Cookie r stateCookieName = None ->
     exists out,
       CallbackFunc a fn w c rw r p = Some (out, p, [])
       /\ redirectsWithError a errorMissingState rw out)
    /\ (forall cookieState,
           http.Request_Cookie r stateCookieName = Some cookieState ->
           (qErr = "" -> code = "" ->
            exists out,
              CallbackFunc a fn w c rw r p = Some (out, p, [])
              /\ http.Header_Get (http.rwHeader out) "Location"
                 = redirectTarget r (errorURL a)
              /\ http.rwStatus out
                 = Some (match http.rwStatus rw with
                         | None => 303
                         | Some code => code
                         end))
           /\ (qErr <> "" -> code = "" ->
               exists out,
                 CallbackFunc a fn w c rw r p = Some (out, p, [])
                 /\ redirectsWithError a errorMissingCode rw out)
           /\ (code <> "" -> urlState <> cookieState ->
               exists out calls,
                 CallbackFunc a fn w c rw r p = Some (out, p, calls)
                 /\ calls = []
                 /\ noExchange calls
                 /\ redirectsWithError a errorInvalidState rw out)
           /\ (code <> "" -> urlState = cookieState ->
               forall f client p1 p2 addr lm oauthConfig,
                 authFunc a = Some f ->
                 clientFunc a w c p = (client, p1) ->
                 f w c p1 = ((addr, lm), p2) ->
                 oauth2Configs p2 !! addr = Some oauthConfig ->
                 (forall err,
                     Exchange w oauthConfig client code = inr err ->
                     exists out calls,
                       CallbackFunc a fn w c rw r p = Some (out, p2, calls)
                       /\ redirectsWithError a errorInvalidCode rw out)
                 /\ (forall token rw1 err,
                        Exchange w oauthConfig client code = inl token ->
                        login w lm rw token = (rw1, inr err) ->
                        exists out calls,
                          CallbackFunc a fn w c rw r p = Some (out, p2, calls)
                          /\ redirectsWithError a errorInternal rw1 out))).
Proof.
  intros ext a fn w c rw r p q qErr code urlState.
  assert (Hcat : forall x, In x callbackCategories ->
                           forall rw0, redirectsWithError a x rw0
                                         (redirectAuthError a rw0 x)).
  { intros x Hx rw0. apply redirectAuthError_spec. exact Hx. }
  split.
  - intros Hc. eexists. split; [apply CallbackFunc_missing_state; exact Hc|].
    apply Hcat. simpl. auto.
  - intros cookieState Hc. split; [|split; [|split]].
    + intros He Hcode. eexists.
      split; [apply (CallbackFunc_no_params a fn w c rw r p cookieState);
              assumption|].
      destruct (http_Redirect_spec rw r (errorURL a) http.StatusSeeOther)
        as (Hloc & Hst & _).
      split; [exact Hloc | exact Hst].
    + intros He Hcode. eexists.
      split; [apply (CallbackFunc_missing_code a fn w c rw r p cookieState);
              assumption|].
      apply Hcat. simpl. auto.
    + intros Hcode Hs. eexists. exists [].
      split; [apply (CallbackFunc_invalid_state a fn w c rw r p cookieState);
              assumption|].
      split; [reflexivity|].
      split; [intros cfg client cd []|].
      apply Hcat. simpl. auto.
    + intros Hcode Hs f client p1 p2 addr lm oauthConfig Hf Hclient Hauth Hcfg.
      pose proof (CallbackFunc_exchange a fn w c rw r p cookieState f client
                    p1 p2 addr lm oauthConfig Hc Hcode Hs Hf Hclient Hauth Hcfg)
        as Hrun.
      fold q in Hrun. fold code in Hrun.
      split.
      * intros err Hex. rewrite Hex in Hrun. eexists. eexists.
        split; [exact Hrun|]. apply Hcat. simpl. auto 6.
      * intros token rw1 err Hex Hlogin. rewrite Hex, Hlogin in Hrun.
        eexists. eexists. split; [exact Hrun|]. apply Hcat. simpl. auto 6.
Qed.

(** The theorem on callbacks to the console at [https://console.example]:
    one without state cookie, one whose [state] is not the cookie's. *)
Lemma CallbackFunc_failures_redirect_witness :
  let w := discovery_world 200 (Some example_metadata) in
  let c := config_for AuthSourceOpenShift "https://console.example" "/api/" in
  let fn := fun (_ : loginState) (_ : string) (rw : http.ResponseWriter) => rw in
  exists a,
    example_authenticator = Some a
    /\ errorLocation (ext := ExampleExternals) a errorMissingState
       = "https://console.example/error?error=missing_state&error_type=auth"
    /\ (exists out,
           CallbackFunc (ext := ExampleExternals) a fn w c http.newRecorder
             (callback_request "code=4%2FP7q&state=1f2e3d4c" None) Proc_init
           = Some (out, Proc_init, [])
           /\ redirectsWithError (ext := ExampleExternals) a errorMissingState
                http.newRecorder out)
    /\ (exists out calls,
           CallbackFunc (ext := ExampleExternals) a fn w c http.newRecorder
             (callback_request "code=4%2FP7q&state=1f2e3d4c" (Some "deadbeef"))
             Proc_init
           = Some (out, Proc_init, calls)
           /\ calls = []
           /\ noExchange (ext := ExampleExternals) calls
           /\ redirectsWithError (ext := ExampleExternals) a errorInvalidState
                http.newRecorder out).
Proof.
  intros w c fn.
  destruct example_authenticator_some as (a & Ha).
  exists a. split; [exact Ha|].
  split.
  { assert (H : option_map
                  (fun a => errorLocation (ext := ExampleExternals) a
                              errorMissingState) example_authenticator
                = Some "https://console.example/error?error=missing_state&error_type=auth")
      by (vm_compute; reflexivity).
    rewrite Ha in H. simpl in H. congruence. }
  split.
  - destruct (CallbackFunc_failures_redirect ExampleExternals a fn w c
                http.newRecorder
                (callback_request "code=4%2FP7q&state=1f2e3d4c" None)
                Proc_init) as [Hmissing _].
    apply Hmissing. reflexivity.
  - destruct (CallbackFunc_failures_redirect ExampleExternals a fn w c
                http.newRecorder
                (callback_request "code=4%2FP7q&state=1f2e3d4c"
                                  (Some "deadbeef"))
                Proc_init) as [_ Hcookie].
    destruct (Hcookie "deadbeef" eq_refl) as (_ & _ & Hstate & _).
    apply Hstate.
    + vm_compute. discriminate.
    + vm_compute. discriminate.
Defined.

(** The error URL of the example authenticator and the locations it
    redirects to. *)
Lemma example_authenticator_errorURL (a : Authenticator) :
  example_authenticator = Some a ->
  errorURL a = "https://console.example/error"
  /\ errorLocation (ext := ExampleExternals) a errorMissingCode
     = "https://console.example/error?error=missing_code&error_type=auth"
  /\ errorLocation (ext := ExampleExternals) a errorInvalidState
     = "https://console.example/error?error=invalid_state&error_type=auth".
Proof.
  intros Ha.
  assert (H : option_map
                (fun a => (errorURL a,
                           errorLocation (ext := ExampleExternals) a
                             errorMissingCode,
                           errorLocation (ext := ExampleExternals) a
                             errorInvalidState)) example_authenticator
              = Some ("https://console.example/error",
                      "https://console.example/error?error=missing_code&error_type=auth",
                      "https://console.example/error?error=invalid_state&error_type=auth"))
    by (vm_compute; reflexivity).
  rewrite Ha in H. simpl in H. injection H as -> -> ->. auto.
Qed.

(** C2 as it is worded fails: a callback whose [state] differs from the
    state cookie but which carries an [error] and no [code] is answered
    with [missing_code], not with [invalid_state]; one that carries
    neither [error] nor [code] is answered with the plain redirect. *)
Lemma CallbackFunc_state_mismatch_without_code :
  let w := discovery_world 200 (Some example_metadata) in
  let c := config_for AuthSourceOpenShift "https://console.example" "/api/" in
  let fn := fun (_ : loginState) (_ : string) (rw : http.ResponseWriter) => rw in
  let denied := callback_request "error=access_denied&state=xyz" (Some "abc") in
  let bare := callback_request "state=xyz" (Some "abc") in
  exists a out1 out2,
    example_authenticator = Some a
    /\ http.Request_Cookie denied stateCookieName = Some "abc"
    /\ http.Header_Get (http.URL_Query (http.URL denied)) "state" = "xyz"
    /\ CallbackFunc (ext := ExampleExternals) a fn w c http.newRecorder denied
         Proc_init
       = Some (out1, Proc_init, [])
    /\ http.Header_Get (http.rwHeader out1) "Location"
       = "https://console.example/error?error=missing_code&error_type=auth"
    /\ http.Header_Get (http.rwHeader out1) "Location"
       <> errorLocation (ext := ExampleExternals) a errorInvalidState
    /\ http.Request_Cookie bare stateCookieName = Some "abc"
    /\ http.Header_Get (http.URL_Query (http.URL bare)) "state" = "xyz"
    /\ CallbackFunc (ext := ExampleExternals) a fn w c http.newRecorder bare
         Proc_init
       = Some (out2, Proc_init, [])
    /\ http.Header_Get (http.rwHeader out2) "Location"
       = "https://console.example/error"
    /\ http.Header_Get (http.rwHeader out2) "Location"
       <> errorLocation (ext := ExampleExternals) a errorInvalidState.
Proof.
  intros w c fn denied bare.
  destruct example_authenticator_some as (a & Ha).
  destruct (example_authenticator_errorURL a Ha) as (Hurl & Hmissing & Hinvalid).
  destruct (redirectAuthError_spec (ext := ExampleExternals) a http.newRecorder
              errorMissingCode ltac:(simpl; auto)) as (Hloc1 & _).
  destruct (http_Redirect_spec (ext := ExampleExternals) http.newRecorder bare
              (errorURL a) http.StatusSeeOther) as (Hloc2 & _).
  exists a, (redirectAuthError (ext := ExampleExternals) a http.newRecorder
               errorMissingCode),
    (http_Redirect (ext := ExampleExternals) http.newRecorder bare (errorURL a)
                   http.StatusSeeOther).
  split; [exact Ha|].
  split; [reflexivity|].
  split; [vm_compute; reflexivity|].
  split.
  { apply (CallbackFunc_missing_code (ext := ExampleExternals) a fn w c
             http.newRecorder denied Proc_init "abc").
    - reflexivity.
    - vm_compute. discriminate.
    - vm_compute. reflexivity. }
  split; [rewrite Hloc1; exact Hmissing|].
  split; [rewrite Hloc1, Hmissing, Hinvalid; discriminate|].
  split; [reflexivity|].
  split; [vm_compute; reflexivity|].
  split.
  { apply (CallbackFunc_no_params (ext := ExampleExternals) a fn w c
             http.newRecorder bare Proc_init "abc").
    - reflexivity.
    - vm_compute. reflexivity.
    - vm_compute. reflexivity. }
  split; [rewrite Hloc2; exact Hurl|].
  rewrite Hloc2, Hinvalid. simpl. rewrite Hurl. discriminate.
Qed.

(** ** Construction *)

Section Construction.

Context {ext : Externals}.

Lemma Config_started_idem (c : Config) :
  Config_started (Config_started c) = Config_started c.
Proof.
  unfold Config_started.
  destruct (String.eqb (CookiePath c) "") eqn:E; simpl; [reflexivity|].
  rewrite E. reflexivity.
Qed.

(** [newUnstartedAuthenticator] leaves the [Config] alone when the first
    HTTP client cannot be built, and otherwise replaces an empty cookie
    path by [/], also when it then fails on the referer path. *)
Lemma newUnstartedAuthenticator_config (w : World) (c : Config) (p : Proc) :
  snd (fst (newUnstartedAuthenticator w c p))
  = match fst (newHTTPClient w (IssuerCA c) true p) with
    | inl _ => Config_started c
    | inr _ => c
    end.
Proof.
  unfold newUnstartedAuthenticator, Config_started.
  destruct (newHTTPClient w (IssuerCA c) true p) as [[cl|e] p1]; simpl;
    [|reflexivity].
  destruct (String.eqb (CookiePath c) ""); simpl;
    destruct (url_Parse _); reflexivity.
Qed.

Lemma newUnstartedAuthenticator_frame (w : World) (c : Config) (p : Proc) :
  snd (fst (newUnstartedAuthenticator w c p)) = c
  \/ snd (fst (newUnstartedAuthenticator w c p)) = Config_started c.
Proof.
  rewrite newUnstartedAuthenticator_config.
  destruct (fst (newHTTPClient w (IssuerCA c) true p)); auto.
Qed.

Lemma total_repeat (k : nat) :
  total (repeat backoff k) = Z.of_nat k * backoff.
Proof.
  induction k as [|k IH].
  - reflexivity.
  - change (total (repeat backoff (S k)))
      with (backoff + total (repeat backoff k)).
    rewrite IH. lia.
Qed.

Lemma repeat_snoc (k : nat) :
  (repeat backoff k ++ [backoff])%list = repeat backoff (S k).
Proof.
  induction k as [|k IH]; simpl; [reflexivity|]. rewrite IH. reflexivity.
Qed.

Lemma at_iteration_next (n : nat) (slept : list Z) (failures : list error)
  (err : error) :
  at_iteration n slept failures -> (n < 30)%nat ->
  at_iteration (S n) (slept ++ [backoff]) (failures ++ [err]).
Proof.
  intros (Hn & -> & Hf) Hlt. split; [lia|]. split.
  - apply repeat_snoc.
  - rewrite length_app. simpl. lia.
Qed.

Lemma steps_exceeded (n : nat) :
  (Z.of_nat n + 1 >? maxSteps) = true <-> (30 <= n)%nat.
Proof. unfold maxSteps. rewrite Z.gtb_gt. lia. Qed.

Lemma well_logged_intro (res : Authenticator + error) (c : Config) (p : Proc)
  (slept : list Z) (failures : list error) (att n : nat) :
  slept = repeat backoff n ->
  (n <= 30)%nat ->
  (att <= 31)%nat ->
  match res with
  | inl _ => att = S (length failures) /\ n = length failures
  | inr e =>
      (att = 31%nat /\ length failures = 31%nat /\ n = 30%nat
       /\ lastError failures = Some e)
      \/ (att = length failures /\ n = length failures)
  end ->
  well_logged (mkConstructed res c p slept failures att).
Proof.
  intros Hslept Hn Hatt Hres.
  assert (Hlen : length slept = n) by (rewrite Hslept; apply repeat_length).
  unfold well_logged; simpl. rewrite Hlen.
  split; [exact Hslept|]. split; [exact Hn|]. split; [exact Hatt|].
  split.
  - rewrite Hslept, total_repeat. unfold backoff, time.Second. lia.
  - exact Hres.
Qed.

(** The loop returns within [maxSteps + 1] iterations, and its logs are
    as [well_logged] says. *)
Lemma NewAuthenticator_loop_total (fuel : nat) :
  forall (worlds : nat -> World) (n : nat) (c : Config) (p : Proc)
         (slept : list Z) (failures : list error),
    at_iteration n slept failures ->
    (31 <= n + fuel)%nat ->
    exists r,
      NewAuthenticator_loop fuel worlds n (Z.of_nat n) c p slept failures
      = Some r
      /\ well_logged r.
Proof.
  induction fuel as [|fuel IH];
    intros worlds n c p slept failures Hinv Hfuel.
  - destruct Hinv as (Hn & _). lia.
  - pose proof Hinv as (Hn & Hslept & Hfail).
    simpl.
    destruct (newUnstartedAuthenticator (worlds n) c p) as [[[a|err] c1] p1].
    + destruct (discover (worlds n) c1 a p1) as [d p3].
      destruct (d_result d) as [[fallbackEndpoint fallbackLoginMethod]|err].
      * eexists. split; [reflexivity|].
        apply well_logged_intro with (n := n); [assumption | lia | lia |].
        split; lia.
      * destruct (Z.of_nat n + 1 >? maxSteps) eqn:Hsteps.
        -- apply steps_exceeded in Hsteps.
           eexists. split; [reflexivity|].
           apply well_logged_intro with (n := n); [assumption | lia | lia |].
           left. rewrite length_app. simpl.
           split; [lia|]. split; [lia|]. split; [lia|].
           unfold lastError. apply last_snoc.
        -- assert (Hlt : (n < 30)%nat).
           { destruct (Nat.lt_ge_cases n 30) as [Hlt|Hge]; [exact Hlt|].
             apply steps_exceeded in Hge. congruence. }
           replace (Z.of_nat n + 1) with (Z.of_nat (S n)) by lia.
           apply IH; [apply at_iteration_next; assumption | lia].
    + eexists. split; [reflexivity|].
      apply well_logged_intro with (n := n); [assumption | lia | lia |].
      right. split; lia.
Qed.

(** More fuel does not change a result. *)
Lemma NewAuthenticator_loop_fuel (fuel : nat) :
  forall (worlds : nat -> World) (n : nat) (steps : Z) (c : Config) (p : Proc)
         (slept : list Z) (failures : list error) (r : Constructed)
         (more : nat),
    NewAuthenticator_loop fuel worlds n steps c p slept failures = Some r ->
    NewAuthenticator_loop (fuel + more) worlds n steps c p slept failures
    = Some r.
Proof.
  induction fuel as [|fuel IH];
    intros worlds n steps c p slept failures r more Hrun.
  - discriminate.
  - simpl in *.
    destruct (newUnstartedAuthenticator (worlds n) c p) as [[[a|err] c1] p1];
      [|exact Hrun].
    destruct (discover (worlds n) c1 a p1) as [d p3].
    destruct (d_result d) as [[fallbackEndpoint fallbackLoginMethod]|err];
      [exact Hrun|].
    destruct (steps + 1 >? maxSteps); [exact Hrun|].
    apply IH. exact Hrun.
Qed.

(** One iteration in which the provider cannot be reached. *)
Lemma NewAuthenticator_loop_retry (fuel : nat) (worlds : nat -> World)
  (n : nat) (c c' : Config) (p : Proc) (slept : list Z)
  (failures : list error) :
  Config_started c' = Config_started c ->
  unstartedSucceeds (worlds n) c' ->
  discoveryFails (worlds n) (Config_started c) ->
  exists p' e,
    NewAuthenticator_loop (S fuel) worlds n (Z.of_nat n) c' p slept failures
    = if Z.of_nat n + 1 >? maxSteps
      then Some (mkConstructed (inr e) (Config_started c) p' slept
                               (failures ++ [e]) (S n))
      else NewAuthenticator_loop fuel worlds (S n) (Z.of_nat (S n))
             (Config_started c) p' (slept ++ [backoff]) (failures ++ [e]).
Proof.
  intros Hc Hun Hfail. simpl.
  destruct (Hun p) as (a & p1 & ->). rewrite Hc.
  destruct (Hfail a p1) as (e & He).
  destruct (discover (worlds n) (Config_started c) a p1) as [d p3].
  simpl in He. rewrite He. exists p3, e.
  replace (Z.of_nat (S n)) with (Z.of_nat n + 1) by lia. reflexivity.
Qed.

(** [k] iterations in which the provider cannot be reached, from the
    first iteration on. *)
Lemma NewAuthenticator_loop_retries (k : nat) :
  forall (fuel : nat) (worlds : nat -> World) (c : Config) (p : Proc),
    (k <= 30)%nat ->
    unreachable worlds c k ->
    exists p' failures,
      length failures = k
      /\ NewAuthenticator_loop (k + fuel) worlds 0 0 c p [] []
         = NewAuthenticator_loop fuel worlds k (Z.of_nat k)
             (match k with O => c | S _ => Config_started c end) p'
             (repeat backoff k) failures.
Proof.
  induction k as [|k IH]; intros fuel worlds c p Hk Hun.
  - exists p, []. split; reflexivity.
  - destruct (IH (S fuel) worlds c p ltac:(lia)) as (p' & fs & Hlen & Hrun).
    { intros n Hn. apply Hun. lia. }
    destruct (Hun k ltac:(lia)) as (Hu1 & Hu2 & Hd).
    set (c' := match k with O => c | S _ => Config_started c end) in *.
    assert (Hu : unstartedSucceeds (worlds k) c')
      by (destruct k; assumption).
    assert (Hc : Config_started c' = Config_started c)
      by (destruct k; [reflexivity | apply Config_started_idem]).
    destruct (NewAuthenticator_loop_retry fuel worlds k c c' p'
                (repeat backoff k) fs Hc Hu Hd) as (p'' & e & Hstep).
    exists p'', (fs ++ [e])%list.
    split; [rewrite length_app; simpl; lia|].
    replace (S k + fuel)%nat with (k + S fuel)%nat by lia.
    rewrite Hrun, Hstep.
    assert (Hno : (Z.of_nat k + 1 >? maxSteps) = false).
    { destruct (Z.of_nat k + 1 >? maxSteps) eqn:E; [|reflexivity].
      apply steps_exceeded in E. lia. }
    rewrite Hno, repeat_snoc. reflexivity.
Qed.

(** The provider stays unreachable: the run makes [maxSteps + 1]
    discoveries, sleeps [maxSteps] times and returns the error of the
    last discovery. *)
Lemma NewAuthenticator_unreachable (worlds : nat -> World) (c : Config)
  (p : Proc) :
  unreachable worlds c 31 ->
  exists r e,
    NewAuthenticator 31 worlds c p = Some r
    /\ result r = inr e
    /\ lastError (failures r) = Some e
    /\ length (failures r) = 31%nat
    /\ attempts r = 31%nat
    /\ slept r = repeat backoff 30
    /\ total (slept r) = 300 * time.Second.
Proof.
  intros Hun. unfold NewAuthenticator.
  destruct (NewAuthenticator_loop_retries 30 1 worlds c p ltac:(lia))
    as (p' & fs & Hlen & Hrun).
  { intros n Hn. apply Hun. lia. }
  change (30 + 1)%nat with 31%nat in Hrun. rewrite Hrun.
  destruct (Hun 30%nat ltac:(lia)) as (_ & Hu & Hd).
  destruct (NewAuthenticator_loop_retry 0 worlds 30 c (Config_started c) p'
              (repeat backoff 30) fs (Config_started_idem c) Hu Hd)
    as (p'' & e & Hstep).
  rewrite Hstep.
  change (Z.of_nat 30 + 1 >? maxSteps) with true. cbv iota.
  eexists. exists e. split; [reflexivity|]. simpl.
  split; [reflexivity|]. split; [apply last_snoc|].
  split; [rewrite length_app; simpl; lia|].
  split; [reflexivity|]. split; [reflexivity|].
  exact (total_repeat 30).
Qed.

(** The provider is reached at iteration [k] for the first time: the run
    returns the authenticator after [k + 1] discoveries and [k] sleeps. *)
Lemma NewAuthenticator_first_success (worlds : nat -> World) (c : Config)
  (p : Proc) (k : nat) :
  (k <= 30)%nat ->
  unreachable worlds c k ->
  unstartedSucceeds (worlds k) c ->
  unstartedSucceeds (worlds k) (Config_started c) ->
  discoverySucceeds (worlds k) (Config_started c) ->
  exists r a,
    NewAuthenticator 31 worlds c p = Some r
    /\ result r = inl a
    /\ attempts r = S k
    /\ length (failures r) = k
    /\ slept r = repeat backoff k.
Proof.
  intros Hk Hun Hu1 Hu2 Hd. unfold NewAuthenticator.
  destruct (NewAuthenticator_loop_retries k (31 - k) worlds c p Hk Hun)
    as (p' & fs & Hlen & Hrun).
  replace (k + (31 - k))%nat with 31%nat in Hrun by lia. rewrite Hrun.
  set (c' := match k with O => c | S _ => Config_started c end) in *.
  assert (Hu : unstartedSucceeds (worlds k) c') by (destruct k; assumption).
  assert (Hc : Config_started c' = Config_started c)
    by (destruct k; [reflexivity | apply Config_started_idem]).
  destruct (31 - k)%nat as [|fuel] eqn:Hfuel; [lia|]. simpl.
  destruct (Hu p') as (a & p1 & ->). rewrite Hc.
  destruct (Hd a p1) as ([fe flm] & Hres).
  destruct (discover (worlds k) (Config_started c) a p1) as [d p3].
  simpl in Hres. rewrite Hres.
  eexists. eexists. split; [reflexivity|]. simpl.
  repeat split; try reflexivity. exact Hlen.
Qed.

End Construction.

(** C7.  [NewAuthenticator] returns within [maxSteps + 1 = 31] iterations
    of its loop, whatever the worlds it meets, and more fuel does not
    change what it returns.  It sleeps [backoff = 10s] after a failed
    discovery, at most [maxSteps = 30] times, 300 seconds in all.  When
    the provider stays unreachable it makes 31 discoveries (the first
    one and 30 retries) and returns the error of the last one.  When the
    provider is reached for the first time at iteration [k], it returns
    the authenticator then, after [k] sleeps. *)
Theorem NewAuthenticator_bounded_retries :
  backoff = 10 * time.Second /\ maxSteps = 30
  /\ (forall (ext : Externals) (worlds : nat -> World) (c : Config) (p : Proc),
         exists r,
           NewAuthenticator 31 worlds c p = Some r
           /\ (forall fuel, (31 <= fuel)%nat ->
                            NewAuthenticator fuel worlds c p = Some r)
           /\ well_logged r)
  /\ (forall (ext : Externals) (worlds : nat -> World) (c : Config) (p : Proc),
         unreachable worlds c 31 ->
         exists r e,
           NewAuthenticator 31 worlds c p = Some r
           /\ result r = inr e
           /\ lastError (failures r) = Some e
           /\ length (failures r) = 31%nat
           /\ attempts r = 31%nat
           /\ slept r = repeat backoff 30
           /\ total (slept r) = 300 * time.Second)
  /\ (forall (ext : Externals) (worlds : nat -> World) (c : Config) (p : Proc)
             (k : nat),
         (k <= 30)%nat ->
         unreachable worlds c k ->
         unstartedSucceeds (worlds k) c ->
         unstartedSucceeds (worlds k) (Config_started c) ->
         discoverySucceeds (worlds k) (Config_started c) ->
         exists r a,
           NewAuthenticator 31 worlds c p = Some r
           /\ result r = inl a
           /\ attempts r = S k
           /\ length (failures r) = k
           /\ slept r = repeat backoff k).
Proof.
  split; [reflexivity|]. split; [reflexivity|]. split; [|split].
  - intros ext worlds c p.
    destruct (NewAuthenticator_loop_total 31 worlds 0 c p [] [])
      as (r & Hrun & Hlog).
    { split; [lia|]. split; reflexivity. }
    { lia. }
    exists r. split; [exact Hrun|]. split; [|exact Hlog].
    intros fuel Hfuel. replace fuel with (31 + (fuel - 31))%nat by lia.
    apply NewAuthenticator_loop_fuel. exact Hrun.
  - intros ext worlds c p. apply NewAuthenticator_unreachable.
  - intros ext worlds c p k. apply NewAuthenticator_first_success.
Qed.

Lemma newUnstartedAuthenticator_succeeds {ext : Externals} (w : World)
  (c : Config) (u : url.URL) :
  IssuerCA c = "" ->
  url_Parse (RefererPath c) = inl u ->
  unstartedSucceeds w c.
Proof.
  intros Hca Hparse p. unfold newUnstartedAuthenticator, Config_started.
  unfold newHTTPClient. rewrite Hca. simpl.
  destruct (String.eqb (CookiePath c) ""); simpl; rewrite Hparse;
    eexists; eexists; reflexivity.
Qed.

(** Without a network no discovery succeeds, in OpenShift mode. *)
Lemma newOpenShiftAuth_unreachable {ext : Externals} (w : World)
  (c : openShiftConfig) :
  (forall client method target, exists msg,
      Do w client method target = inr msg) ->
  exists e, newOpenShiftAuth w c = inr e.
Proof.
  intros Hdown. unfold newOpenShiftAuth.
  destruct (NewRequest "GET" _); [eauto|].
  destruct (Hdown (k8sClient c) "GET" (wellKnownURL (oc_issuerURL c)))
    as (msg & ->).
  eauto.
Qed.

Lemma discoveryFails_unreachable {ext : Externals} (w : World) (c : Config) :
  AuthSource c = AuthSourceOpenShift ->
  (forall client method target, exists msg,
      Do w client method target = inr msg) ->
  discoveryFails w c.
Proof.
  intros Hsrc Hdown a p. unfold discover. rewrite Hsrc. simpl.
  unfold authSourceFunc_OpenShift.
  destruct (newHTTPClient w (K8sCA c) true p) as [[client|e] p1]; simpl;
    [|eauto].
  destruct (clientFunc a w c p1) as [oauthClient p2].
  destruct (newOpenShiftAuth_unreachable w
              (mkOpenShiftConfig client oauthClient (IssuerURL c)
                 (CookiePath c) (SecureCookies c) (ClusterName c)
                 (CookieDomain c)) Hdown) as (e & ->).
  simpl. eauto.
Qed.

Lemma silent_unstartedSucceeds :
  unstartedSucceeds (ext := ExampleExternals) silent_world example_config.
Proof.
  eapply newUnstartedAuthenticator_succeeds; [reflexivity|].
  vm_compute. reflexivity.
Qed.

Lemma silent_discoveryFails :
  discoveryFails (ext := ExampleExternals) silent_world example_config.
Proof.
  apply discoveryFails_unreachable; [reflexivity|].
  intros client method target. exists "connection refused". reflexivity.
Qed.

Lemma example_config_started : Config_started example_config = example_config.
Proof. reflexivity. Qed.

(** The theorem when nothing answers: 31 discoveries, 30 sleeps of ten
    seconds, the last error returned. *)
Lemma NewAuthenticator_bounded_retries_witness :
  exists r,
    NewAuthenticator (ext := ExampleExternals) 31 (fun _ => silent_world)
      example_config Proc_init
    = Some r
    /\ result r = inr (ErrExternal "connection refused")
    /\ attempts r = 31%nat
    /\ total (slept r) = 300 * time.Second.
Proof.
  destruct NewAuthenticator_bounded_retries as (_ & _ & _ & Hunreachable & _).
  destruct (Hunreachable ExampleExternals (fun _ => silent_world)
              example_config Proc_init)
    as (r & e & Hrun & Hres & Hlast & Hlen & Hatt & Hslept & Htotal).
  { intros n Hn. rewrite example_config_started.
    split; [|split].
    - apply silent_unstartedSucceeds.
    - apply silent_unstartedSucceeds.
    - apply silent_discoveryFails. }
  exists r. split; [exact Hrun|].
  split; [|split; assumption].
  assert (Hcompute :
            option_map (fun r => match result r with
                                 | inl _ => None
                                 | inr e => Some e
                                 end)
              (NewAuthenticator (ext := ExampleExternals) 31
                 (fun _ => silent_world) example_config Proc_init)
            = Some (Some (ErrExternal "connection refused")))
    by (vm_compute; reflexivity).
  rewrite Hrun in Hcompute. simpl in Hcompute. rewrite Hres in Hcompute.
  congruence.
Defined.

(** *** The [Config] behind the pointer *)

Section ConfigFrame.

Context {ext : Externals}.

Lemma Config_set_CookiePath_back (c : Config) (v : string) :
  Config_set_CookiePath (Config_set_CookiePath c v) (CookiePath c) = c.
Proof. destruct c; reflexivity. Qed.

Lemma Config_set_CookiePath_same (c : Config) :
  Config_set_CookiePath c (CookiePath c) = c.
Proof. destruct c; reflexivity. Qed.

Lemma Config_started_frame (c : Config) :
  Config_set_CookiePath (Config_started c) (CookiePath c) = c
  /\ (CookiePath c <> "" -> Config_started c = c)
  /\ (CookiePath c = "" -> CookiePath (Config_started c) = "/").
Proof.
  unfold Config_started.
  destruct (String.eqb (CookiePath c) "") eqn:E.
  - apply String.eqb_eq in E.
    split; [apply Config_set_CookiePath_back|].
    split; [intros Hne; contradiction | intros _; reflexivity].
  - apply String.eqb_neq in E.
    split; [apply Config_set_CookiePath_same|].
    split; [reflexivity | intros He; contradiction].
Qed.

(** Once the cookie path has its default, the loop never changes the
    [Config] again. *)
Lemma NewAuthenticator_loop_config (fuel : nat) :
  forall (worlds : nat -> World) (n : nat) (steps : Z) (c : Config) (p : Proc)
         (slept : list Z) (failures : list error) (r : Constructed),
    Config_started c = c ->
    NewAuthenticator_loop fuel worlds n steps c p slept failures = Some r ->
    config r = c.
Proof.
  induction fuel as [|fuel IH];
    intros worlds n steps c p slept failures r Hc Hrun.
  - discriminate.
  - simpl in Hrun.
    pose proof (newUnstartedAuthenticator_frame (worlds n) c p) as Hframe.
    rewrite Hc in Hframe.
    destruct (newUnstartedAuthenticator (worlds n) c p) as [[[a|err] c1] p1];
      simpl in Hframe.
    + assert (c1 = c) by (destruct Hframe; assumption). subst c1.
      destruct (discover (worlds n) c a p1) as [d p3].
      destruct (d_result d) as [[fe flm]|err].
      * injection Hrun as <-. reflexivity.
      * destruct (steps + 1 >? maxSteps).
        -- injection Hrun as <-. reflexivity.
        -- eapply IH; eassumption.
    + injection Hrun as <-. simpl. destruct Hframe; assumption.
Qed.

Lemma newUnstartedAuthenticator_ok (w : World) (c c1 : Config) (p p1 : Proc)
  (a : Authenticator) :
  newUnstartedAuthenticator w c p = (inl a, c1, p1) ->
  c1 = Config_started c
  /\ exists cl, newHTTPClient w (IssuerCA c) true p = (inl cl, p1).
Proof.
  unfold newUnstartedAuthenticator, Config_started.
  destruct (newHTTPClient w (IssuerCA c) true p) as [[cl|e] p2];
    [|discriminate].
  destruct (String.eqb (CookiePath c) ""); simpl;
    destruct (url_Parse _); try discriminate;
    intros Heq; injection Heq as _ <- <-; eauto.
Qed.

Lemma NewAuthenticator_config (fuel : nat) (worlds : nat -> World)
  (c : Config) (p : Proc) (r : Constructed) :
  NewAuthenticator fuel worlds c p = Some r ->
  config r = match fst (newHTTPClient (worlds 0%nat) (IssuerCA c) true p) with
             | inl _ => Config_started c
             | inr _ => c
             end.
Proof.
  unfold NewAuthenticator. destruct fuel as [|fuel]; [discriminate|].
  simpl. intros Hrun.
  pose proof (newUnstartedAuthenticator_config (worlds 0%nat) c p) as Hcfg.
  destruct (newUnstartedAuthenticator (worlds 0%nat) c p)
    as [[[a|err] c1] p1] eqn:Hun; simpl in Hcfg.
  - destruct (newUnstartedAuthenticator_ok _ _ _ _ _ _ Hun) as (Hc1 & _).
    destruct (discover (worlds 0%nat) c1 a p1) as [d p3].
    destruct (d_result d) as [[fe flm]|err'].
    + injection Hrun as <-. exact Hcfg.
    + change (0 + 1 >? maxSteps) with false in Hrun. cbv iota in Hrun.
      rewrite <- Hcfg.
      eapply NewAuthenticator_loop_config; [|exact Hrun].
      rewrite Hc1. apply Config_started_idem.
  - injection Hrun as <-. exact Hcfg.
Qed.

End ConfigFrame.

(** C8, as the code has it.  Construction writes to the [Config] in one
    place: [newUnstartedAuthenticator], once its first HTTP client is
    built, replaces an empty [CookiePath] by [/].  Every other field is
    unchanged after [NewAuthenticator] returns, whether it succeeds or
    fails, and so is a [CookiePath] that was not empty. *)
Theorem NewAuthenticator_changes_only_empty_CookiePath :
  forall (ext : Externals) (fuel : nat) (worlds : nat -> World) (c : Config)
         (p : Proc) (r : Constructed),
    NewAuthenticator fuel worlds c p = Some r ->
    config r
    = match fst (newHTTPClient (worlds 0%nat) (IssuerCA c) true p) with
      | inl _ => Config_started c
      | inr _ => c
      end
    /\ Config_set_CookiePath (config r) (CookiePath c) = c
    /\ (CookiePath c <> "" -> config r = c)
    /\ (CookiePath (config r) = CookiePath c \/
        (CookiePath c = "" /\ CookiePath (config r) = "/")).
Proof.
  intros ext fuel worlds c p r Hrun.
  pose proof (NewAuthenticator_config fuel worlds c p r Hrun) as Hcfg.
  destruct (Config_started_frame c) as (Hback & Hsame & Hdefault).
  split; [exact Hcfg|].
  destruct (fst (newHTTPClient (worlds 0%nat) (IssuerCA c) true p));
    rewrite Hcfg.
  - split; [exact Hback|]. split; [exact Hsame|].
    destruct (string_dec (CookiePath c) "") as [He|Hne].
    + right. split; [exact He | apply Hdefault; exact He].
    + left. rewrite (Hsame Hne). reflexivity.
  - split; [apply Config_set_CookiePath_same|].
    split; [reflexivity|]. left. reflexivity.
Qed.

(** The theorem on the console's configuration, whose cookie path is
    [/api/]: construction leaves it as it is. *)
Lemma NewAuthenticator_changes_only_empty_CookiePath_witness :
  exists r,
    constructed_example = Some r /\ config r = example_config.
Proof.
  assert (Hsome : option_map (fun _ => tt) constructed_example = Some tt)
    by (vm_compute; reflexivity).
  destruct constructed_example as [r|] eqn:Hrun; [|discriminate].
  exists r. split; [reflexivity|].
  destruct (NewAuthenticator_changes_only_empty_CookiePath ExampleExternals 31
              (fun _ => discovery_world 200 (Some example_metadata))
              example_config Proc_init r Hrun)
    as (_ & _ & Hsame & _).
  apply Hsame. discriminate.
Defined.

(** C8 as it is worded fails: a [Config] with an empty [CookiePath] comes
    back from a successful construction with the [CookiePath] [/]. *)
Lemma NewAuthenticator_mutates_empty_CookiePath :
  exists r a,
    NewAuthenticator (ext := ExampleExternals) 31
      (fun _ => discovery_world 200 (Some example_metadata))
      (config_for AuthSourceOpenShift "https://console.example" "")
      Proc_init
    = Some r
    /\ result r = inl a
    /\ CookiePath (config_for AuthSourceOpenShift "https://console.example" "")
       = ""
    /\ CookiePath (config r) = "/"
    /\ config r <> config_for AuthSourceOpenShift "https://console.example" "".
Proof.
  set (run := NewAuthenticator (ext := ExampleExternals) 31
                (fun _ => discovery_world 200 (Some example_metadata))
                (config_for AuthSourceOpenShift "https://console.example" "")
                Proc_init).
  assert (H : option_map
                (fun r => (match result r with
                           | inl _ => true
                           | inr _ => false
                           end, CookiePath (config r))) run
              = Some (true, "/"))
    by (vm_compute; reflexivity).
  destruct run as [r|]; [|discriminate]. simpl in H.
  destruct (result r) as [a|e] eqn:Hres; [|discriminate].
  injection H as Hpath.
  exists r, a.
  split; [reflexivity|]. split; [exact Hres|]. split; [reflexivity|].
  split; [exact Hpath|].
  intros Heq. rewrite Heq in Hpath. discriminate.
Qed.

(** *** [authFunc] *)

Section AuthFunc.

Context {ext : Externals}.

Lemma newHTTPClient_keeps_oauth2Configs (w : World) (issuerCA : string)
  (m : bool) (p : Proc) :
  oauth2Configs (snd (newHTTPClient w issuerCA m p)) = oauth2Configs p.
Proof.
  destruct (newHTTPClient_cases w issuerCA m p)
    as [ (? & E) | [ (? & ? & E) | [ (data & a & ? & ? & ? & E)
       | [ (data & ? & ? & ? & ? & E)
         | (data & cl & ? & ? & ? & ? & ? & ? & E) ] ] ] ];
    rewrite E; simpl; try reflexivity.
  destruct m; reflexivity.
Qed.

Lemma newUnstartedAuthenticator_clientFunc (w : World) (c c1 : Config)
  (p p1 : Proc) (a : Authenticator) :
  newUnstartedAuthenticator w c p = (inl a, c1, p1) ->
  clientFunc_keeps a.
Proof.
  unfold newUnstartedAuthenticator.
  destruct (newHTTPClient w (IssuerCA c) true p) as [[cl|e] p2];
    [|discriminate].
  destruct (url_Parse _); [|discriminate].
  intros Heq. injection Heq as <- _ _.
  intros w' c' p'. simpl.
  pose proof (newHTTPClient_keeps_oauth2Configs w' (IssuerCA c') true p') as Hk.
  destruct (newHTTPClient w' (IssuerCA c') true p') as [[cl'|e'] p'']; exact Hk.
Qed.

Lemma authSourceFunc_OpenShift_keeps (a : Authenticator) (w : World)
  (c : Config) (p : Proc) :
  clientFunc_keeps a ->
  oauth2Configs (snd (authSourceFunc_OpenShift a w c p)) = oauth2Configs p.
Proof.
  intros Hk. unfold authSourceFunc_OpenShift.
  pose proof (newHTTPClient_keeps_oauth2Configs w (K8sCA c) true p) as H1.
  destruct (newHTTPClient w (K8sCA c) true p) as [[cl|e] p1]; simpl in H1;
    [|exact H1].
  pose proof (Hk w c p1) as H2.
  destruct (clientFunc a w c p1) as [oc p2]. simpl in H2.
  destruct (newOpenShiftAuth w _) as [[ep o]|e]; simpl; congruence.
Qed.

(** What a call of the closure [mk_authFunc] does, for a re-discovery
    that keeps the [oauth2.Config]s allocated so far: it allocates one
    new [oauth2.Config] from the [Config], with the endpoint of the
    re-discovery and its login method, or with the fallback pair when
    the re-discovery fails. *)
Lemma mk_authFunc_spec
  (asf : World -> Config -> Proc
         -> ((oauth2.Endpoint * loginMethod) + error) * Proc)
  (E0 : oauth2.Endpoint) (L0 : loginMethod) (w : World) (c : Config)
  (p : Proc) :
  oauth2Configs (snd (asf w c p)) = oauth2Configs p ->
  exists addr lm p' cfg,
    mk_authFunc asf E0 L0 w c p = ((addr, lm), p')
    /\ addr = length (oauth2Configs p)
    /\ oauth2Configs p !! addr = None
    /\ oauth2Configs p' = (oauth2Configs p ++ [cfg])%list
    /\ oauth2Configs p' !! addr = Some cfg
    /\ oauth2.ClientID cfg = ClientID c
    /\ oauth2.ClientSecret cfg = ClientSecret c
    /\ oauth2.RedirectURL cfg = RedirectURL c
    /\ oauth2.Scopes cfg = Scope c
    /\ match fst (asf w c p) with
       | inl (E, L) => oauth2.Endpoint_ cfg = E /\ lm = L
       | inr _ => oauth2.Endpoint_ cfg = E0 /\ lm = L0
       end.
Proof.
  intros Hk. unfold mk_authFunc.
  destruct (asf w c p) as [[[E L]|e] p1]; simpl in *;
    (eexists; eexists; eexists; eexists;
     split; [reflexivity|]; simpl; rewrite Hk;
     split; [reflexivity|];
     split; [apply lookup_ge_None_2; lia|];
     split; [reflexivity|];
     split; [rewrite lookup_app_r by lia; rewrite Nat.sub_diag; reflexivity|];
     repeat split; reflexivity).
Qed.

Lemma NewAuthenticator_loop_built (fuel : nat) :
  forall (worlds : nat -> World) (n : nat) (steps : Z) (c : Config) (p : Proc)
         (slept : list Z) (failures : list error) (r : Constructed)
         (a : Authenticator),
    NewAuthenticator_loop fuel worlds n steps c p slept failures = Some r ->
    result r = inl a ->
    exists asf E0 L0,
      built_with a asf E0 L0
      /\ (exists q, fst (asf (worlds (attempts r - 1)%nat) (config r) q)
                    = inl (E0, L0))
      /\ (AuthSource (config r) = AuthSourceOpenShift ->
          asf = authSourceFunc_OpenShift a)
      /\ (AuthSource (config r) <> AuthSourceOpenShift ->
          exists o, L0 = LMOIDC o
                    /\ asf = authSourceFunc_OIDC (inl (E0, o))).
Proof.
  induction fuel as [|fuel IH];
    intros worlds n steps c p slept failures r a Hrun Hres.
  - discriminate.
  - simpl in Hrun.
    destruct (newUnstartedAuthenticator (worlds n) c p)
      as [[[a0|err] c1] p1] eqn:Hun.
    2:{ injection Hrun as <-. discriminate. }
    pose proof (newUnstartedAuthenticator_clientFunc _ _ _ _ _ _ Hun) as Hkeep.
    destruct (discover (worlds n) c1 a0 p1) as [d p3] eqn:Hd.
    destruct (d_result d) as [[E0 L0]|err] eqn:Hdres.
    2:{ destruct (steps + 1 >? maxSteps).
        - injection Hrun as <-. discriminate.
        - eapply IH; eassumption. }
    injection Hrun as <-. simpl in Hres. injection Hres as <-.
    simpl. rewrite Nat.sub_0_r.
    unfold discover in Hd.
    destruct (AuthSource c1 =? AuthSourceOpenShift) eqn:Hsrc.
    + destruct (authSourceFunc_OpenShift a0 (worlds n) c1 p1)
        as [res q3] eqn:Hasf.
      injection Hd as <- <-. simpl in *.
      exists (authSourceFunc_OpenShift a0), E0, L0.
      split; [split; [reflexivity|]|].
      { intros w c' q. apply authSourceFunc_OpenShift_keeps. exact Hkeep. }
      split; [exists p1; rewrite Hasf; exact Hdres|].
      split; [intros _; reflexivity|].
      intros Hne. apply Z.eqb_eq in Hsrc. contradiction.
    + destruct (clientFunc a0 (worlds n) c1 p1) as [client p2].
      destruct (newOIDCAuth (worlds n) _) as [[ep o]|msg] eqn:Hoidc;
        simpl in Hd; injection Hd as <- <-; simpl in *;
        [|discriminate].
      injection Hdres as <- <-.
      exists (authSourceFunc_OIDC (inl (ep, o))), ep, (LMOIDC o).
      split; [split; [reflexivity | intros w c' q; reflexivity]|].
      split; [exists p1; reflexivity|].
      split.
      * intros Heq. apply Z.eqb_neq in Hsrc. contradiction.
      * intros _. exists o. split; reflexivity.
Qed.

(** In OpenShift mode the authenticator looks users up with
    [getOpenShiftUser]. *)
Lemma NewAuthenticator_loop_userFunc (fuel : nat) :
  forall (worlds : nat -> World) (n : nat) (steps : Z) (c : Config) (p : Proc)
         (slept : list Z) (failures : list error) (r : Constructed)
         (a : Authenticator),
    NewAuthenticator_loop fuel worlds n steps c p slept failures = Some r ->
    result r = inl a ->
    AuthSource (config r) = AuthSourceOpenShift ->
    userFunc a = Some (fun _ r => getOpenShiftUser r).
Proof.
  induction fuel as [|fuel IH];
    intros worlds n steps c p slept failures r a Hrun Hres Hsrc.
  - discriminate.
  - simpl in Hrun.
    destruct (newUnstartedAuthenticator (worlds n) c p)
      as [[[a0|err] c1] p1] eqn:Hun.
    2:{ injection Hrun as <-. discriminate. }
    destruct (discover (worlds n) c1 a0 p1) as [d p3] eqn:Hd.
    destruct (d_result d) as [[E0 L0]|err] eqn:Hdres.
    2:{ destruct (steps + 1 >? maxSteps).
        - injection Hrun as <-. discriminate.
        - eapply IH; eassumption. }
    injection Hrun as <-. simpl in Hres, Hsrc. injection Hres as <-.
    unfold discover in Hd. apply Z.eqb_eq in Hsrc. rewrite Hsrc in Hd.
    destruct (authSourceFunc_OpenShift a0 (worlds n) c1 p1) as [res q3].
    injection Hd as <- <-. reflexivity.
Qed.

Lemma NewAuthenticator_userFunc_OpenShift (fuel : nat) (worlds : nat -> World)
  (c : Config) (p : Proc) (r : Constructed) (a : Authenticator) :
  NewAuthenticator fuel worlds c p = Some r ->
  result r = inl a ->
  AuthSource (config r) = AuthSourceOpenShift ->
  userFunc a = Some (fun _ r => getOpenShiftUser r).
Proof. apply NewAuthenticator_loop_userFunc. Qed.

End AuthFunc.

(** C9, as the code has it.  The [authFunc] of a constructed
    authenticator is a closure over the endpoint and login method that
    the discovery of the construction returned.  Every call allocates a
    new [oauth2.Config] (at an address that was free before, leaving the
    ones allocated earlier as they are) from the current [Config]; when
    the re-discovery of the call succeeds the configuration carries the
    endpoint just discovered and the call returns the login method just
    discovered; when it fails the call returns no error but the endpoint
    and login method captured at construction. *)
Theorem authFunc_rebuilds_and_falls_back :
  forall (ext : Externals) (fuel : nat) (worlds : nat -> World) (c : Config)
         (p : Proc) (r : Constructed) (a : Authenticator),
    NewAuthenticator fuel worlds c p = Some r ->
    result r = inl a ->
    exists f asf E0 L0,
      authFunc a = Some f
      /\ (exists q, fst (asf (worlds (attempts r - 1)%nat) (config r) q)
                    = inl (E0, L0))
      /\ (AuthSource (config r) = AuthSourceOpenShift ->
          asf = authSourceFunc_OpenShift a)
      /\ (AuthSource (config r) <> AuthSourceOpenShift ->
          exists o, L0 = LMOIDC o /\ asf = authSourceFunc_OIDC (inl (E0, o)))
      /\ forall (w : World) (c' : Config) (p0 : Proc),
           exists addr lm p' cfg,
             f w c' p0 = ((addr, lm), p')
             /\ addr = length (oauth2Configs p0)
             /\ oauth2Configs p0 !! addr = None
             /\ oauth2Configs p' = (oauth2Configs p0 ++ [cfg])%list
             /\ oauth2Configs p' !! addr = Some cfg
             /\ oauth2.ClientID cfg = ClientID c'
             /\ oauth2.ClientSecret cfg = ClientSecret c'
             /\ oauth2.RedirectURL cfg = RedirectURL c'
             /\ oauth2.Scopes cfg = Scope c'
             /\ match fst (asf w c' p0) with
                | inl (E, L) => oauth2.Endpoint_ cfg = E /\ lm = L
                | inr _ => oauth2.Endpoint_ cfg = E0 /\ lm = L0
                end.
Proof.
  intros ext fuel worlds c p r a Hrun Hres.
  destruct (NewAuthenticator_loop_built fuel worlds 0 0 c p [] [] r a Hrun Hres)
    as (asf & E0 & L0 & (Hf & Hkeep) & Hq & Hos & Hoidc).
  exists (mk_authFunc asf E0 L0), asf, E0, L0.
  split; [exact Hf|]. split; [exact Hq|]. split; [exact Hos|].
  split; [exact Hoidc|].
  intros w c' p0. apply mk_authFunc_spec. apply Hkeep.
Qed.

(** The theorem on the authenticator of the console at
    [https://console.example]: a call of its [authFunc] while the
    provider answers yields a new configuration with the discovered
    endpoint. *)
Lemma authFunc_rebuilds_and_falls_back_witness :
  exists r a f,
    constructed_example = Some r
    /\ result r = inl a
    /\ authFunc a = Some f
    /\ exists addr lm p' cfg,
         f (discovery_world 200 (Some example_metadata)) (config r) (proc r)
         = ((addr, lm), p')
         /\ addr = length (oauth2Configs (proc r))
         /\ oauth2Configs p' !! addr = Some cfg
         /\ oauth2.ClientID cfg = "console".
Proof.
  assert (Hok : option_map (fun r => (match result r with
                                      | inl _ => true
                                      | inr _ => false
                                      end, ClientID (config r)))
                           constructed_example = Some (true, "console"))
    by (vm_compute; reflexivity).
  destruct constructed_example as [r|] eqn:Hrun; [|discriminate].
  simpl in Hok.
  destruct (result r) as [a|e] eqn:Hres; [|discriminate].
  injection Hok as Hid.
  destruct (authFunc_rebuilds_and_falls_back ExampleExternals 31
              (fun _ => discovery_world 200 (Some example_metadata))
              example_config Proc_init r a Hrun Hres)
    as (f & asf & E0 & L0 & Hf & _ & _ & _ & Hcall).
  exists r, a, f. split; [reflexivity|]. split; [exact Hres|].
  split; [exact Hf|].
  destruct (Hcall (discovery_world 200 (Some example_metadata)) (config r)
              (proc r))
    as (addr & lm & p' & cfg & H1 & H2 & _ & _ & H5 & H6 & _).
  exists addr, lm, p', cfg.
  split; [exact H1|]. split; [exact H2|]. split; [exact H5|].
  rewrite H6. exact Hid.
Defined.

(** C9 as it is worded fails: the authenticator was constructed while
    the OAuth server was at [https://oauth.example]; a call of
    [authFunc] then discovered it at [https://login.example]; the next
    call, which could not reach the provider, returned the endpoint of
    [https://oauth.example], not the one of the last successful
    discovery. *)
Lemma authFunc_fallback_is_not_last_discovery :
  exists a p1 p2,
    example_authenticator = Some a
    /\ authFunc_yields a (discovery_world 200 (Some moved_metadata))
         example_config Proc_init
       = Some (oauth2.mkEndpoint "https://login.example/authorize"
                                 "https://login.example/token",
               mkSpecialAuthURLs "https://login.example/token/request"
                                 "https://login.example/logout", p1)
    /\ authFunc_yields a silent_world example_config p1
       = Some (oauth2.mkEndpoint "https://oauth.example/authorize"
                                 "https://oauth.example/token",
               mkSpecialAuthURLs "https://oauth.example/token/request"
                                 "https://oauth.example/logout", p2).
Proof.
  destruct example_authenticator_some as (a & Ha).
  pose (yields := fun w p =>
          match example_authenticator with
          | Some a => authFunc_yields a w example_config p
          | None => None
          end).
  pose (after := fun w p =>
          match yields w p with
          | Some (_, _, p') => p'
          | None => p
          end).
  pose (p1 := after (discovery_world 200 (Some moved_metadata)) Proc_init).
  pose (p2 := after silent_world p1).
  assert (H1 : yields (discovery_world 200 (Some moved_metadata)) Proc_init
               = Some (oauth2.mkEndpoint "https://login.example/authorize"
                                         "https://login.example/token",
                       mkSpecialAuthURLs "https://login.example/token/request"
                                         "https://login.example/logout", p1))
    by (vm_compute; reflexivity).
  assert (H2 : yields silent_world p1
               = Some (oauth2.mkEndpoint "https://oauth.example/authorize"
                                         "https://oauth.example/token",
                       mkSpecialAuthURLs "https://oauth.example/token/request"
                                         "https://oauth.example/logout", p2))
    by (vm_compute; reflexivity).
  unfold yields in H1, H2. rewrite Ha in H1, H2.
  exists a, p1, p2. auto.
Qed.

Lemma example_authenticator_userFunc (a : Authenticator) :
  example_authenticator = Some a ->
  userFunc a = Some (fun _ r => getOpenShiftUser (ext := ExampleExternals) r).
Proof.
  unfold example_authenticator.
  assert (Hsrc : option_map (fun r => AuthSource (config r)) constructed_example
                 = Some AuthSourceOpenShift)
    by (vm_compute; reflexivity).
  destruct constructed_example as [r|] eqn:Hrun; [|discriminate].
  simpl in Hsrc. injection Hsrc as Hsrc.
  destruct (result r) as [a'|e] eqn:Hres; [|discriminate].
  intros Ha. injection Ha as <-.
  eapply NewAuthenticator_userFunc_OpenShift; eassumption.
Qed.

(** The theorem on one client: after the login response its requests
    authenticate, after the logout response they do not. *)
Lemma openShiftAuth_logout_clears_session_witness :
  let w := discovery_world 200 (Some example_metadata) in
  let o := example_openShiftAuth in
  let r0 := request_with_cookies [] in
  let jar1 :=
    Jar.receive []
      (fst (openShiftAuth_login (ext := ExampleExternals) w o http.newRecorder
              (oauth2.mkToken "sha256~abc" 0))) in
  let jar2 :=
    Jar.receive jar1
      (openShiftAuth_logout (ext := ExampleExternals) o http.newRecorder r0) in
  exists a,
    example_authenticator = Some a
    /\ Authenticate a w (request_with_cookies (Jar.pairs jar1))
       = Some (inl (mkUser "" "" "sha256~abc"))
    /\ exists e,
         Authenticate a w (request_with_cookies (Jar.pairs jar2))
         = Some (inr e).
Proof.
  intros w o r0 jar1 jar2.
  destruct example_authenticator_some as (a & Ha).
  exists a. split; [exact Ha|].
  pose proof (example_authenticator_userFunc a Ha) as Huser.
  split.
  - unfold Authenticate. rewrite Huser. vm_compute. reflexivity.
  - destruct (openShiftAuth_logout_clears_session ExampleExternals o
                http.newRecorder r0)
      as (cookie & Heq & _ & _ & _ & _ & Hjar).
    assert (Hcookie : cookie = clearingCookie (ext := ExampleExternals) o).
    { rewrite (openShiftAuth_logout_eq (ext := ExampleExternals)) in Heq.
      unfold http.WriteHeader, http.SetCookie, http.newRecorder in Heq.
      simpl in Heq. injection Heq as Heq. symmetry. exact Heq. }
    subst cookie.
    destruct (Hjar jar1 w a (request_with_cookies (Jar.pairs jar2)))
      as (e & He & _).
    + intros c Hin _. vm_compute in Hin.
      destruct Hin as [<-|[]]. reflexivity.
    + reflexivity.
    + intros nv Hnv. exact Hnv.
    + exact Huser.
    + exists e. exact He.
Defined.

(** The cookie [logout] sets carries no [Max-Age] attribute, whatever
    the login method: a client that receives the logout response stores
    that cookie, it does not drop the session cookie's name. *)
Lemma openShiftAuth_logout_cookie_is_stored {ext : Externals}
  (o : openShiftAuth) (jar : list http.Cookie) (r0 : http.Request) :
  http.MaxAge_attribute (clearingCookie o) = None
  /\ In (clearingCookie o)
        (Jar.receive jar (openShiftAuth_logout o http.newRecorder r0))
  /\ In (GetCookieName (o_clusterName o), "")
        (Jar.pairs
           (Jar.receive jar (openShiftAuth_logout o http.newRecorder r0))).
Proof.
  assert (Hin : In (clearingCookie o)
                   (Jar.receive jar
                      (openShiftAuth_logout o http.newRecorder r0))).
  { rewrite openShiftAuth_logout_eq. unfold Jar.receive. simpl.
    rewrite Jar_set_clearing. apply in_or_app. right. left. reflexivity. }
  split; [reflexivity|]. split; [exact Hin|].
  unfold Jar.pairs. apply in_map_iff.
  exists (clearingCookie o). split; [reflexivity | exact Hin].
Qed.

(** C5.  The zero max-age of [logout] does not force the deletion of
    the session cookie, which the comment in [logout] announces.  A
    client holds the session cookie
    of a login for the access token [sha256~abc] and receives the
    response of [logout].  The one cookie of that response has an empty
    value and [MaxAge] 0, for which [net/http] writes no [Max-Age]
    attribute; the status is 204.  So the client does not delete the
    session cookie: its store still holds [openshift-session-token],
    with an empty value.  [getOpenShiftUser] fails on the next request
    because that value is empty, not because the cookie is gone.  Had
    the cookie a negative [MaxAge], the attribute would be [Max-Age=0]
    and the store would be empty. *)
Theorem openShiftAuth_logout_keeps_empty_cookie :
  let w := discovery_world 200 (Some example_metadata) in
  let o := example_openShiftAuth in
  let r0 := request_with_cookies [] in
  let jar1 :=
    Jar.receive []
      (fst (openShiftAuth_login (ext := ExampleExternals) w o http.newRecorder
              (oauth2.mkToken "sha256~abc" 0))) in
  let response :=
    openShiftAuth_logout (ext := ExampleExternals) o http.newRecorder r0 in
  let jar2 := Jar.receive jar1 response in
  let deleting :=
    http.mkCookie "openshift-session-token" "" "/api/" "" (-1) true true
                  http.SameSiteUnset in
  Jar.pairs jar1 = [("openshift-session-token", "sha256~abc")]
  /\ map http.Value (http.rwSetCookie response) = [""]
  /\ map http.MaxAge (http.rwSetCookie response) = [0]
  /\ map http.MaxAge_attribute (http.rwSetCookie response) = [None]
  /\ http.rwStatus response = Some 204
  /\ Jar.pairs jar2 = [("openshift-session-token", "")]
  /\ getOpenShiftUser (ext := ExampleExternals)
       (request_with_cookies (Jar.pairs jar2))
     = inr (ErrUnauthenticated "openshift-session-token")
  /\ http.MaxAge_attribute deleting = Some 0
  /\ Jar.pairs (Jar.set jar1 deleting) = [].
Proof.
  intros w o r0 jar1 response jar2 deleting.
  repeat split; vm_compute; reflexivity.
Qed.

(** * Further properties of the package *)

(** ** CSRF tokens *)

Lemma code_inj (a b : ascii) : GoStrings.code a = GoStrings.code b -> a = b.
Proof.
  unfold GoStrings.code. intros Heq.
  rewrite <- (ascii_N_embedding a), <- (ascii_N_embedding b), Heq.
  reflexivity.
Qed.

Lemma accumulate_zero (x : list ascii) :
  forall (y : list ascii) (v : N),
    length x = length y ->
    (subtle.accumulate v x y = 0%N <-> v = 0%N /\ x = y).
Proof.
  induction x as [|a x IH]; intros [|b y] v Hlen; simpl in *;
    try discriminate.
  - split; [auto | intros [Hv _]; exact Hv].
  - injection Hlen as Hlen. rewrite (IH y _ Hlen), N.lor_eq_0_iff.
    split.
    + intros [[Hv Hx] ->]. apply N.lxor_eq in Hx. apply code_inj in Hx.
      subst. auto.
    + intros [Hv Heq]. injection Heq as -> ->.
      rewrite N.lxor_nilpotent. auto.
Qed.

(** [subtle.ConstantTimeCompare] answers 1 exactly on equal slices. *)
Lemma ConstantTimeCompare_spec (x y : list ascii) :
  subtle.ConstantTimeCompare x y = 1 <-> x = y.
Proof.
  unfold subtle.ConstantTimeCompare.
  destruct (length x =? length y)%nat eqn:Hlen; simpl.
  - apply Nat.eqb_eq in Hlen.
    destruct (subtle.accumulate 0 x y =? 0)%N eqn:Hacc.
    + apply N.eqb_eq in Hacc. apply (accumulate_zero x y 0%N Hlen) in Hacc.
      split; [intros _; apply Hacc | reflexivity].
    + apply N.eqb_neq in Hacc. split; [discriminate|].
      intros Heq. exfalso. apply Hacc.
      apply (accumulate_zero x y 0%N Hlen). auto.
  - apply Nat.eqb_neq in Hlen. split; [discriminate|].
    intros ->. contradiction.
Qed.

Lemma unstr_inj (s t : string) : url.unstr s = url.unstr t -> s = t.
Proof.
  unfold url.unstr. intros Heq.
  rewrite <- (string_of_list_ascii_of_string s),
          <- (string_of_list_ascii_of_string t), Heq.
  reflexivity.
Qed.

(** A request whose [csrf-token] cookie equals its [X-CSRFToken] header
    passes. *)
Lemma VerifyCSRFToken_passes {ext : Externals} (a : Authenticator)
  (r : http.Request) :
  http.Request_Cookie r CSRFCookieName
  = Some (http.Header_Get (http.Header r) "X-Csrftoken") ->
  VerifyCSRFToken a r = None.
Proof.
  intros Hcookie. unfold VerifyCSRFToken, Request_Header_Get.
  change (textproto.CanonicalMIMEHeaderKey CSRFHeader) with "X-Csrftoken".
  rewrite Hcookie.
  assert (Heq : subtle.ConstantTimeCompare
                  (url.unstr (http.Header_Get (http.Header r) "X-Csrftoken"))
                  (url.unstr (http.Header_Get (http.Header r) "X-Csrftoken"))
                = 1) by (apply ConstantTimeCompare_spec; reflexivity).
  rewrite Heq. reflexivity.
Qed.

(** X1.  [VerifyCSRFToken] returns [nil] exactly when the request has a
    [csrf-token] cookie and the value of its [X-CSRFToken] header (kept
    under the canonical key [X-Csrftoken]; empty when the header is
    absent) equals the cookie's value byte for byte; without the cookie
    the error is the missing-cookie one, with a differing header the
    mismatch one.  An empty cookie and no header therefore pass. *)
Theorem VerifyCSRFToken_nil_iff :
  forall (ext : Externals) (a : Authenticator) (r : http.Request),
    let header := http.Header_Get (http.Header r) "X-Csrftoken" in
    (VerifyCSRFToken a r = None
     <-> http.Request_Cookie r CSRFCookieName = Some header)
    /\ (VerifyCSRFToken a r = Some ErrNoCSRFCookie
        <-> http.Request_Cookie r CSRFCookieName = None)
    /\ (VerifyCSRFToken a r = Some ErrCSRFMismatch
        <-> exists v, http.Request_Cookie r CSRFCookieName = Some v
                      /\ v <> header).
Proof.
  intros ext a r header. unfold VerifyCSRFToken, Request_Header_Get.
  change (textproto.CanonicalMIMEHeaderKey CSRFHeader) with "X-Csrftoken".
  fold header.
  destruct (http.Request_Cookie r CSRFCookieName) as [v|].
  - pose proof (ConstantTimeCompare_spec (url.unstr header) (url.unstr v))
      as Hcmp.
    destruct (1 =? subtle.ConstantTimeCompare (url.unstr header) (url.unstr v))
      eqn:Heq.
    + apply Z.eqb_eq in Heq. symmetry in Heq. apply Hcmp, unstr_inj in Heq.
      subst v. split; [split; reflexivity|].
      split; [split; discriminate|].
      split; [discriminate|]. intros (v & Hv & Hne). congruence.
    + apply Z.eqb_neq in Heq.
      assert (Hne : v <> header).
      { intros ->. apply Heq. symmetry. apply Hcmp. reflexivity. }
      split; [split; [discriminate | intros Hv; congruence]|].
      split; [split; discriminate|].
      split; [intros _; eauto | reflexivity].
  - split; [split; discriminate|].
    split; [split; reflexivity|].
    split; [discriminate | intros (v & Hv & _); discriminate].
Qed.

(** ** Cookies through a client's store *)

Lemma lookupCookie_app_None (cs ds : list (string * string)) (n : string) :
  http.lookupCookie cs n = None ->
  http.lookupCookie (cs ++ ds) n = http.lookupCookie ds n.
Proof.
  induction cs as [|[n' v] cs IH]; simpl; [reflexivity|].
  destruct (String.eqb n' n); [discriminate | exact IH].
Qed.

Lemma lookupCookie_absent (jar : list http.Cookie) (n : string) :
  (forall x, In x jar -> http.Name x <> n) ->
  http.lookupCookie (Jar.pairs jar) n = None.
Proof.
  induction jar as [|x jar IH]; intros Hno; simpl; [reflexivity|].
  destruct (String.eqb (http.Name x) n) eqn:E.
  - apply String.eqb_eq in E. exfalso. apply (Hno x); [left; reflexivity | exact E].
  - apply IH. intros y Hy. apply Hno. right. exact Hy.
Qed.

(** The other cookies of the name are gone once the store has taken a
    cookie and held no cookie of that name under another domain or
    path. *)
Lemma Jar_others_absent (jar : list http.Cookie) (c : http.Cookie) :
  (forall x, In x jar -> http.Name x = http.Name c -> Jar.same x c = true) ->
  http.lookupCookie
    (Jar.pairs (List.filter (fun x => negb (Jar.same x c)) jar)) (http.Name c)
  = None.
Proof.
  intros Honly. apply lookupCookie_absent.
  intros x Hin Hname. apply filter_In in Hin. destruct Hin as [Hin Hdiff].
  rewrite (Honly x Hin Hname) in Hdiff. discriminate.
Qed.

(** A stored cookie is sent back; a cookie with [Max-Age=0] is not. *)
Lemma Jar_set_lookup (jar : list http.Cookie) (c : http.Cookie) :
  (forall x, In x jar -> http.Name x = http.Name c -> Jar.same x c = true) ->
  http.lookupCookie (Jar.pairs (Jar.set jar c)) (http.Name c)
  = if http.MaxAge c <? 0 then None else Some (http.Value c).
Proof.
  intros Honly. pose proof (Jar_others_absent jar c Honly) as Hnone.
  unfold Jar.set, http.MaxAge_attribute.
  destruct (http.MaxAge c >? 0) eqn:Hpos.
  - assert (Hneg : (http.MaxAge c <? 0) = false) by lia. rewrite Hneg.
    assert (Hkeep : forall z, z > 0 ->
              match Some z with
              | Some 0 => List.filter (fun x => negb (Jar.same x c)) jar
              | _ => (List.filter (fun x => negb (Jar.same x c)) jar ++ [c])%list
              end
              = (List.filter (fun x => negb (Jar.same x c)) jar ++ [c])%list).
    { intros z Hz. destruct z; try reflexivity. lia. }
    rewrite Hkeep by lia.
    unfold Jar.pairs. rewrite map_app. fold (Jar.pairs
      (List.filter (fun x => negb (Jar.same x c)) jar)).
    rewrite (lookupCookie_app_None _ _ _ Hnone). simpl.
    rewrite String.eqb_refl. reflexivity.
  - destruct (http.MaxAge c <? 0) eqn:Hneg.
    + exact Hnone.
    + unfold Jar.pairs. rewrite map_app. fold (Jar.pairs
        (List.filter (fun x => negb (Jar.same x c)) jar)).
      rewrite (lookupCookie_app_None _ _ _ Hnone). simpl.
      rewrite String.eqb_refl. reflexivity.
Qed.

(** X2.  Round trip of the CSRF token: [SetCSRFCookie] adds one cookie
    named [csrf-token], readable by scripts (not HttpOnly), SameSite=Lax,
    with the given path, the authenticator's secure flag and domain, and
    the random string as value.  A client that stores it (and holds no
    [csrf-token] cookie for another domain or path) and echoes the value
    in the [X-CSRFToken] header passes [VerifyCSRFToken]. *)
Theorem SetCSRFCookie_then_VerifyCSRFToken :
  forall (ext : Externals) (a : Authenticator) (path random : string)
         (rw : http.ResponseWriter),
  exists cookie,
    SetCSRFCookie a path rw random = http.SetCookie rw cookie
    /\ http.Name cookie = CSRFCookieName
    /\ http.Value cookie = random
    /\ http.HttpOnly cookie = false
    /\ http.SameSite_ cookie = http.SameSiteLaxMode
    /\ http.Path cookie = path
    /\ http.Secure cookie = secureCookies a
    /\ http.Domain cookie = cookieDomain a
    /\ forall (jar : list http.Cookie) (r : http.Request),
         (forall x, In x jar -> http.Name x = CSRFCookieName ->
                    Jar.same x cookie = true) ->
         http.Cookies r
         = Jar.pairs (Jar.receive jar
                        (SetCSRFCookie a path http.newRecorder random)) ->
         http.Header_Get (http.Header r) "X-Csrftoken" = random ->
         VerifyCSRFToken a r = None.
Proof.
  intros ext a path random rw.
  exists (http.mkCookie CSRFCookieName random path (cookieDomain a) 0
                        (secureCookies a) false http.SameSiteLaxMode).
  assert (Hset : forall rw0,
             SetCSRFCookie a path rw0 random
             = http.SetCookie rw0
                 (http.mkCookie CSRFCookieName random path (cookieDomain a) 0
                                (secureCookies a) false http.SameSiteLaxMode)).
  { intros rw0. unfold SetCSRFCookie. cbv zeta. rewrite optional_Domain.
    reflexivity. }
  split; [apply Hset|].
  do 7 (split; [reflexivity|]).
  intros jar r Honly Hcookies Hheader.
  apply VerifyCSRFToken_passes. rewrite Hheader. unfold http.Request_Cookie.
  rewrite Hcookies, Hset. unfold Jar.receive. simpl.
  apply (Jar_set_lookup jar
           (http.mkCookie CSRFCookieName random path (cookieDomain a) 0
                          (secureCookies a) false http.SameSiteLaxMode)).
  exact Honly.
Qed.

(** X2 on the console's authenticator: the token [k3Jd...] set on an
    empty store comes back and verifies. *)
Lemma SetCSRFCookie_then_VerifyCSRFToken_witness :
  exists a,
    example_authenticator = Some a
    /\ VerifyCSRFToken (ext := ExampleExternals) a
         (http.mkRequest "POST" (url.of_Path "/api/kubernetes")
            {[ "X-Csrftoken" := ["k3JdQpX0"] ]}
            (Jar.pairs (Jar.receive []
               (SetCSRFCookie (ext := ExampleExternals) a "/" http.newRecorder
                  "k3JdQpX0"))))
       = None.
Proof.
  destruct example_authenticator_some as (a & Ha).
  exists a. split; [exact Ha|].
  destruct (SetCSRFCookie_then_VerifyCSRFToken ExampleExternals a "/"
              "k3JdQpX0" http.newRecorder)
    as (cookie & _ & _ & _ & _ & _ & _ & _ & _ & Hround).
  apply (Hround []).
  - intros x [].
  - reflexivity.
  - reflexivity.
Defined.

(** X3.  Round trip of the session: after [login] of the OpenShift
    variant on a token with an access token, a client that stores the
    cookie (and holds no cookie of that name for another domain or path)
    sends requests on which [getOpenShiftUser], for the login method's
    cluster, returns the user whose token is the access token, unless the
    token had expired a second or more before: then the cookie carries
    [Max-Age=0], the client drops it, and there is no session cookie. *)
Theorem openShiftAuth_login_then_getOpenShiftUser :
  forall (ext : Externals) (w : World) (o : openShiftAuth)
         (token : oauth2.Token) (jar : list http.Cookie) (r : http.Request),
    oauth2.AccessToken token <> "" ->
    (forall x, In x jar -> http.Name x = GetCookieName (o_clusterName o) ->
               Jar.same x (sessionCookie w o token) = true) ->
    GetCluster r = o_clusterName o ->
    http.Cookies r
    = Jar.pairs (Jar.receive jar
                   (fst (openShiftAuth_login w o http.newRecorder token))) ->
    getOpenShiftUser r
    = if http.MaxAge (sessionCookie w o token) <? 0
      then inr ErrNoCookie
      else inl (mkUser "" "" (oauth2.AccessToken token)).
Proof.
  intros ext w o token jar r Hne Honly Hcluster Hcookies.
  unfold getOpenShiftUser, http.Request_Cookie.
  rewrite Hcluster, Hcookies, (openShiftAuth_login_token w o _ token Hne).
  unfold Jar.receive. simpl fold_left.
  pose proof (Jar_set_lookup jar (sessionCookie w o token) Honly) as Hlook.
  change (http.Name (sessionCookie w o token))
    with (GetCookieName (o_clusterName o)) in Hlook.
  rewrite Hlook.
  destruct (http.MaxAge (sessionCookie w o token) <? 0); [reflexivity|].
  change (http.Value (sessionCookie w o token))
    with (oauth2.AccessToken token).
  apply String.eqb_neq in Hne. rewrite Hne. reflexivity.
Qed.

(** X3 on a token that expires in an hour, and on one that expired two
    seconds ago. *)
Lemma openShiftAuth_login_then_getOpenShiftUser_witness :
  let w := discovery_world 200 (Some example_metadata) in
  let o := example_openShiftAuth in
  let after token :=
    request_with_cookies
      (Jar.pairs (Jar.receive []
         (fst (openShiftAuth_login (ext := ExampleExternals) w o
                 http.newRecorder token)))) in
  getOpenShiftUser (ext := ExampleExternals)
    (after (oauth2.mkToken "sha256~abc" 3600000000000))
  = inl (mkUser "" "" "sha256~abc")
  /\ getOpenShiftUser (ext := ExampleExternals)
       (after (oauth2.mkToken "sha256~abc" (-2000000000)))
     = inr ErrNoCookie.
Proof.
  intros w o after. split.
  - apply (openShiftAuth_login_then_getOpenShiftUser ExampleExternals w o
             (oauth2.mkToken "sha256~abc" 3600000000000) []).
    + discriminate.
    + intros x [].
    + reflexivity.
    + reflexivity.
  - apply (openShiftAuth_login_then_getOpenShiftUser ExampleExternals w o
             (oauth2.mkToken "sha256~abc" (-2000000000)) []).
    + discriminate.
    + intros x [].
    + reflexivity.
    + reflexivity.
Defined.

(** ** Absolute URLs *)

(** A URL with a scheme never prints as the empty string: the text
    starts with the scheme. *)
Lemma URL_String_starts_with_scheme (u : url.URL) :
  url.Scheme u <> "" ->
  exists rest,
    url.String u = url.str (url.unstr (url.Scheme u) ++ rest)%list.
Proof.
  intros Hs. unfold url.String.
  apply String.eqb_neq in Hs. rewrite Hs. cbv zeta.
  destruct (negb (String.eqb (url.Opaque u) "")).
  - eexists. rewrite <- !app_assoc. reflexivity.
  - eexists. rewrite <- !app_assoc. reflexivity.
Qed.

Lemma URL_String_nonempty (u : url.URL) :
  url.Scheme u <> "" -> url.String u <> "".
Proof.
  intros Hs. destruct (URL_String_starts_with_scheme u Hs) as (rest & ->).
  destruct (url.Scheme u) as [|a s]; [contradiction|].
  simpl. discriminate.
Qed.

(** X4.  [validateAbsURL] returns [nil] exactly for the values that
    parse as a URL with a scheme and a host: its test on the printed URL
    being empty never decides.  A value that does not parse is refused
    with the parser's error, one without scheme or host with the
    not-absolute error. *)
Theorem validateAbsURL_nil_iff :
  forall (ext : Externals) (value : string),
    (validateAbsURL value = None <-> absoluteURL value)
    /\ (forall e, url_Parse value = inr e ->
                  validateAbsURL value = Some (ErrParse e))
    /\ (forall u, url_Parse value = inl u ->
                  url.Scheme u = "" \/ url.Host u = "" ->
                  validateAbsURL value = Some (ErrNotAbsolute u)).
Proof.
  intros ext value. unfold validateAbsURL, absoluteURL.
  destruct (url_Parse value) as [u|e].
  - destruct (String.eqb (url.Scheme u) "") eqn:Hs.
    + apply String.eqb_eq in Hs. rewrite orb_true_r. simpl.
      split; [split; [discriminate|]|].
      * intros (u' & Hu & Hne & _). injection Hu as <-. contradiction.
      * split; [intros e He; discriminate|].
        intros u' Hu _. injection Hu as <-. reflexivity.
    + apply String.eqb_neq in Hs.
      pose proof (URL_String_nonempty u Hs) as Hprint.
      apply String.eqb_neq in Hprint. rewrite Hprint. simpl.
      destruct (String.eqb (url.Host u) "") eqn:Hh.
      * apply String.eqb_eq in Hh.
        split; [split; [discriminate|]|].
        -- intros (u' & Hu & _ & Hne). injection Hu as <-. contradiction.
        -- split; [intros e He; discriminate|].
           intros u' Hu _. injection Hu as <-. reflexivity.
      * apply String.eqb_neq in Hh.
        split; [split; [intros _; exists u; auto | reflexivity]|].
        split; [intros e He; discriminate|].
        intros u' Hu [Hx|Hx]; injection Hu as <-; contradiction.
  - split; [split; [discriminate | intros (u & Hu & _); discriminate]|].
    split; [intros e' He; injection He as <-; reflexivity|].
    intros u Hu. discriminate.
Qed.

(** X4 on values a discovery document may hold. *)
Lemma validateAbsURL_nil_iff_witness :
  validateAbsURL (ext := ExampleExternals) "https://oauth.example/token" = None
  /\ (exists u, validateAbsURL (ext := ExampleExternals) "oauth.example/token"
                = Some (ErrNotAbsolute u))
  /\ (exists u, validateAbsURL (ext := ExampleExternals) "https:///token"
                = Some (ErrNotAbsolute u))
  /\ (exists e, validateAbsURL (ext := ExampleExternals) "https://oauth.example:x"
                = Some (ErrParse e)).
Proof.
  split; [|split; [|split]].
  - apply (validateAbsURL_nil_iff ExampleExternals).
    eexists. split; [reflexivity|]. split; discriminate.
  - eexists.
    eapply (validateAbsURL_nil_iff ExampleExternals);
      [reflexivity | left; reflexivity].
  - eexists.
    eapply (validateAbsURL_nil_iff ExampleExternals);
      [reflexivity | right; reflexivity].
  - eexists.
    eapply (validateAbsURL_nil_iff ExampleExternals). reflexivity.
Defined.

(** ** The two trust modes of the client cache *)

Section Isolation.

Context {ext : Externals}.

Lemma cache_isolated_init : cache_isolated Proc_init.
Proof. intros m k a Hk. destruct m; simpl in Hk; discriminate. Qed.

(** A miss in CA-only mode builds a client from an empty pool. *)
Lemma newHTTPClient_miss_CA_only (w : World) (issuerCA data : string)
  (p : Proc) :
  issuerCA <> "" ->
  ReadFile w issuerCA = Some data ->
  httpClientCache p !! data = None ->
  AppendCertsFromPEM data = true ->
  newHTTPClient w issuerCA false p
  = (inl (ClientAt (length (clients p))),
     mkProc (<[data := length (clients p)]> (httpClientCache p))
            (httpClientCacheSystemRoots p)
            (clients p ++ [mkClient (mkCertPool false [data])
                                    (time.Second * 5)])
            (oauth2Configs p)).
Proof.
  intros Hne Hread Hmiss Hpem. unfold newHTTPClient.
  rewrite (issuerCA_nonempty _ Hne), Hread, Hmiss, Hpem. reflexivity.
Qed.

Lemma newHTTPClient_isolated (w : World) (issuerCA : string) (m : bool)
  (p p' : Proc) (r : clientRef + error) :
  cache_isolated p ->
  newHTTPClient w issuerCA m p = (r, p') ->
  cache_isolated p'.
Proof.
  intros Hiso Hcall.
  destruct (newHTTPClient_cases w issuerCA m p)
    as [ (? & E) | [ (? & ? & E) | [ (data & a & ? & ? & ? & E)
       | [ (data & ? & ? & ? & ? & E)
         | (data & cl & Hne & Hread & Hmiss & Hpem & Happ & Htime & E) ] ] ] ];
    rewrite E in Hcall; inversion Hcall; subst; try assumption.
  clear Hcall.
  assert (Hcl : m = false -> systemRoots (RootCAs cl) = false).
  { intros ->. simpl in Hmiss.
    rewrite (newHTTPClient_miss_CA_only w issuerCA data p Hne Hread Hmiss Hpem)
      in E.
    injection E as E. apply app_inj_tail in E. destruct E as [_ <-].
    reflexivity. }
  set (n := length (clients p)) in *.
  assert (Hold : forall m0 k0 a0, cache_of m0 p !! k0 = Some a0 ->
                                  (a0 < n)%nat).
  { intros m0 k0 a0 H0. apply (Hiso m0 k0 a0 H0). }
  (* the entries of the new state: the old ones and the new one *)
  assert (Hentries :
            forall m0 k0 a0,
              cache_of m0 (if m
                           then mkProc (httpClientCache p)
                                  (<[data := n]> (httpClientCacheSystemRoots p))
                                  (clients p ++ [cl]) (oauth2Configs p)
                           else mkProc (<[data := n]> (httpClientCache p))
                                  (httpClientCacheSystemRoots p)
                                  (clients p ++ [cl]) (oauth2Configs p))
                !! k0 = Some a0 ->
              (m0 = m /\ k0 = data /\ a0 = n)
              \/ (cache_of m0 p !! k0 = Some a0 /\ (a0 < n)%nat)).
  { intros m0 k0 a0 H0.
    destruct m, m0; simpl in H0.
    - destruct (decide (data = k0)) as [->|Hd].
      + rewrite lookup_insert_eq in H0. injection H0 as <-. left. auto.
      + rewrite lookup_insert_ne in H0 by exact Hd.
        right. split; [exact H0 | exact (Hold true _ _ H0)].
    - right. split; [exact H0 | exact (Hold false _ _ H0)].
    - right. split; [exact H0 | exact (Hold true _ _ H0)].
    - destruct (decide (data = k0)) as [->|Hd].
      + rewrite lookup_insert_eq in H0. injection H0 as <-. left. auto.
      + rewrite lookup_insert_ne in H0 by exact Hd.
        right. split; [exact H0 | exact (Hold false _ _ H0)]. }
  assert (Hlen : forall q, clients q = (clients p ++ [cl])%list ->
                           length (clients q) = S n).
  { intros q ->. rewrite length_app. simpl. unfold n. lia. }
  intros m0 k0 a0 H0.
  assert (Hclients :
            clients (if m
                     then mkProc (httpClientCache p)
                            (<[data := n]> (httpClientCacheSystemRoots p))
                            (clients p ++ [cl]) (oauth2Configs p)
                     else mkProc (<[data := n]> (httpClientCache p))
                            (httpClientCacheSystemRoots p)
                            (clients p ++ [cl]) (oauth2Configs p))
            = (clients p ++ [cl])%list) by (destruct m; reflexivity).
  rewrite Hclients.
  destruct (Hentries m0 k0 a0 H0) as [(-> & -> & ->) | (Hin & Hlt)].
  - split; [rewrite length_app; simpl; unfold n; lia|]. split.
    + intros Hm. exists cl. split; [|exact (Hcl Hm)].
      rewrite lookup_app_r by (unfold n; lia).
      unfold n. rewrite Nat.sub_diag. reflexivity.
    + intros m' k' H'.
      destruct (Hentries m' k' n H') as [(-> & -> & _) | (_ & Hlt)];
        [auto | lia].
  - destruct (Hiso m0 k0 a0 Hin) as (_ & Hca & Hinj).
    split; [rewrite length_app; simpl; unfold n in Hlt; lia|]. split.
    + intros Hm. destruct (Hca Hm) as (cl0 & Hl & Hroots).
      exists cl0. split; [|exact Hroots].
      apply lookup_app_l_Some. exact Hl.
    + intros m' k' H'.
      destruct (Hentries m' k' a0 H') as [(_ & _ & ->) | (Hin' & _)];
        [lia | exact (Hinj m' k' Hin')].
Qed.

Lemma run_isolated (calls : list ClientCall) (p : Proc) :
  cache_isolated p -> cache_isolated (snd (run_newHTTPClient calls p)).
Proof.
  revert p. induction calls as [|c calls IH]; intros p Hs; simpl.
  - exact Hs.
  - destruct (newHTTPClient (cc_world c) (cc_issuerCA c)
                (cc_includeSystemRoots c) p) as [r p1] eqn:Hcall.
    specialize (IH p1 (newHTTPClient_isolated _ _ _ _ _ _ Hs Hcall)).
    destruct (run_newHTTPClient calls p1) as [log p2]. exact IH.
Qed.

End Isolation.

(** X5.  The two maps of the client cache never share a client.  After
    any calls of [newHTTPClient] from empty maps: a client is the value
    of at most one entry (one content, one mode); a call in CA-only mode
    on a CA file returns a client whose trust store does not start from
    the system roots; and a call on a CA file does not return a client
    that the other map holds, also when both maps hold the same
    content. *)
Theorem newHTTPClient_modes_are_isolated :
  forall (ext : Externals) (calls : list ClientCall) (w : World)
         (issuerCA data : string) (m : bool) (c : clientRef) (p' : Proc),
    let p := snd (run_newHTTPClient calls Proc_init) in
    issuerCA <> "" ->
    ReadFile w issuerCA = Some data ->
    newHTTPClient w issuerCA m p = (inl c, p') ->
    exists a,
      c = ClientAt a
      /\ (m = false ->
          exists cl, clients p' !! a = Some cl
                     /\ systemRoots (RootCAs cl) = false
                     /\ appended (RootCAs cl) = [data])
      /\ (forall k, cache_of (negb m) p' !! k <> Some a)
      /\ (forall k, cache_of m p' !! k = Some a -> k = data).
Proof.
  intros ext calls w issuerCA data m c p' p Hne Hread Hcall.
  assert (Hiso : cache_isolated p')
    by (eapply newHTTPClient_isolated;
        [apply run_isolated, cache_isolated_init | exact Hcall]).
  assert (Hsound : cache_sound p')
    by (eapply newHTTPClient_sound;
        [apply run_sound, cache_sound_init | exact Hcall]).
  destruct (newHTTPClient_success_cached _ _ _ _ _ _ _ Hne Hread Hcall)
    as (a & -> & Hcached).
  exists a. split; [reflexivity|].
  destruct (Hiso m data a Hcached) as (_ & Hca & Hinj).
  split; [|split].
  - intros Hm. destruct (Hca Hm) as (cl & Hl & Hroots).
    destruct (Hsound m data a Hcached) as (cl' & Hl' & Happ & _).
    rewrite Hl in Hl'. injection Hl' as <-.
    exists cl. auto.
  - intros k Hk. destruct (Hinj (negb m) k Hk) as [Hm _].
    destruct m; discriminate.
  - intros k Hk. apply (Hinj m k Hk).
Qed.

(** X5 on one CA file asked for in both modes. *)
Lemma newHTTPClient_modes_are_isolated_witness :
  let w := world_with_files [("/etc/ca.crt", example_pem)] in
  let first := [@mkClientCall ExampleExternals w "/etc/ca.crt" true] in
  exists a p' cl,
    newHTTPClient (ext := ExampleExternals) w "/etc/ca.crt" false
      (snd (run_newHTTPClient first Proc_init))
    = (inl (ClientAt a), p')
    /\ clients p' !! a = Some cl
    /\ systemRoots (RootCAs cl) = false
    /\ httpClientCacheSystemRoots p' !! example_pem <> Some a.
Proof.
  intros w first.
  destruct (newHTTPClient (ext := ExampleExternals) w "/etc/ca.crt" false
              (snd (run_newHTTPClient first Proc_init)))
    as [[c|e] p'] eqn:Hcall.
  2:{ exfalso. revert Hcall. vm_compute. discriminate. }
  destruct (newHTTPClient_modes_are_isolated ExampleExternals first w
              "/etc/ca.crt" example_pem false c p')
    as (a & -> & Hca & Hother & _).
  - discriminate.
  - reflexivity.
  - exact Hcall.
  - destruct (Hca eq_refl) as (cl & Hl & Hroots & _).
    exists a, p', cl. split; [reflexivity|]. split; [exact Hl|].
    split; [exact Hroots|]. apply (Hother example_pem).
Defined.

(** A later call on the same bytes is a hit on the entry the first call
    left. *)
Lemma newHTTPClient_same_content_same_client_helper {ext : Externals}
  (w1 w2 : World) (path1 path2 data : string) (m : bool)
  (p p1 : Proc) (c : clientRef) (calls : list ClientCall) :
  path1 <> "" -> path2 <> "" ->
  ReadFile w1 path1 = Some data ->
  ReadFile w2 path2 = Some data ->
  newHTTPClient w1 path1 m p = (inl c, p1) ->
  newHTTPClient w2 path2 m (snd (run_newHTTPClient calls p1))
  = (inl c, snd (run_newHTTPClient calls p1)).
Proof.
  intros Hne1 Hne2 Hread1 Hread2 Hcall.
  destruct (newHTTPClient_success_cached _ _ _ _ _ _ _ Hne1 Hread1 Hcall)
    as (a & -> & Hcached).
  apply newHTTPClient_hit with (data := data); try assumption.
  apply run_keeps_entries. exact Hcached.
Qed.

(** ** The HTTP client of an authenticator *)

Section ClientFunc.

Context {ext : Externals}.

(** The [clientFunc] closure: the client of the moment, or the client
    captured when the authenticator was made. *)
Lemma newUnstartedAuthenticator_clientFunc_eq (w0 : World) (c0 c1 : Config)
  (p0 p1 : Proc) (a : Authenticator) :
  newUnstartedAuthenticator w0 c0 p0 = (inl a, c1, p1) ->
  exists fallbackClient,
    newHTTPClient w0 (IssuerCA c0) true p0 = (inl fallbackClient, p1)
    /\ forall w c p,
         clientFunc a w c p
         = (match fst (newHTTPClient w (IssuerCA c) true p) with
            | inl currentClient => currentClient
            | inr _ => fallbackClient
            end, snd (newHTTPClient w (IssuerCA c) true p)).
Proof.
  unfold newUnstartedAuthenticator.
  destruct (newHTTPClient w0 (IssuerCA c0) true p0) as [[cl|e] p2];
    [|discriminate].
  destruct (url_Parse _); [|discriminate].
  intros Heq. injection Heq as <- _ <-.
  exists cl. split; [reflexivity|].
  intros w c p. simpl.
  destruct (newHTTPClient w (IssuerCA c) true p) as [[cur|e] p']; reflexivity.
Qed.

End ClientFunc.

(** X6.  The [clientFunc] of an authenticator never fails.  When the
    issuer CA file cannot be read, or holds no certificate and is not
    cached, it returns the client captured by
    [newUnstartedAuthenticator] and leaves the process state alone; when
    the file holds the bytes it held at construction (whatever clients
    were made in between) it returns that same client; in every other
    case it returns what [newHTTPClient] returns. *)
Theorem clientFunc_falls_back_to_captured_client :
  forall (ext : Externals) (w0 : World) (c0 c1 : Config) (p0 p1 : Proc)
         (a : Authenticator),
    newUnstartedAuthenticator w0 c0 p0 = (inl a, c1, p1) ->
    exists fallbackClient,
      newHTTPClient w0 (IssuerCA c0) true p0 = (inl fallbackClient, p1)
      /\ (forall w c p current p',
             newHTTPClient w (IssuerCA c) true p = (inl current, p') ->
             clientFunc a w c p = (current, p'))
      /\ (forall w c p e p',
             newHTTPClient w (IssuerCA c) true p = (inr e, p') ->
             clientFunc a w c p = (fallbackClient, p))
      /\ (forall w c p,
             IssuerCA c <> "" -> ReadFile w (IssuerCA c) = None ->
             clientFunc a w c p = (fallbackClient, p))
      /\ (forall w c data (calls : list ClientCall),
             IssuerCA c0 <> "" -> IssuerCA c <> "" ->
             ReadFile w0 (IssuerCA c0) = Some data ->
             ReadFile w (IssuerCA c) = Some data ->
             clientFunc a w c (snd (run_newHTTPClient calls p1))
             = (fallbackClient, snd (run_newHTTPClient calls p1))).
Proof.
  intros ext w0 c0 c1 p0 p1 a Hun.
  destruct (newUnstartedAuthenticator_clientFunc_eq w0 c0 c1 p0 p1 a Hun)
    as (fallbackClient & Hfirst & Hcf).
  exists fallbackClient. split; [exact Hfirst|].
  split; [|split; [|split]].
  - intros w c p current p' Hcall. rewrite Hcf, Hcall. reflexivity.
  - intros w c p e p' Hcall. rewrite Hcf, Hcall. simpl.
    destruct (newHTTPClient_error_frame _ _ _ _ _ _ Hcall) as (-> & _).
    reflexivity.
  - intros w c p Hne Hread. rewrite Hcf.
    unfold newHTTPClient. rewrite (issuerCA_nonempty _ Hne), Hread.
    reflexivity.
  - intros w c data calls Hne0 Hne Hread0 Hread.
    rewrite Hcf.
    rewrite (newHTTPClient_same_content_same_client_helper
               w0 w (IssuerCA c0) (IssuerCA c) data true p0 p1 fallbackClient
               calls Hne0 Hne Hread0 Hread Hfirst).
    reflexivity.
Qed.

(** X6 on an issuer CA file that is there at construction: later, with
    the file gone, and with the file unchanged, the client is the one of
    the construction. *)
Lemma clientFunc_falls_back_to_captured_client_witness :
  let w0 := world_with_files [("/etc/issuer.crt", example_pem)] in
  let gone := world_with_files [] in
  exists a c1 p1 fallbackClient,
    newUnstartedAuthenticator (ext := ExampleExternals) w0
      example_config_with_CA Proc_init
    = (inl a, c1, p1)
    /\ clientFunc a gone example_config_with_CA p1 = (fallbackClient, p1)
    /\ clientFunc a w0 example_config_with_CA p1 = (fallbackClient, p1).
Proof.
  intros w0 gone.
  assert (Hok : match fst (fst (newUnstartedAuthenticator
                                  (ext := ExampleExternals) w0
                                  example_config_with_CA Proc_init)) with
                | inl _ => true
                | inr _ => false
                end = true) by (vm_compute; reflexivity).
  destruct (newUnstartedAuthenticator (ext := ExampleExternals) w0
              example_config_with_CA Proc_init)
    as [[[a|e] c1] p1] eqn:Hun; [|discriminate].
  destruct (clientFunc_falls_back_to_captured_client ExampleExternals w0
              example_config_with_CA c1 Proc_init p1 a Hun)
    as (fallbackClient & _ & _ & _ & Hgone & Hsame).
  exists a, c1, p1, fallbackClient.
  split; [reflexivity|]. split.
  - apply Hgone; [discriminate | reflexivity].
  - apply (Hsame w0 example_config_with_CA example_pem []);
      try discriminate; reflexivity.
Defined.

(** ** What construction returns *)

Section Built.

Context {ext : Externals}.

Lemma configured_started (c : Config) (a : Authenticator) :
  configured (Config_started c) a <-> configured c a.
Proof.
  unfold configured, Config_started.
  destruct (String.eqb (CookiePath c) "") eqn:E.
  - simpl. rewrite ?E. reflexivity.
  - rewrite ?E. reflexivity.
Qed.

Lemma newUnstartedAuthenticator_configured (w : World) (c c1 : Config)
  (p p1 : Proc) (a : Authenticator) :
  newUnstartedAuthenticator w c p = (inl a, c1, p1) ->
  configured c a /\ authFunc a = None /\ userFunc a = None.
Proof.
  unfold newUnstartedAuthenticator, configured.
  destruct (newHTTPClient w (IssuerCA c) true p) as [[cl|e] p2];
    [|discriminate].
  destruct (String.eqb (CookiePath c) "") eqn:Hcp; simpl;
    destruct (url_Parse (RefererPath c)) as [u|pe]; try discriminate;
    intros Heq; injection Heq as <- _ _; simpl;
    destruct (String.eqb (ErrorURL c) ""), (String.eqb (SuccessURL c) "");
    simpl; rewrite ?Hcp; auto 10.
Qed.

Lemma discover_configured (w : World) (c c' : Config) (a : Authenticator)
  (p : Proc) :
  configured c' a -> configured c' (d_authenticator (fst (discover w c a p))).
Proof.
  intros Hcfg. unfold discover.
  destruct (AuthSource c =? AuthSourceOpenShift).
  - destruct (authSourceFunc_OpenShift a w c p) as [res p3]. exact Hcfg.
  - destruct (clientFunc a w c p) as [client p2].
    destruct (authSourceFunc_OIDC _ w c p2) as [res p3]. exact Hcfg.
Qed.

Lemma NewAuthenticator_loop_configured (fuel : nat) :
  forall (worlds : nat -> World) (n : nat) (steps : Z) (c : Config) (p : Proc)
         (slept : list Z) (failures : list error) (r : Constructed)
         (a : Authenticator),
    NewAuthenticator_loop fuel worlds n steps c p slept failures = Some r ->
    result r = inl a ->
    configured c a.
Proof.
  induction fuel as [|fuel IH];
    intros worlds n steps c p slept failures r a Hrun Hres.
  - discriminate.
  - simpl in Hrun.
    destruct (newUnstartedAuthenticator (worlds n) c p)
      as [[[a0|err] c1] p1] eqn:Hun.
    2:{ injection Hrun as <-. discriminate. }
    destruct (newUnstartedAuthenticator_configured _ _ _ _ _ _ Hun)
      as (Hcfg & _).
    destruct (newUnstartedAuthenticator_ok _ _ _ _ _ _ Hun) as (-> & _).
    pose proof (discover_configured (worlds n) (Config_started c) c a0 p1 Hcfg)
      as Hd.
    destruct (discover (worlds n) (Config_started c) a0 p1) as [d p3].
    simpl in Hd.
    destruct (d_result d) as [[E0 L0]|err].
    + injection Hrun as <-. simpl in Hres. injection Hres as <-. exact Hd.
    + destruct (steps + 1 >? maxSteps).
      * injection Hrun as <-. discriminate.
      * apply configured_started. eapply IH; eassumption.
Qed.

(** The run counts a discovery per iteration that got past
    [newUnstartedAuthenticator]. *)
Lemma NewAuthenticator_loop_attempts (fuel : nat) :
  forall (worlds : nat -> World) (n : nat) (steps : Z) (c : Config) (p : Proc)
         (slept : list Z) (failures : list error) (r : Constructed),
    NewAuthenticator_loop fuel worlds n steps c p slept failures = Some r ->
    match newUnstartedAuthenticator (worlds n) c p with
    | (inr err, c1, p1) => r = mkConstructed (inr err) c1 p1 slept failures n
    | (inl _, _, _) => (n < attempts r)%nat
    end.
Proof.
  induction fuel as [|fuel IH];
    intros worlds n steps c p slept failures r Hrun.
  - discriminate.
  - simpl in Hrun.
    destruct (newUnstartedAuthenticator (worlds n) c p)
      as [[[a0|err] c1] p1] eqn:Hun.
    2:{ injection Hrun as <-. reflexivity. }
    destruct (discover (worlds n) c1 a0 p1) as [d p3].
    destruct (d_result d) as [[E0 L0]|err].
    + injection Hrun as <-. simpl. lia.
    + destruct (steps + 1 >? maxSteps).
      * injection Hrun as <-. simpl. lia.
      * specialize (IH _ _ _ _ _ _ _ _ Hrun).
        destruct (newUnstartedAuthenticator (worlds (S n)) c1 p3)
          as [[[a1|err1] c2] p4].
        -- lia.
        -- subst r. simpl. lia.
Qed.

(** The errors of [newUnstartedAuthenticator]: the issuer CA cannot be
    loaded (nothing has changed then), or the referer path does not
    parse. *)
Lemma newUnstartedAuthenticator_errors (w : World) (c c1 : Config)
  (p p1 : Proc) (err : error) :
  newUnstartedAuthenticator w c p = (inr err, c1, p1) ->
  (p1 = p /\ c1 = c
   /\ (err = ErrLoadIssuerCA (IssuerCA c) \/ err = ErrNoCAData (IssuerCA c)))
  \/ (exists pe cl,
         url_Parse (RefererPath c) = inr pe /\ err = ErrParse pe
         /\ newHTTPClient w (IssuerCA c) true p = (inl cl, p1)
         /\ c1 = Config_started c).
Proof.
  unfold newUnstartedAuthenticator, Config_started.
  destruct (newHTTPClient w (IssuerCA c) true p) as [[cl|e] p2] eqn:Hcall.
  - destruct (String.eqb (CookiePath c) ""); simpl;
      destruct (url_Parse (RefererPath c)) as [u|pe] eqn:Hp;
      try discriminate;
      intros Heq; injection Heq as <- <- <-;
      right; exists pe, cl; auto.
  - intros Heq. injection Heq as <- <- <-.
    destruct (newHTTPClient_error_frame _ _ _ _ _ _ Hcall)
      as (-> & [(_ & ->) | (data & _ & _ & ->)]); left; auto.
Qed.

End Built.

(** X7.  An authenticator returned by [NewAuthenticator] has the fields
    [newUnstartedAuthenticator] took from the [Config]: the error and
    success URLs, [/] when the [Config] has none; the cookie path, [/]
    when the [Config] had none, which is also what the [Config] holds
    afterwards; the parsed referer path; the cookie flags.  So the
    redirect targets and the cookie path are never empty. *)
Theorem NewAuthenticator_fields_have_defaults :
  forall (ext : Externals) (fuel : nat) (worlds : nat -> World) (c : Config)
         (p : Proc) (r : Constructed) (a : Authenticator),
    NewAuthenticator fuel worlds c p = Some r ->
    result r = inl a ->
    configured c a
    /\ errorURL a <> "" /\ successURL a <> "" /\ cookiePath a <> ""
    /\ cookiePath a = CookiePath (config r)
    /\ GetCookiePath a = CookiePath (config r).
Proof.
  intros ext fuel worlds c p r a Hrun Hres.
  pose proof (NewAuthenticator_loop_configured fuel worlds 0 0 c p [] [] r a
                Hrun Hres) as Hcfg.
  split; [exact Hcfg|].
  destruct Hcfg as (He & Hs & Hc & _).
  assert (Hdefault : forall s, (if String.eqb s "" then "/" else s) <> "").
  { intros s. destruct (String.eqb s "") eqn:E;
      [discriminate | apply String.eqb_neq; exact E]. }
  split; [rewrite He; apply Hdefault|].
  split; [rewrite Hs; apply Hdefault|].
  split; [rewrite Hc; apply Hdefault|].
  assert (Hpath : cookiePath a = CookiePath (config r)).
  { rewrite Hc. pose proof (NewAuthenticator_loop_attempts fuel worlds 0 0 c p
                              [] [] r Hrun) as Hatt.
    pose proof (NewAuthenticator_config fuel worlds c p r Hrun) as Hconfig.
    destruct (newUnstartedAuthenticator (worlds 0%nat) c p)
      as [[[a0|err] c1] p1] eqn:Hun.
    - destruct (newUnstartedAuthenticator_ok _ _ _ _ _ _ Hun)
        as (_ & cl & Hcl).
      rewrite Hcl in Hconfig. simpl in Hconfig. rewrite Hconfig.
      unfold Config_started.
      destruct (String.eqb (CookiePath c) ""); reflexivity.
    - subst r. discriminate. }
  split; [exact Hpath | exact Hpath].
Qed.

(** X7 on a [Config] without error URL, success URL and cookie path. *)
Lemma NewAuthenticator_fields_have_defaults_witness :
  let c := mkConfig AuthSourceOpenShift "https://oauth.example" "" "" "console"
                    "secret" [] "" "" "" "https://console.example" "" true
                    "local-cluster" "" in
  exists r a,
    NewAuthenticator (ext := ExampleExternals) 31
      (fun _ => discovery_world 200 (Some example_metadata)) c Proc_init
    = Some r
    /\ result r = inl a
    /\ errorURL a = "/" /\ successURL a = "/" /\ cookiePath a = "/".
Proof.
  intros c.
  set (run := NewAuthenticator (ext := ExampleExternals) 31
                (fun _ => discovery_world 200 (Some example_metadata)) c
                Proc_init).
  assert (Hok : option_map (fun r => match result r with
                                     | inl _ => true
                                     | inr _ => false
                                     end) run = Some true)
    by (vm_compute; reflexivity).
  destruct run as [r|] eqn:Hrun; [|discriminate]. simpl in Hok.
  destruct (result r) as [a|e] eqn:Hres; [|discriminate].
  destruct (NewAuthenticator_fields_have_defaults ExampleExternals 31
              (fun _ => discovery_world 200 (Some example_metadata)) c
              Proc_init r a Hrun Hres)
    as ((He & Hs & Hc & _) & _).
  exists r, a. split; [reflexivity|]. split; [exact Hres|].
  split; [exact He|]. split; [exact Hs | exact Hc].
Defined.

(** X8.  Errors of the configuration are not retried.  [NewAuthenticator]
    runs no discovery exactly when [newUnstartedAuthenticator] fails in
    the first iteration; it then returns that error at once, without
    sleeping: the issuer CA file cannot be read or holds no certificate,
    or the referer path does not parse.  With an unreadable issuer CA
    file it also leaves the [Config] and the process state as they
    were. *)
Theorem NewAuthenticator_configuration_errors_not_retried :
  forall (ext : Externals) (fuel : nat) (worlds : nat -> World) (c : Config)
         (p : Proc) (r : Constructed),
    NewAuthenticator fuel worlds c p = Some r ->
    (attempts r = 0%nat
     <-> exists err,
           fst (fst (newUnstartedAuthenticator (worlds 0%nat) c p)) = inr err)
    /\ (attempts r = 0%nat ->
        slept r = [] /\ failures r = []
        /\ exists err,
             result r = inr err
             /\ (err = ErrLoadIssuerCA (IssuerCA c)
                 \/ err = ErrNoCAData (IssuerCA c)
                 \/ exists pe, url_Parse (RefererPath c) = inr pe
                               /\ err = ErrParse pe))
    /\ (IssuerCA c <> "" -> ReadFile (worlds 0%nat) (IssuerCA c) = None ->
        r = mkConstructed (inr (ErrLoadIssuerCA (IssuerCA c))) c p [] [] 0).
Proof.
  intros ext fuel worlds c p r Hrun.
  pose proof (NewAuthenticator_loop_attempts fuel worlds 0 0 c p [] [] r Hrun)
    as Hatt.
  destruct (newUnstartedAuthenticator (worlds 0%nat) c p)
    as [[[a0|err] c1] p1] eqn:Hun; simpl.
  - split; [split; [lia | intros (err & Herr); discriminate]|].
    split; [lia|].
    intros Hne Hread. exfalso.
    destruct (newUnstartedAuthenticator_ok _ _ _ _ _ _ Hun) as (_ & cl & Hcl).
    unfold newHTTPClient in Hcl.
    rewrite (issuerCA_nonempty _ Hne), Hread in Hcl. discriminate.
  - subst r. simpl.
    split; [split; [eauto | reflexivity]|].
    destruct (newUnstartedAuthenticator_errors _ _ _ _ _ _ Hun)
      as [(-> & -> & Hcause) | (pe & cl & Hpe & -> & Hcl & ->)].
    + split.
      * intros _. split; [reflexivity|]. split; [reflexivity|].
        exists err. split; [reflexivity|]. destruct Hcause; auto.
      * intros Hne Hread.
        assert (err = ErrLoadIssuerCA (IssuerCA c)) as ->; [|reflexivity].
        unfold newUnstartedAuthenticator, newHTTPClient in Hun.
        rewrite (issuerCA_nonempty _ Hne), Hread in Hun.
        injection Hun as <-. reflexivity.
    + split.
      * intros _. split; [reflexivity|]. split; [reflexivity|].
        exists (ErrParse pe). split; [reflexivity|]. right. right. eauto.
      * intros Hne Hread. exfalso. unfold newHTTPClient in Hcl.
        rewrite (issuerCA_nonempty _ Hne), Hread in Hcl. discriminate.
Qed.

(** X8 on a console whose issuer CA file is missing. *)
Lemma NewAuthenticator_configuration_errors_not_retried_witness :
  exists r,
    NewAuthenticator (ext := ExampleExternals) 31
      (fun _ => world_with_files []) example_config_with_CA Proc_init
    = Some r
    /\ r = mkConstructed (inr (ErrLoadIssuerCA "/etc/issuer.crt"))
             example_config_with_CA Proc_init [] [] 0.
Proof.
  set (run := NewAuthenticator (ext := ExampleExternals) 31
                (fun _ => world_with_files []) example_config_with_CA
                Proc_init).
  assert (Hok : option_map (fun _ => tt) run = Some tt)
    by (vm_compute; reflexivity).
  destruct run as [r|] eqn:Hrun; [|discriminate].
  exists r. split; [reflexivity|].
  destruct (NewAuthenticator_configuration_errors_not_retried ExampleExternals
              31 (fun _ => world_with_files []) example_config_with_CA
              Proc_init r Hrun) as (_ & _ & Hmissing).
  apply Hmissing; [discriminate | reflexivity].
Defined.

(** ** The handlers of a constructed authenticator *)

Section Sessions.

Context {ext : Externals}.

Lemma AuthSource_started (c : Config) :
  AuthSource (Config_started c) = AuthSource c.
Proof.
  unfold Config_started. destruct (String.eqb (CookiePath c) "");
    destruct c; reflexivity.
Qed.

Lemma NewAuthenticator_AuthSource (fuel : nat) (worlds : nat -> World)
  (c : Config) (p : Proc) (r : Constructed) :
  NewAuthenticator fuel worlds c p = Some r ->
  AuthSource (config r) = AuthSource c.
Proof.
  intros Hrun. rewrite (NewAuthenticator_config fuel worlds c p r Hrun).
  destruct (fst (newHTTPClient (worlds 0%nat) (IssuerCA c) true p));
    [apply AuthSource_started | reflexivity].
Qed.

(** A successful construction leaves the [Config] with its cookie path
    defaulted, and that path is the authenticator's. *)
Lemma NewAuthenticator_success_config (fuel : nat) (worlds : nat -> World)
  (c : Config) (p : Proc) (r : Constructed) (a : Authenticator) :
  NewAuthenticator fuel worlds c p = Some r ->
  result r = inl a ->
  config r = Config_started c /\ cookiePath a = CookiePath (config r).
Proof.
  intros Hrun Hres.
  destruct (NewAuthenticator_loop_configured fuel worlds 0 0 c p [] [] r a
              Hrun Hres) as (_ & _ & Hpath & _).
  pose proof (NewAuthenticator_loop_attempts fuel worlds 0 0 c p [] [] r Hrun)
    as Hatt.
  pose proof (NewAuthenticator_config fuel worlds c p r Hrun) as Hconfig.
  destruct (newUnstartedAuthenticator (worlds 0%nat) c p)
    as [[[a0|err] c1] p1] eqn:Hun.
  - destruct (newUnstartedAuthenticator_ok _ _ _ _ _ _ Hun) as (_ & cl & Hcl).
    rewrite Hcl in Hconfig. simpl in Hconfig.
    split; [exact Hconfig|]. rewrite Hconfig, Hpath.
    unfold Config_started.
    destruct (String.eqb (CookiePath c) ""); reflexivity.
  - subst r. discriminate.
Qed.

Lemma Config_started_fields (c : Config) :
  ClusterName (Config_started c) = ClusterName c
  /\ CookieDomain (Config_started c) = CookieDomain c
  /\ SecureCookies (Config_started c) = SecureCookies c.
Proof.
  unfold Config_started. destruct (String.eqb (CookiePath c) "");
    destruct c; auto.
Qed.

(** The login method of a discovery in OpenShift mode carries the cookie
    fields of the [Config]. *)
Lemma authSourceFunc_OpenShift_fields (a : Authenticator) (w : World)
  (c : Config) (p : Proc) (E : oauth2.Endpoint) (L : loginMethod) :
  fst (authSourceFunc_OpenShift a w c p) = inl (E, L) ->
  exists o, L = LMOpenShift o
            /\ clearingCookie o = clearingCookie (cookieFields c)
            /\ forall w' token,
                 sessionCookie w' o token
                 = sessionCookie w' (cookieFields c) token.
Proof.
  unfold authSourceFunc_OpenShift.
  destruct (newHTTPClient w (K8sCA c) true p) as [[k8s|e] p1];
    [|discriminate].
  destruct (clientFunc a w c p1) as [oc p2].
  destruct (newOpenShiftAuth w _) as [[ep o]|e] eqn:Hd; [|discriminate].
  simpl. intros Heq. injection Heq as <- <-.
  destruct (newOpenShiftAuth_success _ _ _ _ Hd)
    as (resp & md & _ & _ & _ & _ & _ & _ & _ & _ & Ho).
  exists o. split; [reflexivity|].
  rewrite Ho. split; reflexivity.
Qed.

(** What [authFunc] of an authenticator constructed in OpenShift mode
    yields on the [Config] it was constructed with, in any world: the
    address of a fresh [oauth2.Config] and an OpenShift login method
    with the cookie fields of the [Config]. *)
Lemma NewAuthenticator_OpenShift_authFunc (fuel : nat)
  (worlds : nat -> World) (c : Config) (p : Proc) (r : Constructed)
  (a : Authenticator) :
  NewAuthenticator fuel worlds c p = Some r ->
  result r = inl a ->
  AuthSource c = AuthSourceOpenShift ->
  exists f,
    authFunc a = Some f
    /\ forall w q,
         exists addr o q' cfg,
           f w (config r) q = ((addr, LMOpenShift o), q')
           /\ oauth2Configs q' !! addr = Some cfg
           /\ clearingCookie o = clearingCookie (cookieFields (config r))
           /\ forall w' token,
                sessionCookie w' o token
                = sessionCookie w' (cookieFields (config r)) token.
Proof.
  intros Hrun Hres Hsrc.
  rewrite <- (NewAuthenticator_AuthSource fuel worlds c p r Hrun) in Hsrc.
  destruct (NewAuthenticator_loop_built fuel worlds 0 0 c p [] [] r a
              Hrun Hres)
    as (asf & E0 & L0 & (Hf & Hkeep) & (q0 & Hq0) & Hos & _).
  specialize (Hos Hsrc). subst asf.
  exists (mk_authFunc (authSourceFunc_OpenShift a) E0 L0).
  split; [exact Hf|]. intros w q.
  destruct (mk_authFunc_spec (authSourceFunc_OpenShift a) E0 L0 w (config r)
              q (Hkeep w (config r) q))
    as (addr & lm & q' & cfg & Heq & _ & _ & _ & Hlook & _ & _ & _ & _
        & Hcase).
  destruct (fst (authSourceFunc_OpenShift a w (config r) q))
    as [[E L]|e] eqn:Hd.
  - destruct Hcase as [_ ->].
    destruct (authSourceFunc_OpenShift_fields _ _ _ _ _ _ Hd)
      as (o & -> & Hclear & Hsession).
    exists addr, o, q', cfg. auto.
  - destruct Hcase as [_ ->].
    destruct (authSourceFunc_OpenShift_fields _ _ _ _ _ _ Hq0)
      as (o & -> & Hclear & Hsession).
    exists addr, o, q', cfg. auto.
Qed.

End Sessions.

(** X9.  Logging out needs no provider.  On an authenticator that
    [NewAuthenticator] returned in OpenShift mode, [LogoutFunc] answers
    every request, in every world (the provider down or moved) and
    whatever the client caches hold, with the status 204 and the one
    cookie [logout] sets from the [Config]: named for the cluster, empty,
    with the [Config]'s cookie path, domain and secure flag. *)
Theorem LogoutFunc_OpenShift_needs_no_provider :
  forall (ext : Externals) (fuel : nat) (worlds : nat -> World) (c : Config)
         (p : Proc) (r : Constructed) (a : Authenticator),
    NewAuthenticator fuel worlds c p = Some r ->
    result r = inl a ->
    AuthSource c = AuthSourceOpenShift ->
    forall (w : World) (rw : http.ResponseWriter) (req : http.Request)
           (q : Proc),
    exists q',
      LogoutFunc a w (config r) rw req q
      = Some (http.WriteHeader
                (http.SetCookie rw
                   (http.mkCookie (GetCookieName (ClusterName c)) ""
                      (cookiePath a) (CookieDomain c) 0 (SecureCookies c)
                      true http.SameSiteUnset))
                http.StatusNoContent, q').
Proof.
  intros ext fuel worlds c p r a Hrun Hres Hsrc w rw req q.
  destruct (NewAuthenticator_OpenShift_authFunc fuel worlds c p r a
              Hrun Hres Hsrc) as (f & Hf & Hcall).
  destruct (Hcall w q) as (addr & o & q' & cfg & Heq & _ & Hclear & _).
  destruct (NewAuthenticator_success_config fuel worlds c p r a Hrun Hres)
    as (Hconfig & Hpath).
  destruct (Config_started_fields c) as (Hn & Hd & Hs).
  exists q'. unfold LogoutFunc. rewrite Hf, Heq. simpl logout.
  rewrite openShiftAuth_logout_eq, Hclear.
  unfold clearingCookie, cookieFields. simpl.
  rewrite Hpath, Hconfig, Hn, Hd, Hs. reflexivity.
Qed.

(** X9 on the console's authenticator while the provider is down. *)
Lemma LogoutFunc_OpenShift_needs_no_provider_witness :
  exists r a q',
    constructed_example = Some r
    /\ result r = inl a
    /\ LogoutFunc (ext := ExampleExternals) a silent_world (config r)
         http.newRecorder (request_with_cookies []) (proc r)
       = Some (http.WriteHeader
                 (http.SetCookie http.newRecorder
                    (http.mkCookie "openshift-session-token" "" "/api/" "" 0
                                   true true http.SameSiteUnset))
                 http.StatusNoContent, q').
Proof.
  destruct example_authenticator_some as (a & Ha).
  unfold example_authenticator in Ha.
  destruct constructed_example as [r|] eqn:Hrun; [|discriminate].
  destruct (result r) as [a'|e] eqn:Hres; [|discriminate].
  injection Ha as ->.
  destruct (LogoutFunc_OpenShift_needs_no_provider ExampleExternals 31
              (fun _ => discovery_world 200 (Some example_metadata))
              example_config Proc_init r a Hrun Hres eq_refl
              silent_world http.newRecorder (request_with_cookies [])
              (proc r)) as (q' & Heq).
  destruct (NewAuthenticator_loop_configured (ext := ExampleExternals) 31
              (fun _ => discovery_world 200 (Some example_metadata)) 0 0
              example_config Proc_init [] [] r a Hrun Hres)
    as (_ & _ & Hpath & _).
  exists r, a, q'. split; [reflexivity|]. split; [exact Hres|].
  rewrite Heq, Hpath. reflexivity.
Defined.

(** X10.  A successful callback starts the session.  On an authenticator
    that [NewAuthenticator] returned in OpenShift mode, for a request
    whose [state] parameter equals its state cookie and whose [code] is
    not empty, when the provider exchanges the code for a token with an
    access token: [CallbackFunc] sets the session cookie of the
    [Config] for that token on the response and calls the continuation
    once, on the login state holding the access token and on the success
    URL of the [Config] ([/] when it has none); it redirects to no
    error. *)
Theorem CallbackFunc_success_sets_session :
  forall (ext : Externals) (fuel : nat) (worlds : nat -> World) (c : Config)
         (p : Proc) (r : Constructed) (a : Authenticator),
    NewAuthenticator fuel worlds c p = Some r ->
    result r = inl a ->
    AuthSource c = AuthSourceOpenShift ->
    forall (fn : LoginJSON -> string -> http.ResponseWriter
                 -> http.ResponseWriter)
           (w : World) (rw : http.ResponseWriter) (req : http.Request)
           (q : Proc) (cookieState : string) (token : oauth2.Token),
      let code := http.Header_Get (http.URL_Query (http.URL req)) "code" in
      let target := if String.eqb (SuccessURL c) "" then "/"
                    else SuccessURL c in
      let info := toLoginJSON (mkLoginState "" "" (oauth2.AccessToken token)) in
      http.Request_Cookie req stateCookieName = Some cookieState ->
      code <> "" ->
      http.Header_Get (http.URL_Query (http.URL req)) "state" = cookieState ->
      (forall cfg cl, Exchange w cfg cl code = inl token) ->
      oauth2.AccessToken token <> "" ->
      exists q' cfg cl o,
        CallbackFunc a fn w (config r) rw req q
        = Some (fn info target
                   (http.SetCookie rw
                      (sessionCookie w (cookieFields (config r)) token)),
                q',
                [CallExchange cfg cl code; CallLogin (LMOpenShift o) token;
                 CallContinuation info target]).
Proof.
  intros ext fuel worlds c p r a Hrun Hres Hsrc fn w rw req q cookieState
         token code target info Hcookie Hcode Hstate Hexchange Htoken.
  destruct (NewAuthenticator_OpenShift_authFunc fuel worlds c p r a
              Hrun Hres Hsrc) as (f & Hf & Hcall).
  destruct (NewAuthenticator_loop_configured fuel worlds 0 0 c p [] [] r a
              Hrun Hres) as (_ & Hsuccess & _).
  destruct (clientFunc a w (config r) q) as [cl q1] eqn:Hclient.
  destruct (Hcall w q1) as (addr & o & q' & cfg & Heq & Hlook & _ & Hsession).
  exists q', cfg, cl, o.
  unfold CallbackFunc. rewrite Hcookie. fold code.
  apply String.eqb_neq in Hcode. rewrite Hcode, andb_false_r.
  apply String.eqb_eq in Hstate. rewrite Hstate. simpl negb. cbv iota.
  rewrite Hclient, Hf, Heq, Hlook, Hexchange. simpl login.
  rewrite (openShiftAuth_login_token w o rw token Htoken), Hsession, Hsuccess.
  reflexivity.
Qed.

(** X10 on the console's authenticator: the callback
    [?code=4%2FP7q&state=1f2e3d4c] with the state cookie [1f2e3d4c]. *)
Lemma CallbackFunc_success_sets_session_witness :
  let token := oauth2.mkToken "sha256~abc" 0 in
  let fn := fun (info : loginState) (target : string)
                (rw : http.ResponseWriter) =>
              http.WriteHeader (http.SetHeader rw "Location" target) 303 in
  exists r a q' calls rw',
    constructed_example = Some r
    /\ result r = inl a
    /\ CallbackFunc (ext := ExampleExternals) a fn (token_world token)
         (config r) http.newRecorder
         (callback_request "code=4%2FP7q&state=1f2e3d4c" (Some "1f2e3d4c"))
         (proc r)
       = Some (rw', q', calls)
    /\ Jar.pairs (Jar.receive [] rw')
       = [("openshift-session-token", "sha256~abc")]
    /\ http.Header_Get (http.rwHeader rw') "Location"
       = "https://console.example/"
    /\ length calls = 3%nat.
Proof.
  intros token fn.
  destruct example_authenticator_some as (a & Ha).
  unfold example_authenticator in Ha.
  destruct constructed_example as [r|] eqn:Hrun; [|discriminate].
  destruct (result r) as [a'|e] eqn:Hres; [|discriminate].
  injection Ha as ->.
  destruct (NewAuthenticator_success_config (ext := ExampleExternals) 31
              (fun _ => discovery_world 200 (Some example_metadata))
              example_config Proc_init r a Hrun Hres) as (Hconfig & _).
  destruct (CallbackFunc_success_sets_session ExampleExternals 31
              (fun _ => discovery_world 200 (Some example_metadata))
              example_config Proc_init r a Hrun Hres eq_refl fn
              (token_world token) http.newRecorder
              (callback_request "code=4%2FP7q&state=1f2e3d4c"
                                (Some "1f2e3d4c"))
              (proc r) "1f2e3d4c" token)
    as (q' & cfg & cl & o & Heq).
  - reflexivity.
  - vm_compute. discriminate.
  - vm_compute. reflexivity.
  - intros cfg cl. reflexivity.
  - discriminate.
  - eexists r, a, q', _, _.
    split; [reflexivity|]. split; [exact Hres|].
    split; [exact Heq|].
    rewrite Hconfig. split; [vm_compute; reflexivity|].
    split; [vm_compute; reflexivity | reflexivity].
Defined.

(** ** The OIDC mode *)

Section OIDC.

Context {ext : Externals}.

(** Outside the OpenShift mode the closures of a constructed
    authenticator hold the endpoint and the auth source that the one
    call of [newOIDCAuth] in the last iteration returned. *)
Lemma NewAuthenticator_loop_OIDC (fuel : nat) :
  forall (worlds : nat -> World) (n : nat) (steps : Z) (c : Config) (p : Proc)
         (slept : list Z) (failures : list error) (r : Constructed)
         (a : Authenticator),
    NewAuthenticator_loop fuel worlds n steps c p slept failures = Some r ->
    result r = inl a ->
    AuthSource c <> AuthSourceOpenShift ->
    exists E0 o cl,
      authFunc a
      = Some (mk_authFunc (authSourceFunc_OIDC (inl (E0, o))) E0 (LMOIDC o))
      /\ userFunc a = Some (fun w' req => oidc_authenticate w' o req)
      /\ newOIDCAuth (worlds (attempts r - 1)%nat)
           (mkOidcConfig cl (IssuerURL (config r)) (ClientID (config r))
              (CookiePath (config r)) (SecureCookies (config r))
              (CookieDomain (config r)))
         = inl (E0, o).
Proof.
  induction fuel as [|fuel IH];
    intros worlds n steps c p slept failures r a Hrun Hres Hsrc.
  - discriminate.
  - simpl in Hrun.
    destruct (newUnstartedAuthenticator (worlds n) c p)
      as [[[a0|err] c1] p1] eqn:Hun.
    2:{ injection Hrun as <-. discriminate. }
    destruct (newUnstartedAuthenticator_ok _ _ _ _ _ _ Hun) as (Hc1 & _).
    assert (Hsrc1 : AuthSource c1 <> AuthSourceOpenShift)
      by (rewrite Hc1, AuthSource_started; exact Hsrc).
    destruct (discover (worlds n) c1 a0 p1) as [d p3] eqn:Hd.
    destruct (d_result d) as [[E0 L0]|err] eqn:Hdres.
    2:{ destruct (steps + 1 >? maxSteps).
        - injection Hrun as <-. discriminate.
        - eapply IH; eassumption. }
    injection Hrun as <-. simpl in Hres. injection Hres as <-.
    simpl. rewrite Nat.sub_0_r.
    unfold discover in Hd.
    apply Z.eqb_neq in Hsrc1. rewrite Hsrc1 in Hd.
    destruct (clientFunc a0 (worlds n) c1 p1) as [client p2].
    destruct (newOIDCAuth (worlds n) _) as [[ep o]|msg] eqn:Hoidc;
      simpl in Hd; injection Hd as <- <-; simpl in *; [|discriminate].
    injection Hdres as <- <-.
    exists ep, o, client. repeat split; try reflexivity. exact Hoidc.
Qed.

End OIDC.

(** X11.  The OIDC auth source is created once.  On an authenticator
    that [NewAuthenticator] returned outside the OpenShift mode, every
    handler works on the auth source and the endpoint that [newOIDCAuth]
    returned in the last iteration of the construction, in every world
    and on every content of the [Config]: [Authenticate], [LogoutFunc]
    and [GetSpecialURLs] call its methods, and [authFunc] allocates an
    [oauth2.Config] with that endpoint and the current client id, secret,
    redirect URL and scopes.  No later call runs a discovery, and none
    touches the client caches. *)
Theorem NewAuthenticator_OIDC_source_created_once :
  forall (ext : Externals) (fuel : nat) (worlds : nat -> World) (c : Config)
         (p : Proc) (r : Constructed) (a : Authenticator),
    NewAuthenticator fuel worlds c p = Some r ->
    result r = inl a ->
    AuthSource c <> AuthSourceOpenShift ->
    exists (E0 : oauth2.Endpoint) (o : oidcAuth) (cl : clientRef),
      newOIDCAuth (worlds (attempts r - 1)%nat)
        (mkOidcConfig cl (IssuerURL (config r)) (ClientID (config r))
           (CookiePath (config r)) (SecureCookies (config r))
           (CookieDomain (config r)))
      = inl (E0, o)
      /\ forall (w : World) (c' : Config) (rw : http.ResponseWriter)
                (req : http.Request) (q : Proc),
           let q' :=
             mkProc (httpClientCache q) (httpClientCacheSystemRoots q)
                    (clients q)
                    (oauth2Configs q
                       ++ [oauth2.mkConfig (ClientID c') (ClientSecret c') E0
                                           (RedirectURL c') (Scope c')]) in
           Authenticate a w req = Some (oidc_authenticate w o req)
           /\ LogoutFunc a w c' rw req q = Some (oidc_logout w o rw req, q')
           /\ GetSpecialURLs a w c' q = Some (oidc_getSpecialURLs w o, q')
           /\ exists f,
                authFunc a = Some f
                /\ f w c' q = ((length (oauth2Configs q), LMOIDC o), q').
Proof.
  intros ext fuel worlds c p r a Hrun Hres Hsrc.
  destruct (NewAuthenticator_loop_OIDC fuel worlds 0 0 c p [] [] r a
              Hrun Hres Hsrc) as (E0 & o & cl & Hf & Hu & Hoidc).
  exists E0, o, cl. split; [exact Hoidc|].
  intros w c' rw req q q'.
  split; [unfold Authenticate; rewrite Hu; reflexivity|].
  split; [unfold LogoutFunc; rewrite Hf; reflexivity|].
  split; [unfold GetSpecialURLs; rewrite Hf; reflexivity|].
  eexists. split; [exact Hf | reflexivity].
Qed.

(** X11 on a console in OIDC mode: after the construction the provider
    is gone, and the handlers still work on the endpoint of
    [https://oidc.example]. *)
Lemma NewAuthenticator_OIDC_source_created_once_witness :
  let c := config_for AuthSourceTectonic "https://console.example" "/api/" in
  exists r a cl f,
    NewAuthenticator (ext := ExampleExternals) 31 (fun _ => oidc_world) c
      Proc_init = Some r
    /\ result r = inl a
    /\ newOIDCAuth oidc_world
         (mkOidcConfig cl (IssuerURL (config r)) (ClientID (config r))
            (CookiePath (config r)) (SecureCookies (config r))
            (CookieDomain (config r)))
       = inl (oauth2.mkEndpoint "https://oidc.example/authorize"
                                "https://oidc.example/token", tt)
    /\ authFunc a = Some f
    /\ option_map (fun cfg => oauth2.Endpoint_ cfg)
         (oauth2Configs (snd (f silent_world c (proc r)))
            !! fst (fst (f silent_world c (proc r))))
       = Some (oauth2.mkEndpoint "https://oidc.example/authorize"
                                 "https://oidc.example/token").
Proof.
  intros c.
  set (run := NewAuthenticator (ext := ExampleExternals) 31
                (fun _ => oidc_world) c Proc_init).
  assert (Hok : option_map (fun r => match result r with
                                     | inl _ => true
                                     | inr _ => false
                                     end) run = Some true)
    by (vm_compute; reflexivity).
  destruct run as [r|] eqn:Hrun; [|discriminate]. simpl in Hok.
  destruct (result r) as [a|e] eqn:Hres; [|discriminate].
  destruct (NewAuthenticator_OIDC_source_created_once ExampleExternals 31
              (fun _ => oidc_world) c Proc_init r a Hrun Hres)
    as (E0 & o & cl & Hoidc & Hcalls).
  - discriminate.
  - destruct (Hcalls silent_world c http.newRecorder (request_with_cookies [])
                (proc r)) as (_ & _ & _ & f & Hf & Hcall).
    assert (HE : E0 = oauth2.mkEndpoint "https://oidc.example/authorize"
                                         "https://oidc.example/token")
      by (simpl in Hoidc; congruence).
    exists r, a, cl, f. split; [reflexivity|]. split; [exact Hres|].
    split; [rewrite Hoidc, HE; destruct o; reflexivity|].
    split; [exact Hf|].
    rewrite Hcall. simpl fst. simpl snd. simpl oauth2Configs.
    rewrite lookup_app_r by lia. rewrite Nat.sub_diag. simpl. rewrite HE.
    reflexivity.
Defined.

(** ** The discovery URL *)

Lemma list_ascii_of_string_app (s t : string) :
  list_ascii_of_string (s +:+ t)
  = (list_ascii_of_string s ++ list_ascii_of_string t)%list.
Proof.
  induction s as [|a s IH]; [reflexivity|].
  rewrite append_String. simpl. rewrite IH. reflexivity.
Qed.

Lemma length_append (s t : string) :
  String.length (s +:+ t) = (String.length s + String.length t)%nat.
Proof.
  induction s as [|a s IH]; [reflexivity|].
  rewrite append_String. simpl. rewrite IH. reflexivity.
Qed.

Lemma substring_append (s t : string) :
  substring 0 (String.length s) (s +:+ t) = s.
Proof.
  induction s as [|a s IH].
  - destruct t; reflexivity.
  - rewrite append_String. simpl. rewrite IH. reflexivity.
Qed.

Lemma TrimSuffix_slash (s : string) : GoStrings.TrimSuffix (s +:+ "/") "/" = s.
Proof.
  unfold GoStrings.TrimSuffix, GoStrings.HasSuffix.
  rewrite list_ascii_of_string_app, rev_app_distr. simpl.
  rewrite length_append. simpl.
  replace (String.length s + 1 - 1)%nat with (String.length s) by lia.
  apply substring_append.
Qed.

(** X12.  Discovery trims one trailing slash of the issuer URL, and only
    one: the request goes to the issuer URL without its last slash,
    followed by [/.well-known/oauth-authorization-server].  So an issuer
    URL given with one trailing slash is discovered exactly as the same
    URL given without it. *)
Theorem newOpenShiftAuth_ignores_trailing_slash :
  forall (ext : Externals) (w : World) (k8s oauth : clientRef)
         (issuer path name domain : string) (secure : bool),
    GoStrings.HasSuffix issuer "/" = false ->
    wellKnownURL issuer
    = issuer +:+ "/.well-known/oauth-authorization-server"
    /\ wellKnownURL (issuer +:+ "/") = wellKnownURL issuer
    /\ wellKnownURL ((issuer +:+ "/") +:+ "/")
       = (issuer +:+ "/") +:+ "/.well-known/oauth-authorization-server"
    /\ newOpenShiftAuth w
         (mkOpenShiftConfig k8s oauth (issuer +:+ "/") path secure name domain)
       = newOpenShiftAuth w
           (mkOpenShiftConfig k8s oauth issuer path secure name domain).
Proof.
  intros ext w k8s oauth issuer path name domain secure Hno.
  assert (H0 : wellKnownURL issuer
               = issuer +:+ "/.well-known/oauth-authorization-server")
    by (unfold wellKnownURL, GoStrings.TrimSuffix; rewrite Hno; reflexivity).
  assert (H1 : wellKnownURL (issuer +:+ "/") = wellKnownURL issuer)
    by (rewrite H0; unfold wellKnownURL; rewrite TrimSuffix_slash;
        reflexivity).
  split; [exact H0|]. split; [exact H1|].
  split; [unfold wellKnownURL; rewrite TrimSuffix_slash; reflexivity|].
  unfold newOpenShiftAuth. simpl oc_issuerURL. rewrite H1. reflexivity.
Qed.

(** X12 on the issuer [https://oauth.example]. *)
Lemma newOpenShiftAuth_ignores_trailing_slash_witness :
  wellKnownURL "https://oauth.example/"
  = "https://oauth.example/.well-known/oauth-authorization-server"
  /\ newOpenShiftAuth (ext := ExampleExternals)
       (discovery_world 200 (Some example_metadata))
       (mkOpenShiftConfig DefaultClient DefaultClient "https://oauth.example/"
                          "/api/" true "local-cluster" "")
     = newOpenShiftAuth (ext := ExampleExternals)
         (discovery_world 200 (Some example_metadata))
         example_openShiftConfig.
Proof.
  destruct (newOpenShiftAuth_ignores_trailing_slash ExampleExternals
              (discovery_world 200 (Some example_metadata))
              DefaultClient DefaultClient "https://oauth.example" "/api/"
              "local-cluster" "" true)
    as (H0 & H1 & _ & Heq).
  - reflexivity.
  - split; [|exact Heq].
    change "https://oauth.example/" with ("https://oauth.example" +:+ "/").
    rewrite H1. exact H0.
Defined.

(** ** Starting a login *)

Lemma hex_byte (b : ascii) :
  forallb isLowerHex
    [hex.digit (GoStrings.code b / 16); hex.digit (GoStrings.code b mod 16)]
  = true.
Proof.
  destruct b as [[] [] [] [] [] [] [] []]; vm_compute; reflexivity.
Qed.

Lemma length_string_of_list_ascii (l : list ascii) :
  String.length (string_of_list_ascii l) = length l.
Proof. induction l as [|a l IH]; simpl; congruence. Qed.

Lemma hex_EncodeToString_digits (src : list ascii) :
  String.length (hex.EncodeToString src) = (2 * length src)%nat
  /\ forallb isLowerHex (url.unstr (hex.EncodeToString src)) = true.
Proof.
  unfold hex.EncodeToString, url.str, url.unstr.
  rewrite list_ascii_of_string_of_list_ascii, length_string_of_list_ascii.
  induction src as [|b src [IHl IHd]]; [split; reflexivity|].
  split.
  - cbn [flat_map length app]. rewrite IHl. lia.
  - cbn [flat_map]. rewrite forallb_app, IHd, hex_byte. reflexivity.
Qed.

(** X13.  [LoginFunc] starts a login with a fresh state.  With the four
    random bytes read, it sets the cookie [login-state] (path [/],
    HttpOnly, no max-age, the authenticator's secure flag and domain)
    whose value is the state, eight lowercase hexadecimal digits, and
    redirects with the status 303 to the authorization URL that the
    current [oauth2.Config] builds for the same state.  A client that
    stores the cookie sends it back, so [CallbackFunc] finds the state
    it compares the [state] parameter with. *)
Theorem LoginFunc_sets_state_and_redirects :
  forall (ext : Externals) (AuthCodeURL : oauth2.Config -> string -> string)
         (a : Authenticator) (w : World) (c : Config)
         (rw : http.ResponseWriter) (r : http.Request) (p : Proc)
         (b0 b1 b2 b3 : ascii)
         (f : World -> Config -> Proc -> (nat * loginMethod) * Proc)
         (addr : nat) (lm : loginMethod) (p1 : Proc) (cfg : oauth2.Config),
    authFunc a = Some f ->
    f w c p = ((addr, lm), p1) ->
    oauth2Configs p1 !! addr = Some cfg ->
    let state := hex.EncodeToString [b0; b1; b2; b3] in
    let cookie :=
      http.mkCookie stateCookieName state "/" (cookieDomain a) 0
                    (secureCookies a) true http.SameSiteUnset in
    exists resp,
      LoginFunc AuthCodeURL a w c rw r p (Some (b0, b1, b2, b3))
      = Some (resp, p1)
      /\ http.rwSetCookie resp = (http.rwSetCookie rw ++ [cookie])%list
      /\ http.Header_Get (http.rwHeader resp) "Location"
         = redirectTarget r (AuthCodeURL cfg state)
      /\ (http.rwStatus rw = None -> http.rwStatus resp = Some 303)
      /\ String.length state = 8%nat
      /\ forallb isLowerHex (url.unstr state) = true
      /\ (rw = http.newRecorder ->
          forall (jar : list http.Cookie) (req : http.Request),
            (forall x, In x jar -> http.Name x = stateCookieName ->
                       Jar.same x cookie = true) ->
            http.Cookies req = Jar.pairs (Jar.receive jar resp) ->
            http.Request_Cookie req stateCookieName = Some state).
Proof.
  intros ext AuthCodeURL a w c rw r p b0 b1 b2 b3 f addr lm p1 cfg
         Hf Hcall Hcfg state cookie.
  destruct (http_Redirect_spec (http.SetCookie rw cookie) r
              (AuthCodeURL cfg state) http.StatusSeeOther)
    as (Hloc & Hstatus & Hcookies).
  exists (http_Redirect (http.SetCookie rw cookie) r (AuthCodeURL cfg state)
                        http.StatusSeeOther).
  split.
  { unfold LoginFunc. fold state. cbv zeta. rewrite optional_Domain.
    fold cookie. rewrite Hf, Hcall, Hcfg. reflexivity. }
  split; [rewrite Hcookies; reflexivity|].
  split; [exact Hloc|].
  split; [intros Hnone; rewrite Hstatus; simpl; rewrite Hnone; reflexivity|].
  destruct (hex_EncodeToString_digits [b0; b1; b2; b3]) as (Hlen & Hdigits).
  split; [exact Hlen|]. split; [exact Hdigits|].
  intros -> jar req Honly Hreq.
  unfold http.Request_Cookie. rewrite Hreq. unfold Jar.receive.
  rewrite Hcookies. simpl fold_left.
  exact (Jar_set_lookup jar cookie Honly).
Qed.

(** X13 on the console's authenticator, with the random bytes
    [1f 2e 3d 4c], while the provider is down. *)
Lemma LoginFunc_sets_state_and_redirects_witness :
  let AuthCodeURL := fun (cfg : oauth2.Config) (state : string) =>
    oauth2.AuthURL (oauth2.Endpoint_ cfg) +:+ "?state=" +:+ state in
  exists r a resp p1,
    constructed_example = Some r
    /\ result r = inl a
    /\ LoginFunc (ext := ExampleExternals) AuthCodeURL a silent_world
         (config r) http.newRecorder (request_with_cookies []) (proc r)
         (Some (ascii_of_N 31, "."%char, "="%char, "L"%char))
       = Some (resp, p1)
    /\ http.Request_Cookie
         (request_with_cookies (Jar.pairs (Jar.receive [] resp)))
         stateCookieName
       = Some "1f2e3d4c".
Proof.
  intros AuthCodeURL.
  destruct example_authenticator_some as (a & Ha).
  unfold example_authenticator in Ha.
  destruct constructed_example as [r|] eqn:Hrun; [|discriminate].
  destruct (result r) as [a'|e] eqn:Hres; [|discriminate].
  injection Ha as ->.
  destruct (NewAuthenticator_OpenShift_authFunc (ext := ExampleExternals) 31
              (fun _ => discovery_world 200 (Some example_metadata))
              example_config Proc_init r a Hrun Hres eq_refl)
    as (f & Hf & Hcall).
  destruct (Hcall silent_world (proc r))
    as (addr & o & p1 & cfg & Heq & Hlook & _).
  destruct (LoginFunc_sets_state_and_redirects ExampleExternals AuthCodeURL a
              silent_world (config r) http.newRecorder
              (request_with_cookies []) (proc r)
              (ascii_of_N 31) "."%char "="%char "L"%char
              f addr (LMOpenShift o) p1 cfg Hf Heq Hlook)
    as (resp & Hlogin & _ & _ & _ & _ & _ & Hjar).
  exists r, a, resp, p1.
  split; [reflexivity|]. split; [exact Hres|]. split; [exact Hlogin|].
  apply (Hjar eq_refl []).
  - intros x [].
  - reflexivity.
Defined.
